(** * The Moonshine Hydra render delegate: synchronisation of meshes and materials

    A shallow embedding of [src/bin/hydra/mesh.cpp], [src/bin/hydra/material.cpp]
    and [hydra/renderParam.hpp].

    The delegate sits between the host scene graph (USD Hydra) and the
    Moonshine renderer.  Neither of them is part of the repository, so

    - the renderer is a log of the calls it receives together with a supply of
      fresh handles;
    - the scene delegate, the render index, the shader registry and the image
      reader are records of the answers they give during one sync call;
    - the numeric types of the host ([float], [GfMatrix4f], ...) and the values
      of its enumerations (dirty bits, image formats) are parameters.

    A C++ expression whose behaviour is undefined (an index past the end of an
    array, a dereferenced end iterator or null pointer) makes the embedded
    function return [None]. *)

From Stdlib Require Import String ZArith QArith List Bool Lia Permutation.
Import ListNotations.
Local Open Scope Z_scope.

Set Implicit Arguments.

(** ** Machine integers *)

(** [size_t] is 64 bits wide; arithmetic on it wraps. *)
Definition size_t_modulus : Z := 2 ^ 64.
Definition to_size_t (z : Z) : Z := z mod size_t_modulus.

(** [int] is 32 bits wide and signed; an overflowing [int] product is undefined. *)
Definition INT_MAX : Z := 2 ^ 31 - 1.
Definition INT_MIN : Z := - 2 ^ 31.
Definition int_mul (a b : Z) : option Z :=
  let p := a * b in
  if (INT_MIN <=? p) && (p <=? INT_MAX) then Some p else None.

(** [HdDirtyBits] is [uint32_t]. *)
Definition HdDirtyBits : Type := Z.
Definition UINT32_MAX : Z := 2 ^ 32 - 1.

(** [a & b], [~a] on 32 bits, and the truth value of [a & b] in a condition. *)
Definition bits_and (a b : Z) : Z := Z.land a b.
Definition bits_not (a : Z) : Z := Z.lxor a UINT32_MAX.
Definition bits_test (a b : Z) : bool := negb (bits_and a b =? 0).

(** ** Tokens and paths *)

Definition TfToken : Type := string.
Definition SdfPath : Type := string.
Definition token_eqb (a b : TfToken) : bool := String.eqb a b.
Definition IsEmpty (s : string) : bool := String.eqb s EmptyString.

(** ** Byte buffers: [std::unique_ptr<uint8_t[]>] with its allocated length *)

Definition uint8_t : Type := Byte.byte.

Definition buf_get (data : list uint8_t) (i : Z) : option uint8_t :=
  if (0 <=? i) && (i <? Z.of_nat (length data)) then nth_error data (Z.to_nat i) else None.

Fixpoint list_set {A : Type} (l : list A) (n : nat) (x : A) : list A :=
  match l, n with
  | [], _ => []
  | _ :: t, O => x :: t
  | h :: t, S k => h :: list_set t k x
  end.

Definition buf_set (data : list uint8_t) (i : Z) (b : uint8_t) : option (list uint8_t) :=
  if (0 <=? i) && (i <? Z.of_nat (length data)) then Some (list_set data (Z.to_nat i) b) else None.

(** [data[dst] = data[src]] *)
Definition buf_copy_byte (data : list uint8_t) (dst src : Z) : option (list uint8_t) :=
  match buf_get data src with
  | Some b => buf_set data dst b
  | None => None
  end.

(** ** material.cpp: [rgbToRgba] *)

(** The inner loop [for (size_t j = 0; j < src_bytes_per_pixel; j++)] of
    [rgbToRgba], from [j] on, with [n] iterations left. *)
Fixpoint rgbToRgba_pixel (n : nat) (j : Z) (data : list uint8_t)
    (i src_bytes_per_pixel dst_bytes_per_pixel : Z) : option (list uint8_t) :=
  match n with
  | O => Some data
  | S n' =>
      match buf_copy_byte data
              (to_size_t (to_size_t (dst_bytes_per_pixel * i) + j))
              (to_size_t (to_size_t (src_bytes_per_pixel * i) + j)) with
      | Some data' =>
          rgbToRgba_pixel n' (j + 1) data' i src_bytes_per_pixel dst_bytes_per_pixel
      | None => None
      end
  end.

(** The outer loop [for (size_t i = pixel_count - 1; i-- > 0;)].  The argument
    [k] is the value of [i] when the condition is tested: the test [i-- > 0]
    succeeds when [k] is a successor, and the body then runs with [i] already
    decremented. *)
Fixpoint rgbToRgba_loop (k : nat) (data : list uint8_t)
    (src_bytes_per_pixel dst_bytes_per_pixel : Z) : option (list uint8_t) :=
  match k with
  | O => Some data
  | S i =>
      match rgbToRgba_pixel (Z.to_nat src_bytes_per_pixel) 0 data
              (Z.of_nat i) src_bytes_per_pixel dst_bytes_per_pixel with
      | Some data' => rgbToRgba_loop i data' src_bytes_per_pixel dst_bytes_per_pixel
      | None => None
      end
  end.

Definition rgbToRgba (data : list uint8_t)
    (pixel_count src_bytes_per_pixel dst_bytes_per_pixel : Z) : option (list uint8_t) :=
  rgbToRgba_loop (Z.to_nat (to_size_t (pixel_count - 1))) data
    src_bytes_per_pixel dst_bytes_per_pixel.

(** ** Host types *)

(** The floating-point scalars and matrices of the host and the operations the
    delegate applies to them.  Their values are only moved around, multiplied
    and narrowed, so they are kept abstract. *)
Class HostTypes : Type := {
  F32 : Type;                                              (* float *)
  F32_zero : F32;                                          (* 0.0f, also float() *)
  F32_half : F32;                                          (* 0.5f *)
  F32_one : F32;                                           (* 1.0 *)
  F32_one_and_half : F32;                                  (* 1.5 *)
  F32_remap : F32 -> F32;                                  (* (x + 1) / 2 *)
  GfMatrix4d : Type;
  GfMatrix4f : Type;
  GfMatrix4f_identity : GfMatrix4f;                        (* GfMatrix4f(1.0) *)
  GfMatrix4f_narrow : GfMatrix4d -> GfMatrix4f;            (* GfMatrix4f(GfMatrix4d) *)
  GfMatrix4f_mul : GfMatrix4f -> GfMatrix4f -> GfMatrix4f; (* operator* *)
  GfMatrix4f_at : GfMatrix4f -> nat -> nat -> F32          (* m[row][column] *)
}.

Inductive HdInterpolation : Type :=
| HdInterpolationConstant
| HdInterpolationUniform
| HdInterpolationVarying
| HdInterpolationVertex
| HdInterpolationFaceVarying
| HdInterpolationInstance.

(** The values [0 .. HdInterpolationCount - 1] in increasing order. *)
Definition all_interpolations : list HdInterpolation :=
  [ HdInterpolationConstant; HdInterpolationUniform; HdInterpolationVarying;
    HdInterpolationVertex; HdInterpolationFaceVarying; HdInterpolationInstance ].

(** Opaque renderer handles. *)
Definition MeshHandle : Type := nat.
Definition ImageHandle : Type := nat.
Definition MaterialHandle : Type := nat.
Definition InstanceHandle : Type := nat.

(** [TextureFormat] of moonshine.h, as far as material.cpp names it. *)
Inductive TextureFormat : Type := f16x4 | u8x1 | u8x2 | u8x4 | u8x4_srgb.

Record Extent2D : Type := { width : Z; height : Z }.

Section HostValues.
Context {HT : HostTypes}.

Definition GfVec2f : Type := (F32 * F32)%type.
Definition GfVec3f : Type := (F32 * F32 * F32)%type.
Definition GfVec3i : Type := (Z * Z * Z)%type.

Record F32x2 : Type := { x2 : F32; y2 : F32 }.
Record F32x3 : Type := { x3 : F32; y3 : F32; z3 : F32 }.
Record F32x4 : Type := { x4 : F32; y4 : F32; z4 : F32; w4 : F32 }.
Record Mat3x4 : Type := { row_x : F32x4; row_y : F32x4; row_z : F32x4 }.

(** What a [VtValue] may hold, as far as the delegate asks. *)
Inductive VtValue : Type :=
| VtEmpty
| VtFloat (f : F32)
| VtVec3f (v : GfVec3f)
| VtVec2fArray (a : list GfVec2f)
| VtVec3fArray (a : list GfVec3f)
| VtToken (t : TfToken)
| VtAssetPath (resolvedPath : string)
| VtOther (typeName : string).

(** [IsHolding<VtArray<T>>] with the held array, for the two element types
    [ComputePrimvar] is instantiated at. *)
Definition holds_Vec2fArray (v : VtValue) : option (list GfVec2f) :=
  match v with VtVec2fArray a => Some a | _ => None end.
Definition holds_Vec3fArray (v : VtValue) : option (list GfVec3f) :=
  match v with VtVec3fArray a => Some a | _ => None end.

(** [Get<T>()] returns a default-constructed [T] when another type is held. *)
Definition Get_array {T : Type} (holds : VtValue -> option (list T)) (v : VtValue) : list T :=
  match holds v with Some a => a | None => [] end.
Definition Get_float (v : VtValue) : F32 :=
  match v with VtFloat f => f | _ => F32_zero end.
Definition Get_token (v : VtValue) : TfToken :=
  match v with VtToken t => t | _ => EmptyString end.

Record Material : Type := {
  normal : ImageHandle;
  emissive : ImageHandle;
  color : ImageHandle;
  metalness : ImageHandle;
  roughness : ImageHandle;
  ior : F32
}.

(** *** The renderer *)

(** One constructor per function of moonshine.h the delegate calls; creation
    calls record the handle they returned. *)
Inductive Call : Type :=
| CreateMesh (positions normals : list GfVec3f) (texcoords : list GfVec2f)
             (count : Z) (ret : MeshHandle)
| CreateSolidTexture1 (source : F32) (name : string) (ret : ImageHandle)
| CreateSolidTexture2 (source : F32x2) (name : string) (ret : ImageHandle)
| CreateSolidTexture3 (source : F32x3) (name : string) (ret : ImageHandle)
| CreateRawTexture (data : list uint8_t) (extent : Extent2D) (format : TextureFormat)
                   (name : string) (ret : ImageHandle)
| CreateMaterial (material : Material) (ret : MaterialHandle)
| SetMaterialNormal (material : MaterialHandle) (image : ImageHandle)
| SetMaterialEmissive (material : MaterialHandle) (image : ImageHandle)
| SetMaterialColor (material : MaterialHandle) (image : ImageHandle)
| SetMaterialMetalness (material : MaterialHandle) (image : ImageHandle)
| SetMaterialRoughness (material : MaterialHandle) (image : ImageHandle)
| SetMaterialIOR (material : MaterialHandle) (value : F32)
| CreateInstance (transform : Mat3x4) (mesh : MeshHandle) (material : MaterialHandle)
                 (visible : bool) (ret : InstanceHandle)
| DestroyInstance (instance : InstanceHandle)
| SetInstanceTransform (instance : InstanceHandle) (transform : Mat3x4)
| SetInstanceVisibility (instance : InstanceHandle) (visible : bool).

(** [HdMoonshine]: the calls received so far, oldest first, and the next
    handle to hand out. *)
Record HdMoonshine : Type := { next_handle : nat; calls : list Call }.

(** What [TF_CODING_ERROR] is called with. *)
Inductive Diagnostic : Type :=
| UnknownPrimvarInterpolation (primvarName : TfToken) (interpolation : HdInterpolation)
| EmptyMesh
| MeshDirtyBitsIgnored (dirtyBits : HdDirtyBits)
| UnknownFormat
| UnknownValueType (value : VtValue)
| CouldNotParseTexture (name : string)
| UnknownResourceType
| NoSurfaceConnection
| UnknownNode (nodeTypeId : TfToken)
| UnknownConnection (inputName : TfToken) (role : string)
| MaterialDirtyBitsIgnored (dirtyBits : HdDirtyBits).

(** The state a sync call runs in: the renderer and the diagnostics issued. *)
Record World : Type := { msne : HdMoonshine; diagnostics : list Diagnostic }.

(** *** Computations: state passing over [World], [None] for undefined behaviour *)

Definition M (A : Type) : Type := World -> option (A * World).

Definition ret {A : Type} (a : A) : M A := fun w => Some (a, w).
Definition bind {A B : Type} (m : M A) (f : A -> M B) : M B :=
  fun w => match m w with Some (a, w') => f a w' | None => None end.
Definition undefined {A : Type} : M A := fun _ => None.

Definition TF_CODING_ERROR (d : Diagnostic) : M unit :=
  fun w => Some (tt, {| msne := msne w; diagnostics := diagnostics w ++ [d] |}).

(** A renderer call that returns nothing. *)
Definition call (c : Call) : M unit :=
  fun w => Some (tt, {| msne := {| next_handle := next_handle (msne w);
                                   calls := calls (msne w) ++ [c] |};
                        diagnostics := diagnostics w |}).

(** A renderer call that returns a fresh handle. *)
Definition create (c : nat -> Call) : M nat :=
  fun w => let h := next_handle (msne w) in
           Some (h, {| msne := {| next_handle := S h;
                                  calls := calls (msne w) ++ [c h] |};
                       diagnostics := diagnostics w |}).

Definition lift {A : Type} (o : option A) : M A :=
  match o with Some a => ret a | None => undefined end.
End HostValues.

Declare Scope m_scope.
Delimit Scope m_scope with m.
Notation "x <- m ;; k" := (bind m (fun x => k))
  (at level 100, m at next level, right associativity) : m_scope.
Notation "' p <- m ;; k" := (bind m (fun p => k))
  (at level 100, p pattern, m at next level, right associativity) : m_scope.
Notation "m ;;; k" := (bind m (fun _ => k))
  (at level 100, right associativity) : m_scope.

Section Loops.
Context {HT : HostTypes}.
Local Open Scope m_scope.

(** A range-based [for] whose body pushes one result per element. *)
Fixpoint mapM {A B : Type} (f : A -> M B) (l : list A) : M (list B) :=
  match l with
  | [] => ret []
  | a :: l' => b <- f a ;; bs <- mapM f l' ;; ret (b :: bs)
  end.

(** A range-based [for] whose body returns nothing. *)
Fixpoint forM {A : Type} (f : A -> M unit) (l : list A) : M unit :=
  match l with
  | [] => ret tt
  | a :: l' => f a ;;; forM f l'
  end.
End Loops.

(** ** The change tracker of the host *)

(** The values of [HdChangeTracker::RprimDirtyBits] and of
    [HdMaterial::DirtyBits] the delegate names, and the mask [IsClean] tests.
    They are declared by the host, not by the repository. *)
Record DirtyBitValues : Type := {
  DirtyPoints : HdDirtyBits;
  DirtyTransform : HdDirtyBits;
  DirtyInstancer : HdDirtyBits;
  DirtyVisibility : HdDirtyBits;
  DirtyMaterialId : HdDirtyBits;
  DirtyParams : HdDirtyBits;
  CleanMask : HdDirtyBits
}.

(** The five rprim bits are non-empty 32-bit masks that do not overlap. *)
Definition is_mask (m : Z) : bool := (0 <? m) && (m <=? UINT32_MAX).

Fixpoint disjoint_from (m : Z) (l : list Z) : bool :=
  match l with
  | [] => true
  | x :: l' => (Z.land m x =? 0) && disjoint_from m l'
  end.

Fixpoint pairwise_disjoint (l : list Z) : bool :=
  match l with
  | [] => true
  | m :: l' => disjoint_from m l' && pairwise_disjoint l'
  end.

Definition rprim_bits (B : DirtyBitValues) : list Z :=
  [ DirtyPoints B; DirtyTransform B; DirtyInstancer B; DirtyVisibility B; DirtyMaterialId B ].

Definition rprim_bits_ok (B : DirtyBitValues) : bool :=
  forallb is_mask (rprim_bits B) && pairwise_disjoint (rprim_bits B).

(** What [rprim_bits_ok] gives: every bit is a 32-bit mask and no two overlap. *)
Record RprimBitsFacts (B : DirtyBitValues) : Prop := {
  range_P : 0 <= DirtyPoints B <= UINT32_MAX;
  range_T : 0 <= DirtyTransform B <= UINT32_MAX;
  range_I : 0 <= DirtyInstancer B <= UINT32_MAX;
  range_V : 0 <= DirtyVisibility B <= UINT32_MAX;
  range_M : 0 <= DirtyMaterialId B <= UINT32_MAX;
  disj_PT : Z.land (DirtyPoints B) (DirtyTransform B) = 0;
  disj_PI : Z.land (DirtyPoints B) (DirtyInstancer B) = 0;
  disj_PV : Z.land (DirtyPoints B) (DirtyVisibility B) = 0;
  disj_PM : Z.land (DirtyPoints B) (DirtyMaterialId B) = 0;
  disj_TI : Z.land (DirtyTransform B) (DirtyInstancer B) = 0;
  disj_TV : Z.land (DirtyTransform B) (DirtyVisibility B) = 0;
  disj_TM : Z.land (DirtyTransform B) (DirtyMaterialId B) = 0;
  disj_IV : Z.land (DirtyInstancer B) (DirtyVisibility B) = 0;
  disj_IM : Z.land (DirtyInstancer B) (DirtyMaterialId B) = 0;
  disj_VM : Z.land (DirtyVisibility B) (DirtyMaterialId B) = 0
}.

Module HdChangeTracker.
Section Tracker.
Variable B : DirtyBitValues.

(** [IsPrimvarDirty(bits, id, HdTokens->points)] *)
Definition IsPrimvarDirty_points (dirtyBits : HdDirtyBits) : bool :=
  bits_test dirtyBits (DirtyPoints B).
Definition IsVisibilityDirty (dirtyBits : HdDirtyBits) : bool :=
  bits_test dirtyBits (DirtyVisibility B).
Definition IsTransformDirty (dirtyBits : HdDirtyBits) : bool :=
  bits_test dirtyBits (DirtyTransform B).
Definition IsInstancerDirty (dirtyBits : HdDirtyBits) : bool :=
  bits_test dirtyBits (DirtyInstancer B).
Definition IsClean (dirtyBits : HdDirtyBits) : bool :=
  bits_and dirtyBits (CleanMask B) =? 0.
End Tracker.
End HdChangeTracker.

(** ** renderParam.hpp *)

Record HdMoonshineRenderParam : Type := {
  _black3 : ImageHandle;
  _black1 : ImageHandle;
  _upNormal : ImageHandle;
  _grey3 : ImageHandle;
  _white1 : ImageHandle;
  _defaultMaterial : MaterialHandle
}.

Section RenderParam.
Context {HT : HostTypes}.
Local Open Scope m_scope.
Local Open Scope string_scope.

(** The constructor of [HdMoonshineRenderParam]. *)
Definition new_HdMoonshineRenderParam : M HdMoonshineRenderParam :=
  black3 <- create (CreateSolidTexture3
              {| x3 := F32_zero; y3 := F32_zero; z3 := F32_zero |} "black3") ;;
  black1 <- create (CreateSolidTexture1 F32_zero "black1") ;;
  upNormal <- create (CreateSolidTexture2 {| x2 := F32_half; y2 := F32_half |} "up normal") ;;
  grey3 <- create (CreateSolidTexture3
              {| x3 := F32_half; y3 := F32_half; z3 := F32_half |} "grey3") ;;
  white1 <- create (CreateSolidTexture1 F32_one "white1") ;;
  defaultMaterial <- create (CreateMaterial
              {| normal := upNormal; emissive := black3; color := grey3;
                 metalness := black1; roughness := white1; ior := F32_one_and_half |}) ;;
  ret {| _black3 := black3; _black1 := black1; _upNormal := upNormal;
         _grey3 := grey3; _white1 := white1; _defaultMaterial := defaultMaterial |}.
End RenderParam.

(** ** The host scene graph, as one mesh sync call sees it *)

(** material.hpp: the state of a material entity. *)
Record HdMoonshineMaterial : Type := { _handle : MaterialHandle }.

Section Scene.
Context {HT : HostTypes}.

(** The answers of the scene delegate, the render index and the mesh
    utilities for the entity being synced. *)
Record HdSceneDelegate : Type := {
  (* [HdMeshUtil::ComputeTriangleIndices] on the entity's topology *)
  ComputeTriangleIndices : list GfVec3i;
  (* the names of the computed primvars of an interpolation *)
  GetExtComputationPrimvarDescriptors : HdInterpolation -> list TfToken;
  (* [valueStore.find(name)] in the computed values of an interpolation *)
  GetComputedPrimvarValues : HdInterpolation -> TfToken -> option VtValue;
  (* [sceneDelegate->Get(id, name)] *)
  Get : TfToken -> VtValue;
  (* the names of the authored primvars of an interpolation *)
  GetPrimvarDescriptors : HdInterpolation -> list TfToken;
  (* the result of [HdMeshUtil::ComputeTriangulatedFaceVaryingPrimvar] *)
  ComputeTriangulatedFaceVaryingPrimvar : TfToken -> VtValue;
  GetVisible : bool;
  (* the empty path when the entity has no material binding *)
  GetMaterialId : SdfPath;
  (* [renderIndex.GetSprim(HdPrimTypeTokens->material, path)], null as [None] *)
  GetSprim : SdfPath -> option HdMoonshineMaterial;
  GetTransform : GfMatrix4d;
  (* [GetInstancerId()] of the entity, the empty path without instancer *)
  GetInstancerId : SdfPath;
  (* [renderIndex.GetInstancer(path)] and its [ComputeInstanceTransforms(id)] *)
  GetInstancer : SdfPath -> option (list GfMatrix4d)
}.
End Scene.

(** ** mesh.cpp *)

Module Mesh.
Local Open Scope string_scope.
Definition tokens_st : TfToken := "st".
Definition tokens_st0 : TfToken := "st0".
Definition tokens_normals : TfToken := "normals".
Definition HdTokens_points : TfToken := "points".
Local Close Scope string_scope.

Section Mesh.
Context {HT : HostTypes}.
Variable B : DirtyBitValues.
Local Open Scope m_scope.

(** mesh.hpp: the members of the entity, with the visibility flag of its
    [HdRprim] base. *)
Record HdMoonshineMesh : Type := {
  _mesh : MeshHandle;
  _material : MaterialHandle;
  _transform : GfMatrix4f;
  _instancesTransforms : list GfMatrix4f;
  _instances : list InstanceHandle;
  _visible : bool
}.

(** The constructor sets [_material] only; [_mesh] and [_transform] start
    with indeterminate values, the two lists empty, the entity visible. *)
Definition new_HdMoonshineMesh (renderParam : HdMoonshineRenderParam)
    (indeterminate_mesh : MeshHandle) (indeterminate_transform : GfMatrix4f)
    : HdMoonshineMesh :=
  {| _mesh := indeterminate_mesh;
     _material := _defaultMaterial renderParam;
     _transform := indeterminate_transform;
     _instancesTransforms := [];
     _instances := [];
     _visible := true |}.

Definition GetInitialDirtyBitsMask : HdDirtyBits :=
  Z.lor (Z.lor (Z.lor (Z.lor (DirtyPoints B) (DirtyTransform B)) (DirtyInstancer B))
               (DirtyVisibility B)) (DirtyMaterialId B).

Definition _PropagateDirtyBits (bits : HdDirtyBits) : HdDirtyBits := bits.

Definition IsVisible (self : HdMoonshineMesh) : bool := _visible self.

Definition FindPrimvarInterpolation (sceneDelegate : HdSceneDelegate) (name : TfToken)
    : option HdInterpolation :=
  find (fun interpolation =>
          existsb (fun primvar => token_eqb primvar name)
                  (GetPrimvarDescriptors sceneDelegate interpolation))
       all_interpolations.

(** [a[i]] on a [VtArray] or a [std::vector], undefined out of range. *)
Definition array_at {T : Type} (a : list T) (i : Z) : option T :=
  if 0 <=? i then nth_error a (Z.to_nat i) else None.

(** The loop that pushes the three corners of every triangle. *)
Fixpoint unindex {T : Type} (indexed : list T) (indices : list GfVec3i) : option (list T) :=
  match indices with
  | [] => Some []
  | (i0, i1, i2) :: indices' =>
      match array_at indexed i0, array_at indexed i1, array_at indexed i2 with
      | Some a, Some b, Some c =>
          match unindex indexed indices' with
          | Some rest => Some (a :: b :: c :: rest)
          | None => None
          end
      | _, _, _ => None
      end
  end.

(** [ComputePrimvar<T>]; [holds] is [IsHolding<VtArray<T>>]. *)
Definition ComputePrimvar {T : Type} (holds : VtValue -> option (list T))
    (sceneDelegate : HdSceneDelegate) (indices : list GfVec3i) (primvarName : TfToken)
    : M (list T) :=
  let boxedPrimvar := Get sceneDelegate primvarName in
  match holds boxedPrimvar with
  | Some indexedPrimvar =>
      match FindPrimvarInterpolation sceneDelegate primvarName with
      | None => ret []
      | Some HdInterpolationFaceVarying =>
          ret (Get_array holds
                 (ComputeTriangulatedFaceVaryingPrimvar sceneDelegate primvarName))
      | Some HdInterpolationVertex => lift (unindex indexedPrimvar indices)
      | Some interpolation =>
          TF_CODING_ERROR (UnknownPrimvarInterpolation primvarName interpolation) ;;;
          ret []
      end
  | None => ret []
  end.

(** Lines 122-132: the computed ("fancy") points; the last computed
    primvar named [points] wins. *)
Definition computedPoints_of (sceneDelegate : HdSceneDelegate) (interp : HdInterpolation)
    (indexedPoints : option (list GfVec3f)) : option (list GfVec3f) :=
  fold_left
    (fun acc pv =>
       match acc with
       | None => None
       | Some found =>
           if token_eqb pv HdTokens_points then
             match GetComputedPrimvarValues sceneDelegate interp pv with
             | Some value => Some (Get_array holds_Vec3fArray value)
             | None => None
             end
           else Some found
       end)
    (GetExtComputationPrimvarDescriptors sceneDelegate interp) indexedPoints.

Definition computedPoints (sceneDelegate : HdSceneDelegate) : option (list GfVec3f) :=
  fold_left (fun acc interp => computedPoints_of sceneDelegate interp acc)
            all_interpolations (Some []).

(** Lines 119-137: computed points, else the authored ones. *)
Definition findIndexedPoints (sceneDelegate : HdSceneDelegate) : option (list GfVec3f) :=
  match computedPoints sceneDelegate with
  | Some [] => Some (Get_array holds_Vec3fArray (Get sceneDelegate HdTokens_points))
  | found => found
  end.

(** Lines 155-167: the first candidate name that has an interpolation. *)
Definition texcoordName (sceneDelegate : HdSceneDelegate) : TfToken :=
  match find (fun name =>
                match FindPrimvarInterpolation sceneDelegate name with
                | Some _ => true
                | None => false
                end) [tokens_st; tokens_st0] with
  | Some name => name
  | None => EmptyString
  end.

Definition set_mesh (self : HdMoonshineMesh) (mesh : MeshHandle) : HdMoonshineMesh :=
  {| _mesh := mesh; _material := _material self; _transform := _transform self;
     _instancesTransforms := _instancesTransforms self; _instances := _instances self;
     _visible := _visible self |}.
Definition set_material (self : HdMoonshineMesh) (material : MaterialHandle)
    : HdMoonshineMesh :=
  {| _mesh := _mesh self; _material := material; _transform := _transform self;
     _instancesTransforms := _instancesTransforms self; _instances := _instances self;
     _visible := _visible self |}.
Definition set_transform (self : HdMoonshineMesh) (transform : GfMatrix4f)
    : HdMoonshineMesh :=
  {| _mesh := _mesh self; _material := _material self; _transform := transform;
     _instancesTransforms := _instancesTransforms self; _instances := _instances self;
     _visible := _visible self |}.
Definition set_instancesTransforms (self : HdMoonshineMesh) (l : list GfMatrix4f)
    : HdMoonshineMesh :=
  {| _mesh := _mesh self; _material := _material self; _transform := _transform self;
     _instancesTransforms := l; _instances := _instances self;
     _visible := _visible self |}.
Definition set_instances (self : HdMoonshineMesh) (l : list InstanceHandle)
    : HdMoonshineMesh :=
  {| _mesh := _mesh self; _material := _material self; _transform := _transform self;
     _instancesTransforms := _instancesTransforms self; _instances := l;
     _visible := _visible self |}.
Definition set_visible (self : HdMoonshineMesh) (visible : bool) : HdMoonshineMesh :=
  {| _mesh := _mesh self; _material := _material self; _transform := _transform self;
     _instancesTransforms := _instancesTransforms self; _instances := _instances self;
     _visible := visible |}.

(** [HdRprim::_UpdateVisibility] of the host: it reads the visibility when
    the visibility bit is set and leaves the bits alone. *)
Definition _UpdateVisibility (sceneDelegate : HdSceneDelegate) (self : HdMoonshineMesh)
    (dirtyBits : HdDirtyBits) : HdMoonshineMesh :=
  if HdChangeTracker.IsVisibilityDirty B dirtyBits
  then set_visible self (GetVisible sceneDelegate)
  else self.

(** Lines 245-249 and 256-260: the transposed upper three rows. *)
Definition to_Mat3x4 (instanceTransform : GfMatrix4f) : Mat3x4 :=
  let m := GfMatrix4f_at instanceTransform in
  {| row_x := {| x4 := m 0 0; y4 := m 1 0; z4 := m 2 0; w4 := m 3 0 |};
     row_y := {| x4 := m 0 1; y4 := m 1 1; z4 := m 2 1; w4 := m 3 1 |};
     row_z := {| x4 := m 0 2; y4 := m 1 2; z4 := m 2 2; w4 := m 3 2 |} |}%nat.

(** Lines 112-180, entered when the points are dirty.  The result [None]
    is the [return] of line 141. *)
Definition syncPoints (sceneDelegate : HdSceneDelegate) (self : HdMoonshineMesh)
    (dirtyBits : HdDirtyBits) : M (option (HdMoonshineMesh * HdDirtyBits)) :=
  let indices := ComputeTriangleIndices sceneDelegate in
  indexedPoints <- lift (findIndexedPoints sceneDelegate) ;;
  if Z.of_nat (length indexedPoints) =? 0 then
    TF_CODING_ERROR EmptyMesh ;;; ret None
  else
    points <- lift (unindex indexedPoints indices) ;;
    texcoords <- (let name := texcoordName sceneDelegate in
                  if negb (IsEmpty name)
                  then ComputePrimvar holds_Vec2fArray sceneDelegate indices name
                  else ret []) ;;
    normals <- ComputePrimvar holds_Vec3fArray sceneDelegate indices tokens_normals ;;
    mesh <- create (CreateMesh points normals texcoords (Z.of_nat (length points))) ;;
    ret (Some (set_mesh self mesh, bits_and dirtyBits (bits_not (DirtyPoints B)))).

(** Lines 183-186. *)
Definition syncVisibility (sceneDelegate : HdSceneDelegate) (self : HdMoonshineMesh)
    (dirtyBits : HdDirtyBits) : HdMoonshineMesh * HdDirtyBits :=
  if HdChangeTracker.IsVisibilityDirty B dirtyBits then
    (_UpdateVisibility sceneDelegate self dirtyBits,
     bits_and dirtyBits (bits_not (DirtyVisibility B)))
  else (self, dirtyBits).

(** Lines 191-203. *)
Definition syncMaterialId (sceneDelegate : HdSceneDelegate)
    (renderParam : HdMoonshineRenderParam) (self : HdMoonshineMesh)
    (dirtyBits : HdDirtyBits) : HdMoonshineMesh * HdDirtyBits :=
  if bits_test dirtyBits (DirtyMaterialId B) then
    let materialId := GetMaterialId sceneDelegate in
    let self :=
      if IsEmpty materialId then set_material self (_defaultMaterial renderParam)
      else match GetSprim sceneDelegate materialId with
           | Some material => set_material self (_handle material)
           | None => self
           end in
    (self, bits_and dirtyBits (bits_not (DirtyMaterialId B)))
  else (self, dirtyBits).

(** Lines 207-210. *)
Definition syncTransform (sceneDelegate : HdSceneDelegate) (self : HdMoonshineMesh)
    (dirtyBits : HdDirtyBits) : HdMoonshineMesh * HdDirtyBits :=
  if HdChangeTracker.IsTransformDirty B dirtyBits then
    (set_transform self (GfMatrix4f_narrow (GetTransform sceneDelegate)),
     bits_and dirtyBits (bits_not (DirtyTransform B)))
  else (self, dirtyBits).

(** Lines 218-233.  [instancerId] was read at line 212.  The variable
    [instancer_count_changed] assigned here is the one declared at line
    231, local to this block; the caller keeps its own. *)
Definition syncInstancer (sceneDelegate : HdSceneDelegate) (instancerId : SdfPath)
    (self : HdMoonshineMesh) (dirtyBits : HdDirtyBits)
    : M (HdMoonshineMesh * HdDirtyBits) :=
  if HdChangeTracker.IsInstancerDirty B dirtyBits then
    let old_len := length (_instancesTransforms self) in
    let self := set_instancesTransforms self [] in
    transforms <-
      (if IsEmpty instancerId then
         ret (_instancesTransforms self ++ [GfMatrix4f_identity])
       else
         instanceTransforms <- lift (GetInstancer sceneDelegate instancerId) ;;
         ret (_instancesTransforms self ++ map GfMatrix4f_narrow instanceTransforms)) ;;
    let self := set_instancesTransforms self transforms in
    let new_len := length (_instancesTransforms self) in
    let instancer_count_changed := negb (Nat.eqb old_len new_len) in
    ret (self, bits_and dirtyBits (bits_not (DirtyInstancer B)))
  else ret (self, dirtyBits).

(** Lines 238-251: destroy every instance, create one per transform. *)
Definition recreateInstances (self : HdMoonshineMesh) (new_visibility : bool)
    : M HdMoonshineMesh :=
  forM (fun instance => call (DestroyInstance instance)) (_instances self) ;;;
  let self := set_instances self [] in
  created <- mapM (fun instancesTransform =>
                     let instanceTransform :=
                       GfMatrix4f_mul (_transform self) instancesTransform in
                     create (CreateInstance (to_Mat3x4 instanceTransform)
                               (_mesh self) (_material self) new_visibility))
                  (_instancesTransforms self) ;;
  ret (set_instances self (_instances self ++ created)).

(** Lines 254-262, from index [i] on: [_instances[i]] gets the transform
    of [_instancesTransforms[i]]. *)
Fixpoint updateTransforms (self : HdMoonshineMesh) (i : nat)
    (instancesTransforms : list GfMatrix4f) : M unit :=
  match instancesTransforms with
  | [] => ret tt
  | instancesTransform :: rest =>
      let instanceTransform := GfMatrix4f_mul (_transform self) instancesTransform in
      instance <- lift (nth_error (_instances self) i) ;;
      call (SetInstanceTransform instance (to_Mat3x4 instanceTransform)) ;;;
      updateTransforms self (S i) rest
  end.

(** Lines 253-269. *)
Definition updateInstances (self : HdMoonshineMesh)
    (transform_changed old_visibility new_visibility : bool) : M unit :=
  (if transform_changed
   then updateTransforms self 0 (_instancesTransforms self)
   else ret tt) ;;;
  if negb (Bool.eqb old_visibility new_visibility) then
    forM (fun instance => call (SetInstanceVisibility instance new_visibility))
         (_instances self)
  else ret tt.

(** Lines 182-274: everything after the geometry.  Lines 213 and 214 call
    into the host ([_UpdateInstancer], [_SyncInstancerAndParents]); they
    touch neither the members of the entity nor the dirty bits, and
    [instancerId] was read before them, at line 212. *)
Definition syncAfterPoints (sceneDelegate : HdSceneDelegate)
    (renderParam : HdMoonshineRenderParam) (mesh_changed : bool)
    (self : HdMoonshineMesh) (dirtyBits : HdDirtyBits)
    : M (HdMoonshineMesh * HdDirtyBits) :=
  let old_visibility := IsVisible self in
  let '(self, dirtyBits) := syncVisibility sceneDelegate self dirtyBits in
  let new_visibility := IsVisible self in
  let material_changed := bits_test dirtyBits (DirtyMaterialId B) in
  let '(self, dirtyBits) := syncMaterialId sceneDelegate renderParam self dirtyBits in
  let transform_changed :=
    HdChangeTracker.IsTransformDirty B dirtyBits
    || HdChangeTracker.IsInstancerDirty B dirtyBits in
  let '(self, dirtyBits) := syncTransform sceneDelegate self dirtyBits in
  let instancerId := GetInstancerId sceneDelegate in
  let instancer_count_changed := false in
  '(self, dirtyBits) <- syncInstancer sceneDelegate instancerId self dirtyBits ;;
  let need_to_recreate := mesh_changed || instancer_count_changed || material_changed in
  self <- (if need_to_recreate
           then recreateInstances self new_visibility
           else updateInstances self transform_changed old_visibility new_visibility ;;;
                ret self) ;;
  (if negb (HdChangeTracker.IsClean B dirtyBits)
   then TF_CODING_ERROR (MeshDirtyBitsIgnored dirtyBits)
   else ret tt) ;;;
  ret (self, dirtyBits).

(** [HdMoonshineMesh::Sync]: the entity and the dirty bits after the call. *)
Definition Sync (sceneDelegate : HdSceneDelegate) (renderParam : HdMoonshineRenderParam)
    (self : HdMoonshineMesh) (dirtyBits : HdDirtyBits)
    : M (HdMoonshineMesh * HdDirtyBits) :=
  let mesh_changed := HdChangeTracker.IsPrimvarDirty_points B dirtyBits in
  geometry <- (if HdChangeTracker.IsPrimvarDirty_points B dirtyBits
               then syncPoints sceneDelegate self dirtyBits
               else ret (Some (self, dirtyBits))) ;;
  match geometry with
  | None => ret (self, dirtyBits)
  | Some (self, dirtyBits) =>
      syncAfterPoints sceneDelegate renderParam mesh_changed self dirtyBits
  end.

Definition Finalize (self : HdMoonshineMesh) : M unit :=
  forM (fun instance => call (DestroyInstance instance)) (_instances self).
End Mesh.
End Mesh.

(** ** The image library of the host *)

(** [HioFormat] and [HioType] are enumerations of the host.  The formats
    material.cpp names and the functions it calls on formats are taken as
    given. *)
Definition HioFormat : Type := Z.
Definition HioType : Type := Z.

Record HioApi : Type := {
  HioFormatFloat16Vec3 : HioFormat;
  HioFormatUNorm8 : HioFormat;
  HioFormatUNorm8Vec2 : HioFormat;
  HioFormatUNorm8Vec3 : HioFormat;
  HioFormatUNorm8Vec4 : HioFormat;
  HioFormatUNorm8Vec3srgb : HioFormat;
  HioFormatUNorm8Vec4srgb : HioFormat;
  HioGetDataSizeOfType : HioFormat -> Z;
  HioGetDataSizeOfFormat : HioFormat -> Z;
  HioGetComponentCount : HioFormat -> Z;
  HioGetHioType : HioFormat -> HioType;
  HioGetFormat : Z -> HioType -> bool -> HioFormat
}.

(** An opened image: its header and the bytes [Read] stores. *)
Record HioImage : Type := {
  GetFormat : HioFormat;
  GetWidth : Z;
  GetHeight : Z;
  GetBytesPerPixel : Z;
  pixels : list uint8_t
}.

(** [image->Read(spec)] stores the decoded bytes at the start of [spec.data]. *)
Definition Read (image : HioImage) (data : list uint8_t) : option (list uint8_t) :=
  if (length (pixels image) <=? length data)%nat
  then Some (pixels image ++ skipn (length (pixels image)) data)
  else None.

(** [for (size_t i = from; ...; i++)] with [n] iterations left. *)
Fixpoint for_range (n : nat) (i : Z) (body : Z -> list uint8_t -> option (list uint8_t))
    (data : list uint8_t) : option (list uint8_t) :=
  match n with
  | O => Some data
  | S n' =>
      match body i data with
      | Some data' => for_range n' (i + 1) body data'
      | None => None
      end
  end.

(** ** The shading network of the host, as one material sync call sees it *)

Record HdMaterialConnection2 : Type := {
  upstreamNode : SdfPath;
  upstreamOutputName : TfToken
}.

Section Network.
Context {HT : HostTypes}.

(** The two [std::map]s of a node are read with [find] only. *)
Record HdMaterialNode2 : Type := {
  nodeTypeId : TfToken;
  parameters : TfToken -> option VtValue;
  inputConnections : TfToken -> option (list HdMaterialConnection2)
}.

Record HdMaterialNetwork2 : Type := {
  nodes : SdfPath -> option HdMaterialNode2;
  terminals : TfToken -> option HdMaterialConnection2
}.

(** [GetMaterialResource(id)]: a network map, already converted by
    [HdConvertToHdMaterialNetwork2], or a value of another type. *)
Inductive MaterialResource : Type :=
| ResourceNetworkMap (network : HdMaterialNetwork2)
| ResourceOther.

(** A node of the shader registry. *)
Record SdrShaderNode : Type := {
  GetInputNames : list TfToken;
  (* [GetShaderInput(name)->GetDefaultValue()] *)
  GetShaderInput : TfToken -> option VtValue;
  GetRole : string;
  (* [GetShaderOutput(name)->GetImplementationName()] *)
  GetShaderOutput : TfToken -> option string;
  GetAssetIdentifierInputNames : list TfToken
}.

Record MaterialScene : Type := {
  GetId : SdfPath;
  GetMaterialResource : MaterialResource;
  GetShaderNodeByIdentifier : TfToken -> option SdrShaderNode;
  (* [HioImage::OpenForReading(path)], null as [None] *)
  OpenForReading : string -> option HioImage
}.
End Network.

(** ** material.cpp *)

Module Material.
Local Open Scope string_scope.
Definition tokens_UsdPreviewSurface : TfToken := "UsdPreviewSurface".
Definition tokens_diffuseColor : TfToken := "diffuseColor".
Definition tokens_emissiveColor : TfToken := "emissiveColor".
Definition tokens_normal : TfToken := "normal".
Definition tokens_roughness : TfToken := "roughness".
Definition tokens_metallic : TfToken := "metallic".
Definition tokens_ior : TfToken := "ior".
Definition tokens_useSpecularWorkflow : TfToken := "useSpecularWorkflow".
Definition tokens_sourceColorSpace : TfToken := "sourceColorSpace".
Definition tokens_raw : TfToken := "raw".
Definition tokens_sRGB : TfToken := "sRGB".
Definition HdMaterialTerminalTokens_surface : TfToken := "surface".
Definition SdrNodeRole_Texture : TfToken := "texture".
Local Close Scope string_scope.

Section Material.
Context {HT : HostTypes}.
Variable B : DirtyBitValues.
Variable hio : HioApi.
Local Open Scope m_scope.

(** The constructor creates the handle the entity keeps for its lifetime. *)
Definition new_HdMoonshineMaterial (renderParam : HdMoonshineRenderParam)
    : M HdMoonshineMaterial :=
  handle <- create (CreateMaterial
              {| normal := _upNormal renderParam; emissive := _black3 renderParam;
                 color := _grey3 renderParam; metalness := _black1 renderParam;
                 roughness := _white1 renderParam; ior := F32_one_and_half |}) ;;
  ret {| _handle := handle |}.

Definition GetInitialDirtyBitsMask : HdDirtyBits := DirtyParams B.

Definition usdFormatToMsneFormat (format : HioFormat) : option TextureFormat :=
  if format =? HioFormatFloat16Vec3 hio then Some f16x4
  else if format =? HioFormatUNorm8 hio then Some u8x1
  else if format =? HioFormatUNorm8Vec2 hio then Some u8x2
  else if format =? HioFormatUNorm8Vec4 hio then Some u8x4
  else if format =? HioFormatUNorm8Vec3 hio then Some u8x4
  else if format =? HioFormatUNorm8Vec4srgb hio then Some u8x4_srgb
  else if format =? HioFormatUNorm8Vec3srgb hio then Some u8x4_srgb
  else None.

(** Lines 96-104: keep one channel of every pixel. *)
Definition extractChannel (data : list uint8_t) (swizzle : string)
    (pixel_count : Z) (image : HioImage) (format : HioFormat)
    : option (list uint8_t * HioFormat) :=
  let src_start :=
    to_size_t ((if String.eqb swizzle "r"%string then 0
                else if String.eqb swizzle "g"%string then 1 else 2)
               * HioGetDataSizeOfType hio format) in
  let src_end := to_size_t (src_start + HioGetDataSizeOfType hio format) in
  match
    for_range (Z.to_nat (to_size_t pixel_count)) 0
      (fun i =>
         for_range (Z.to_nat (src_end - src_start)) src_start
           (fun j data =>
              buf_copy_byte data
                (to_size_t (i * HioGetDataSizeOfType hio format + j - src_start))
                (to_size_t (i * GetBytesPerPixel image + j))))
      data
  with
  | Some data => Some (data, HioGetFormat hio 1 (HioGetHioType hio format) false)
  | None => None
  end.

(** Lines 107-113: keep the first two components of every pixel. *)
Definition toTwoComponentNormal (data : list uint8_t) (pixel_count : Z)
    (image : HioImage) (format : HioFormat) : option (list uint8_t * HioFormat) :=
  match
    for_range (Z.to_nat (to_size_t pixel_count)) 0
      (fun i =>
         for_range (Z.to_nat (to_size_t (HioGetDataSizeOfFormat hio format / 3 * 2))) 0
           (fun j data =>
              buf_copy_byte data
                (to_size_t (i * HioGetDataSizeOfType hio format * 2 + j))
                (to_size_t (i * GetBytesPerPixel image + j))))
      data
  with
  | Some data => Some (data, HioGetFormat hio 2 (HioGetHioType hio format) false)
  | None => None
  end.

(** Lines 96-118. *)
Definition normalizeComponents (data : list uint8_t) (swizzle : string) (dst : TfToken)
    (pixel_count : Z) (image : HioImage) (format : HioFormat)
    : option (list uint8_t * HioFormat) :=
  if String.eqb swizzle "r"%string || String.eqb swizzle "g"%string || String.eqb swizzle "b"%string then
    extractChannel data swizzle pixel_count image format
  else if HioGetComponentCount hio format =? 3 then
    if token_eqb dst tokens_normal then
      toTwoComponentNormal data pixel_count image format
    else
      match rgbToRgba data (to_size_t pixel_count)
              (to_size_t (GetBytesPerPixel image))
              (to_size_t (Z.quot (GetBytesPerPixel image) 3 * 4)) with
      | Some data => Some (data, format)
      | None => None
      end
  else Some (data, format).

(** Lines 86-91: the number of bytes allocated for an image. *)
Definition allocatedSize (byte_count : Z) : Z :=
  let imageSize := to_size_t byte_count in
  if imageSize mod 3 =? 0 then to_size_t (imageSize / 3 * 4) else imageSize.

(** Lines 77-130: a texture read from a file. *)
Definition makeTexture_asset (scene : MaterialScene) (resolvedPath : string)
    (swizzle : string) (colorSpace dst : TfToken) (debug_name : string)
    : M (option ImageHandle) :=
  image <- lift (OpenForReading scene resolvedPath) ;;
  let format := GetFormat image in
  pixel_count <- lift (int_mul (GetWidth image) (GetHeight image)) ;;
  byte_count <- lift (int_mul pixel_count (GetBytesPerPixel image)) ;;
  let data := repeat Byte.x00 (Z.to_nat (allocatedSize byte_count)) in
  data <- lift (Read image data) ;;
  '(data, format) <- lift (normalizeComponents data swizzle dst pixel_count image format) ;;
  let format := HioGetFormat hio (HioGetComponentCount hio format)
                  (HioGetHioType hio format) (token_eqb colorSpace tokens_sRGB) in
  match usdFormatToMsneFormat format with
  | None => TF_CODING_ERROR UnknownFormat ;;; ret None
  | Some msne_format =>
      let extent := {| width := GetWidth image mod 2 ^ 32;
                       height := GetHeight image mod 2 ^ 32 |} in
      texture <- create (CreateRawTexture data extent msne_format
                           (debug_name ++ " texture")%string) ;;
      ret (Some texture)
  end.

Definition makeTexture (scene : MaterialScene) (value : VtValue) (swizzle : string)
    (colorSpace dst : TfToken) (debug_name : string) : M (option ImageHandle) :=
  match value with
  | VtAssetPath resolvedPath =>
      makeTexture_asset scene resolvedPath swizzle colorSpace dst debug_name
  | VtVec3f (v0, v1, v2) =>
      if token_eqb dst tokens_normal then
        texture <- create (CreateSolidTexture2
                             {| x2 := F32_remap v0; y2 := F32_remap v1 |}
                             (debug_name ++ " f32x2")%string) ;;
        ret (Some texture)
      else
        texture <- create (CreateSolidTexture3 {| x3 := v0; y3 := v1; z3 := v2 |}
                             (debug_name ++ " f32x3")%string) ;;
        ret (Some texture)
  | VtFloat val =>
      texture <- create (CreateSolidTexture1 val (debug_name ++ " float")%string) ;;
      ret (Some texture)
  | _ => TF_CODING_ERROR (UnknownValueType value) ;;; ret None
  end.

Definition SetTextureBasedOnValueAndName (scene : MaterialScene)
    (handle : MaterialHandle) (name : TfToken) (value : VtValue) (swizzle : string)
    (colorSpace : TfToken) (debug_name : string) : M bool :=
  if token_eqb name tokens_ior then
    call (SetMaterialIOR handle (Get_float value)) ;;; ret true
  else if token_eqb name tokens_useSpecularWorkflow then ret true
  else
    maybe_texture <- makeTexture scene value swizzle colorSpace name
                       (debug_name ++ " " ++ name)%string ;;
    match maybe_texture with
    | None =>
        TF_CODING_ERROR (CouldNotParseTexture (debug_name ++ " " ++ name)%string) ;;;
        ret false
    | Some texture =>
        (if token_eqb name tokens_diffuseColor then
           call (SetMaterialColor handle texture)
         else if token_eqb name tokens_emissiveColor then
           call (SetMaterialEmissive handle texture)
         else if token_eqb name tokens_normal then
           call (SetMaterialNormal handle texture)
         else if token_eqb name tokens_roughness then
           call (SetMaterialRoughness handle texture)
         else if token_eqb name tokens_metallic then
           call (SetMaterialMetalness handle texture)
         else ret tt) ;;;
        ret true
    end.

(** Lines 220-246, the body of the loop over the declared inputs of the
    terminal node.  The result is what [SetTextureBasedOnValueAndName]
    returned, or [false] when the connection was not understood; the
    source drops it. *)
Definition syncInput (scene : MaterialScene) (self : HdMoonshineMaterial)
    (network : HdMaterialNetwork2) (node : HdMaterialNode2) (sdrNode : SdrShaderNode)
    (inputName : TfToken) : M bool :=
  match inputConnections node inputName with
  | Some connections =>
      con <- lift (hd_error connections) ;;
      upstream <- lift (nodes network (upstreamNode con)) ;;
      upstreamSdr <- lift (GetShaderNodeByIdentifier scene (nodeTypeId upstream)) ;;
      let sdrRole : TfToken := GetRole upstreamSdr in
      if token_eqb sdrRole SdrNodeRole_Texture then
        swizzle <- lift (GetShaderOutput upstreamSdr (upstreamOutputName con)) ;;
        colorSpaceValue <- lift (parameters upstream tokens_sourceColorSpace) ;;
        let colorSpace := Get_token colorSpaceValue in
        fileProperty <- lift (hd_error (GetAssetIdentifierInputNames upstreamSdr)) ;;
        value <- lift (parameters upstream fileProperty) ;;
        SetTextureBasedOnValueAndName scene (_handle self) inputName value swizzle
          colorSpace (GetId scene)
      else
        TF_CODING_ERROR (UnknownConnection inputName (GetRole upstreamSdr)) ;;;
        ret false
  | None =>
      match parameters node inputName with
      | Some value =>
          SetTextureBasedOnValueAndName scene (_handle self) inputName value EmptyString
            tokens_raw (GetId scene ++ " parameter")%string
      | None =>
          value <- lift (GetShaderInput sdrNode inputName) ;;
          SetTextureBasedOnValueAndName scene (_handle self) inputName value EmptyString
            tokens_raw (GetId scene ++ " default")%string
      end
  end.

(** Lines 219-247: the loop, with the results of its iterations. *)
Definition syncInputs (scene : MaterialScene) (self : HdMoonshineMaterial)
    (network : HdMaterialNetwork2) (node : HdMaterialNode2) (sdrNode : SdrShaderNode)
    : M (list bool) :=
  mapM (syncInput scene self network node sdrNode) (GetInputNames sdrNode).

(** Lines 252-254. *)
Definition reportIgnored (dirtyBits : HdDirtyBits) : M unit :=
  if negb (HdChangeTracker.IsClean B dirtyBits)
  then TF_CODING_ERROR (MaterialDirtyBitsIgnored dirtyBits)
  else ret tt.

(** [HdMoonshineMaterial::Sync]: the dirty bits after the call. *)
Definition Sync (scene : MaterialScene) (renderParam : HdMoonshineRenderParam)
    (self : HdMoonshineMaterial) (dirtyBits : HdDirtyBits) : M HdDirtyBits :=
  if bits_test dirtyBits (DirtyParams B) then
    match GetMaterialResource scene with
    | ResourceOther => TF_CODING_ERROR UnknownResourceType ;;; ret dirtyBits
    | ResourceNetworkMap network =>
        match terminals network HdMaterialTerminalTokens_surface with
        | None => TF_CODING_ERROR NoSurfaceConnection ;;; ret dirtyBits
        | Some connection =>
            node <- lift (nodes network (upstreamNode connection)) ;;
            if negb (token_eqb (nodeTypeId node) tokens_UsdPreviewSurface) then
              TF_CODING_ERROR (UnknownNode (nodeTypeId node)) ;;; ret dirtyBits
            else
              sdrNode <- lift (GetShaderNodeByIdentifier scene (nodeTypeId node)) ;;
              syncInputs scene self network node sdrNode ;;;
              let dirtyBits := bits_and dirtyBits (bits_not (DirtyParams B)) in
              reportIgnored dirtyBits ;;; ret dirtyBits
        end
    end
  else reportIgnored dirtyBits ;;; ret dirtyBits.
End Material.
End Material.

(** Line 97 of material.cpp: the component a swizzle of one letter names. *)
Definition channel_of (swizzle : string) : Z :=
  if String.eqb swizzle "r"%string then 0
  else if String.eqb swizzle "g"%string then 1 else 2.

(** ** What the loop over the declared inputs leaves behind *)


Section InputSteps.
Context {HT : HostTypes}.
Variable hio : HioApi.
Variable scene : MaterialScene.
Variable handle : MaterialHandle.
Variable network : HdMaterialNetwork2.
Variable node : HdMaterialNode2.
Variable sdrNode : SdrShaderNode.







End InputSteps.

(** ** A session: one mesh entity and one material entity synced by the host *)

Module Session.
Section Session.
Context {HT : HostTypes}.
Variable B : DirtyBitValues.
Variable hio : HioApi.
Local Open Scope m_scope.

(** A sync call of the host on one of the two entities. *)
Inductive SyncCall : Type :=
| SyncMesh (sceneDelegate : HdSceneDelegate) (dirtyBits : HdDirtyBits)
| SyncMaterial (scene : MaterialScene) (dirtyBits : HdDirtyBits).

Fixpoint run (renderParam : HdMoonshineRenderParam) (mesh : Mesh.HdMoonshineMesh)
    (material : HdMoonshineMaterial) (syncs : list SyncCall) : M Mesh.HdMoonshineMesh :=
  match syncs with
  | [] => ret mesh
  | SyncMesh sceneDelegate dirtyBits :: syncs' =>
      '(mesh, _) <- Mesh.Sync B sceneDelegate renderParam mesh dirtyBits ;;
      run renderParam mesh material syncs'
  | SyncMaterial scene dirtyBits :: syncs' =>
      Material.Sync B hio scene renderParam material dirtyBits ;;;
      run renderParam mesh material syncs'
  end.

(** The renderer before the delegate has called it. *)
Definition initial_world : World :=
  {| msne := {| next_handle := 0; calls := [] |}; diagnostics := [] |}.

(** The render parameter and the two entities are constructed, then the
    host issues its sync calls. *)
Definition session (indeterminate_mesh : MeshHandle)
    (indeterminate_transform : GfMatrix4f) (syncs : list SyncCall)
    : M Mesh.HdMoonshineMesh :=
  renderParam <- new_HdMoonshineRenderParam ;;
  material <- Material.new_HdMoonshineMaterial renderParam ;;
  run renderParam
      (Mesh.new_HdMoonshineMesh renderParam indeterminate_mesh indeterminate_transform)
      material syncs.

(** The same, until the host finalizes the mesh entity. *)
Definition lifetime (indeterminate_mesh : MeshHandle)
    (indeterminate_transform : GfMatrix4f) (syncs : list SyncCall) : M unit :=
  mesh <- session indeterminate_mesh indeterminate_transform syncs ;;
  Mesh.Finalize mesh.
End Session.
End Session.

(** ** Reading the call log *)

Section CallLog.
Context {HT : HostTypes}.

(** The handle a creation call returned. *)
Definition returned_handle (c : Call) : option nat :=
  match c with
  | CreateMesh _ _ _ _ h => Some h
  | CreateSolidTexture1 _ _ h => Some h
  | CreateSolidTexture2 _ _ h => Some h
  | CreateSolidTexture3 _ _ h => Some h
  | CreateRawTexture _ _ _ _ h => Some h
  | CreateMaterial _ h => Some h
  | CreateInstance _ _ _ _ h => Some h
  | _ => None
  end.

Definition creates_instance (c : Call) : bool :=
  match c with
  | CreateInstance _ _ _ _ _ => true
  | _ => false
  end.

Definition creates_mesh_or_texture (c : Call) : bool :=
  match c with
  | CreateMesh _ _ _ _ _ => true
  | CreateSolidTexture1 _ _ _ => true
  | CreateSolidTexture2 _ _ _ => true
  | CreateSolidTexture3 _ _ _ => true
  | CreateRawTexture _ _ _ _ _ => true
  | _ => false
  end.

(** The only destruction call moonshine.h is asked for. *)
Definition destroyed_handle (c : Call) : option nat :=
  match c with
  | DestroyInstance h => Some h
  | _ => None
  end.

(** The instance handles the calls of [cs] created, and the ones they
    destroyed, in the order of the calls. *)
Definition created_instances (cs : list Call) : list InstanceHandle :=
  flat_map (fun c => match c with
                     | CreateInstance _ _ _ _ h => [h]
                     | _ => []
                     end) cs.

Definition destroyed_instances (cs : list Call) : list InstanceHandle :=
  flat_map (fun c => match c with
                     | DestroyInstance h => [h]
                     | _ => []
                     end) cs.

(** The functions of moonshine.h that mesh.cpp names. *)
Definition is_mesh_call (c : Call) : bool :=
  match c with
  | CreateMesh _ _ _ _ _ => true
  | CreateInstance _ _ _ _ _ => true
  | DestroyInstance _ => true
  | SetInstanceTransform _ _ => true
  | SetInstanceVisibility _ _ => true
  | _ => false
  end.

(** The functions of moonshine.h that [HdMoonshineMaterial::Sync] reaches: a
    texture creation, or a setter applied to the material [handle]. *)
Definition is_material_call (handle : MaterialHandle) (c : Call) : bool :=
  match c with
  | CreateSolidTexture1 _ _ _ => true
  | CreateSolidTexture2 _ _ _ => true
  | CreateSolidTexture3 _ _ _ => true
  | CreateRawTexture _ _ _ _ _ => true
  | SetMaterialNormal m _ => Nat.eqb m handle
  | SetMaterialEmissive m _ => Nat.eqb m handle
  | SetMaterialColor m _ => Nat.eqb m handle
  | SetMaterialMetalness m _ => Nat.eqb m handle
  | SetMaterialRoughness m _ => Nat.eqb m handle
  | SetMaterialIOR m _ => Nat.eqb m handle
  | _ => false
  end.

(** The creation calls of [cs] returned the handles [n], [n + 1], ... and
    [n'] is the next one. *)
Fixpoint handles_from (n : nat) (cs : list Call) (n' : nat) : Prop :=
  match cs with
  | [] => n' = n
  | c :: cs' =>
      match returned_handle c with
      | Some h => h = n /\ handles_from (S n) cs' n'
      | None => handles_from n cs' n'
      end
  end.

(** Whenever the computation [m] returns, it has appended calls that all
    satisfy [P] to the log and has taken its handles from the supply. *)
Definition emits {A : Type} (P : Call -> Prop) (m : M A) : Prop :=
  forall w a w',
    m w = Some (a, w') ->
    exists cs,
      calls (msne w') = calls (msne w) ++ cs
      /\ handles_from (next_handle (msne w)) cs (next_handle (msne w'))
      /\ Forall P cs.

(** What the log says about the handles: every returned handle is below the
    next one; the instance handles an entity holds and the handles that were
    destroyed are below the next one and were returned by instance creations
    only. *)
Definition log_invariant (w : World) (instances : list InstanceHandle) : Prop :=
  (forall c h, In c (calls (msne w)) -> returned_handle c = Some h ->
               (h < next_handle (msne w))%nat)
  /\ (forall h, In h instances ->
                (h < next_handle (msne w))%nat
                /\ forall c, In c (calls (msne w)) -> returned_handle c = Some h ->
                             creates_instance c = true)
  /\ (forall h, In (DestroyInstance h) (calls (msne w)) ->
                (h < next_handle (msne w))%nat
                /\ forall c, In c (calls (msne w)) -> returned_handle c = Some h ->
                             creates_instance c = true).

(** The instance handles returned so far are the ones destroyed so far
    together with the ones held, as lists with repetitions. *)
Definition balanced (w : World) (instances : list InstanceHandle) : Prop :=
  Permutation (created_instances (calls (msne w)))
              (destroyed_instances (calls (msne w)) ++ instances).
End CallLog.

(** ** A concrete host, for running the delegate on examples *)

Module Example.
(** Exact rationals stand in for floats and 4x4 tables of them for the
    matrices; the product is the row-by-column product. *)
Definition QMatrix : Type := list (list Q).

Definition qm_at (m : QMatrix) (r c : nat) : Q := nth c (nth r m []) 0%Q.

Fixpoint qm_dot (row column : list Q) : Q :=
  match row, column with
  | x :: row', y :: column' => (x * y + qm_dot row' column')%Q
  | _, _ => 0%Q
  end.

Fixpoint qm_column (k : nat) (m : QMatrix) : list Q :=
  match m with
  | [] => []
  | row :: m' => nth k row 0%Q :: qm_column k m'
  end.

Definition qm_mul (a b : QMatrix) : QMatrix :=
  map (fun row => map (fun k => Qred (qm_dot row (qm_column k b))) [0; 1; 2; 3]%nat) a.

Definition qm_scale (s : Q) : QMatrix :=
  [ [s; 0; 0; 0]; [0; s; 0; 0]; [0; 0; s; 0]; [0; 0; 0; 1] ]%Q.

Definition qm_translate (tx ty tz : Q) : QMatrix :=
  [ [1; 0; 0; 0]; [0; 1; 0; 0]; [0; 0; 1; 0]; [tx; ty; tz; 1] ]%Q.

Definition exact_host : HostTypes :=
  {| F32 := Q;
     F32_zero := 0%Q;
     F32_half := (1 # 2)%Q;
     F32_one := 1%Q;
     F32_one_and_half := (3 # 2)%Q;
     F32_remap := fun x => Qred ((x + 1) / 2)%Q;
     GfMatrix4d := QMatrix;
     GfMatrix4f := QMatrix;
     GfMatrix4f_identity := qm_scale 1%Q;
     GfMatrix4f_narrow := fun m => m;
     GfMatrix4f_mul := qm_mul;
     GfMatrix4f_at := qm_at |}.

(** The dirty bits as the host's change tracker numbers them. *)
Definition hydra_bits : DirtyBitValues :=
  {| DirtyPoints := Z.shiftl 1 5;
     DirtyTransform := Z.shiftl 1 9;
     DirtyInstancer := Z.shiftl 1 16;
     DirtyVisibility := Z.shiftl 1 10;
     DirtyMaterialId := Z.shiftl 1 7;
     DirtyParams := Z.shiftl 1 2;
     CleanMask := Z.lxor (Z.shiftl 1 1) UINT32_MAX |}.

(** The uncompressed image formats as the host's image library numbers
    them: ten families of four formats with one to four components. *)
Definition family (format : HioFormat) : Z := format / 4.

Definition family_type (f : Z) : HioType :=
  if f =? 0 then 0        (* UNorm8: unsigned byte *)
  else if f =? 9 then 0   (* UNorm8 srgb *)
  else if f =? 1 then 2   (* SNorm8: signed byte *)
  else if f =? 2 then 7   (* Float16 *)
  else if f =? 3 then 8   (* Float32 *)
  else if f =? 4 then 9   (* Double64 *)
  else if f =? 5 then 3   (* UInt16 *)
  else if f =? 6 then 4   (* Int16 *)
  else if f =? 7 then 5   (* UInt32 *)
  else 6.                 (* Int32 *)

Definition family_size (f : Z) : Z :=
  if (f =? 0) || (f =? 1) || (f =? 9) then 1
  else if (f =? 2) || (f =? 5) || (f =? 6) then 2
  else if f =? 4 then 8
  else 4.

Definition type_family (t : HioType) (isSRGB : bool) : Z :=
  if t =? 0 then (if isSRGB then 9 else 0)
  else if t =? 2 then 1
  else if t =? 7 then 2
  else if t =? 8 then 3
  else if t =? 9 then 4
  else if t =? 3 then 5
  else if t =? 4 then 6
  else if t =? 5 then 7
  else 8.

Definition hio : HioApi :=
  {| HioFormatUNorm8 := 0;
     HioFormatUNorm8Vec2 := 1;
     HioFormatUNorm8Vec3 := 2;
     HioFormatUNorm8Vec4 := 3;
     HioFormatFloat16Vec3 := 10;
     HioFormatUNorm8Vec3srgb := 38;
     HioFormatUNorm8Vec4srgb := 39;
     HioGetDataSizeOfType := fun format => family_size (family format);
     HioGetDataSizeOfFormat := fun format => (format mod 4 + 1) * family_size (family format);
     HioGetComponentCount := fun format => format mod 4 + 1;
     HioGetHioType := fun format => family_type (family format);
     HioGetFormat := fun nchannels t isSRGB =>
       if (1 <=? nchannels) && (nchannels <=? 4)
       then 4 * type_family t isSRGB + (nchannels - 1)
       else -1 |}.

(** *** Scenes *)

#[local] Existing Instance exact_host.

Definition point (x y z : Z) : @GfVec3f exact_host := (inject_Z x, inject_Z y, inject_Z z).

Definition string_eqb_or_none {A : Type} (key : string) (a : A) (s : string) : option A :=
  if String.eqb s key then Some a else None.

(** One triangle with authored points, visible, moved by (1, 2, 3); no
    primvar besides the points, no material binding, no instancer. *)
Definition triangle : @HdSceneDelegate exact_host :=
  {| ComputeTriangleIndices := [(0, 1, 2)];
     GetExtComputationPrimvarDescriptors := fun _ => [];
     GetComputedPrimvarValues := fun _ _ => None;
     Get := fun name =>
       if token_eqb name Mesh.HdTokens_points
       then VtVec3fArray [point 0 0 0; point 1 0 0; point 0 1 0]
       else VtEmpty;
     GetPrimvarDescriptors := fun interpolation =>
       match interpolation with
       | HdInterpolationVertex => [Mesh.HdTokens_points]
       | _ => []
       end;
     ComputeTriangulatedFaceVaryingPrimvar := fun _ => VtEmpty;
     GetVisible := true;
     GetMaterialId := EmptyString;
     GetSprim := fun _ => None;
     GetTransform := qm_translate 1 2 3;
     GetInstancerId := EmptyString;
     GetInstancer := fun _ => None |}.

(** The same entity under a point instancer with the given transforms. *)
Definition instanced (ts : list QMatrix) : @HdSceneDelegate exact_host :=
  {| ComputeTriangleIndices := ComputeTriangleIndices triangle;
     GetExtComputationPrimvarDescriptors := GetExtComputationPrimvarDescriptors triangle;
     GetComputedPrimvarValues := GetComputedPrimvarValues triangle;
     Get := Get triangle;
     GetPrimvarDescriptors := GetPrimvarDescriptors triangle;
     ComputeTriangulatedFaceVaryingPrimvar := ComputeTriangulatedFaceVaryingPrimvar triangle;
     GetVisible := GetVisible triangle;
     GetMaterialId := GetMaterialId triangle;
     GetSprim := GetSprim triangle;
     GetTransform := GetTransform triangle;
     GetInstancerId := "/instancer"%string;
     GetInstancer := string_eqb_or_none "/instancer"%string ts |}.

Definition three_instances : @HdSceneDelegate exact_host :=
  instanced [qm_translate 10 0 0; qm_translate 20 0 0; qm_translate 30 0 0].

Definition four_instances : @HdSceneDelegate exact_host :=
  instanced [qm_translate 10 0 0; qm_translate 20 0 0; qm_translate 30 0 0;
             qm_translate 40 0 0].

Definition two_instances : @HdSceneDelegate exact_host :=
  instanced [qm_translate 10 0 0; qm_translate 20 0 0].

(** The same triangle bound to a material path; the render index knows the
    material entity [realized] under that path, or no entity yet. *)
Definition bound_to (materialId : SdfPath) (realized : option HdMoonshineMaterial)
    : @HdSceneDelegate exact_host :=
  {| ComputeTriangleIndices := ComputeTriangleIndices triangle;
     GetExtComputationPrimvarDescriptors := GetExtComputationPrimvarDescriptors triangle;
     GetComputedPrimvarValues := GetComputedPrimvarValues triangle;
     Get := Get triangle;
     GetPrimvarDescriptors := GetPrimvarDescriptors triangle;
     ComputeTriangulatedFaceVaryingPrimvar := ComputeTriangulatedFaceVaryingPrimvar triangle;
     GetVisible := GetVisible triangle;
     GetMaterialId := materialId;
     GetSprim := fun path => if String.eqb path materialId then realized else None;
     GetTransform := GetTransform triangle;
     GetInstancerId := GetInstancerId triangle;
     GetInstancer := GetInstancer triangle |}.

(** The same triangle without any point. *)
Definition without_points : @HdSceneDelegate exact_host :=
  {| ComputeTriangleIndices := ComputeTriangleIndices triangle;
     GetExtComputationPrimvarDescriptors := GetExtComputationPrimvarDescriptors triangle;
     GetComputedPrimvarValues := GetComputedPrimvarValues triangle;
     Get := fun _ => VtEmpty;
     GetPrimvarDescriptors := GetPrimvarDescriptors triangle;
     ComputeTriangulatedFaceVaryingPrimvar := ComputeTriangulatedFaceVaryingPrimvar triangle;
     GetVisible := GetVisible triangle;
     GetMaterialId := GetMaterialId triangle;
     GetSprim := GetSprim triangle;
     GetTransform := GetTransform triangle;
     GetInstancerId := GetInstancerId triangle;
     GetInstancer := GetInstancer triangle |}.

(** The same triangle with its points computed by the host (an animated mesh)
    and no authored value at all. *)
Definition computed_triangle : @HdSceneDelegate exact_host :=
  {| ComputeTriangleIndices := ComputeTriangleIndices triangle;
     GetExtComputationPrimvarDescriptors := fun interpolation =>
       match interpolation with
       | HdInterpolationVertex => [Mesh.HdTokens_points]
       | _ => []
       end;
     GetComputedPrimvarValues := fun interpolation name =>
       match interpolation with
       | HdInterpolationVertex =>
           if token_eqb name Mesh.HdTokens_points
           then Some (VtVec3fArray [point 0 0 2; point 1 0 2; point 0 1 2])
           else None
       | _ => None
       end;
     Get := fun _ => VtEmpty;
     GetPrimvarDescriptors := fun _ => [];
     ComputeTriangulatedFaceVaryingPrimvar := ComputeTriangulatedFaceVaryingPrimvar triangle;
     GetVisible := GetVisible triangle;
     GetMaterialId := GetMaterialId triangle;
     GetSprim := GetSprim triangle;
     GetTransform := GetTransform triangle;
     GetInstancerId := GetInstancerId triangle;
     GetInstancer := GetInstancer triangle |}.

(** The triangle with a normal and a texture coordinate per vertex. *)
Definition shaded_triangle : @HdSceneDelegate exact_host :=
  {| ComputeTriangleIndices := ComputeTriangleIndices triangle;
     GetExtComputationPrimvarDescriptors := GetExtComputationPrimvarDescriptors triangle;
     GetComputedPrimvarValues := GetComputedPrimvarValues triangle;
     Get := fun name =>
       if token_eqb name Mesh.tokens_normals
       then VtVec3fArray [point 0 0 1; point 0 0 1; point 0 0 1]
       else if token_eqb name Mesh.tokens_st
       then VtVec2fArray [(0, 0); (1, 0); (0, 1)]%Q
       else Get triangle name;
     GetPrimvarDescriptors := fun interpolation =>
       match interpolation with
       | HdInterpolationVertex =>
           [Mesh.HdTokens_points; Mesh.tokens_normals; Mesh.tokens_st]
       | _ => []
       end;
     ComputeTriangulatedFaceVaryingPrimvar := ComputeTriangulatedFaceVaryingPrimvar triangle;
     GetVisible := GetVisible triangle;
     GetMaterialId := GetMaterialId triangle;
     GetSprim := GetSprim triangle;
     GetTransform := GetTransform triangle;
     GetInstancerId := GetInstancerId triangle;
     GetInstancer := GetInstancer triangle |}.

(** The triangle with one normal for the whole face. *)
Definition flat_shaded_triangle : @HdSceneDelegate exact_host :=
  {| ComputeTriangleIndices := ComputeTriangleIndices triangle;
     GetExtComputationPrimvarDescriptors := GetExtComputationPrimvarDescriptors triangle;
     GetComputedPrimvarValues := GetComputedPrimvarValues triangle;
     Get := fun name =>
       if token_eqb name Mesh.tokens_normals
       then VtVec3fArray [point 0 0 1]
       else Get triangle name;
     GetPrimvarDescriptors := fun interpolation =>
       match interpolation with
       | HdInterpolationUniform => [Mesh.tokens_normals]
       | HdInterpolationVertex => [Mesh.HdTokens_points]
       | _ => []
       end;
     ComputeTriangulatedFaceVaryingPrimvar := ComputeTriangulatedFaceVaryingPrimvar triangle;
     GetVisible := GetVisible triangle;
     GetMaterialId := GetMaterialId triangle;
     GetSprim := GetSprim triangle;
     GetTransform := GetTransform triangle;
     GetInstancerId := GetInstancerId triangle;
     GetInstancer := GetInstancer triangle |}.

(** The entity under three instances, now invisible. *)
Definition hidden_three_instances : @HdSceneDelegate exact_host :=
  {| ComputeTriangleIndices := ComputeTriangleIndices three_instances;
     GetExtComputationPrimvarDescriptors :=
       GetExtComputationPrimvarDescriptors three_instances;
     GetComputedPrimvarValues := GetComputedPrimvarValues three_instances;
     Get := Get three_instances;
     GetPrimvarDescriptors := GetPrimvarDescriptors three_instances;
     ComputeTriangulatedFaceVaryingPrimvar :=
       ComputeTriangulatedFaceVaryingPrimvar three_instances;
     GetVisible := false;
     GetMaterialId := GetMaterialId three_instances;
     GetSprim := GetSprim three_instances;
     GetTransform := GetTransform three_instances;
     GetInstancerId := GetInstancerId three_instances;
     GetInstancer := GetInstancer three_instances |}.

(** The render parameter its constructor returns on the untouched renderer,
    and the renderer after it. *)
Definition render_param : HdMoonshineRenderParam :=
  {| _black3 := 0; _black1 := 1; _upNormal := 2; _grey3 := 3; _white1 := 4;
     _defaultMaterial := 5 |}%nat.

Definition world_after_setup : @World exact_host :=
  match @new_HdMoonshineRenderParam exact_host (@Session.initial_world exact_host) with
  | Some (_, w) => w
  | None => @Session.initial_world exact_host
  end.

(** The mesh entity as constructed. *)
Definition fresh_mesh : @Mesh.HdMoonshineMesh exact_host :=
  @Mesh.new_HdMoonshineMesh exact_host render_param 0%nat (qm_scale 1).

(** The mesh entity after its first sync under [three_instances]. *)
Definition mesh_with_three_instances : @Mesh.HdMoonshineMesh exact_host :=
  {| Mesh._mesh := 6%nat;
     Mesh._material := 5%nat;
     Mesh._transform := qm_translate 1 2 3;
     Mesh._instancesTransforms :=
       [qm_translate 10 0 0; qm_translate 20 0 0; qm_translate 30 0 0];
     Mesh._instances := [7; 8; 9]%nat;
     Mesh._visible := true |}.

(** The renderer after that first sync, which receives every initial bit. *)
Definition world_with_three_instances : @World exact_host :=
  match Mesh.Sync hydra_bits three_instances render_param fresh_mesh
          (Mesh.GetInitialDirtyBitsMask hydra_bits) world_after_setup with
  | Some (_, w) => w
  | None => world_after_setup
  end.

(** The material entity constructed after the render parameter, and the
    renderer after its construction. *)
Definition material_entity : HdMoonshineMaterial := {| _handle := 6%nat |}.

Definition world_with_material : @World exact_host :=
  match Material.new_HdMoonshineMaterial render_param world_after_setup with
  | Some (_, w) => w
  | None => world_after_setup
  end.

Definition bound_to_realized : @HdSceneDelegate exact_host :=
  bound_to "/material"%string (Some material_entity).

Definition bound_to_unrealized : @HdSceneDelegate exact_host :=
  bound_to "/other"%string None.

(** The mesh entity after its first sync under [bound_to_realized], and the
    renderer after that sync. *)
Definition mesh_bound : @Mesh.HdMoonshineMesh exact_host :=
  {| Mesh._mesh := 7%nat;
     Mesh._material := 6%nat;
     Mesh._transform := qm_translate 1 2 3;
     Mesh._instancesTransforms := [qm_scale 1];
     Mesh._instances := [8]%nat;
     Mesh._visible := true |}.

Definition world_with_bound_mesh : @World exact_host :=
  match Mesh.Sync hydra_bits bound_to_realized render_param fresh_mesh
          (Mesh.GetInitialDirtyBitsMask hydra_bits) world_with_material with
  | Some (_, w) => w
  | None => world_with_material
  end.

(** *** A shading network *)

Fixpoint assoc {A : Type} (l : list (string * A)) (key : string) : option A :=
  match l with
  | [] => None
  | (k, a) :: l' => if String.eqb key k then Some a else assoc l' key
  end.

(** Two pixels of three bytes, and one pixel of three 32-bit floats. *)
Definition rgb_image : HioImage :=
  {| GetFormat := 2; GetWidth := 2; GetHeight := 1; GetBytesPerPixel := 3;
     pixels := [Byte.x01; Byte.x02; Byte.x03; Byte.x04; Byte.x05; Byte.x06] |}.

Definition float_image : HioImage :=
  {| GetFormat := 14; GetWidth := 1; GetHeight := 1; GetBytesPerPixel := 12;
     pixels := repeat Byte.x00 12 |}.

Local Open Scope string_scope.

(** The terminal node: [diffuseColor] comes from a node that is no texture,
    [metallic] from a texture of 32-bit floats, [emissiveColor] from an 8-bit
    RGB texture; [roughness] is an inline value of a type the delegate does
    not know, [ior] an inline float. *)
Definition surface_node : @HdMaterialNode2 exact_host :=
  {| nodeTypeId := "UsdPreviewSurface";
     parameters := assoc [ ("roughness", VtOther "bool"); ("ior", VtFloat (4 # 3)%Q) ];
     inputConnections := assoc
       [ ("diffuseColor", [ {| upstreamNode := "/mat/noise"; upstreamOutputName := "out" |} ]);
         ("metallic", [ {| upstreamNode := "/mat/floats"; upstreamOutputName := "rgb" |} ]);
         ("emissiveColor",
          [ {| upstreamNode := "/mat/image"; upstreamOutputName := "rgb" |} ]) ] |}.

Definition texture_node (file : string) : @HdMaterialNode2 exact_host :=
  {| nodeTypeId := "UsdUVTexture";
     parameters := assoc [ ("sourceColorSpace", VtToken "sRGB"); ("file", VtAssetPath file) ];
     inputConnections := fun _ => None |}.

Definition noise_node : @HdMaterialNode2 exact_host :=
  {| nodeTypeId := "Noise"; parameters := fun _ => None; inputConnections := fun _ => None |}.

Definition network : @HdMaterialNetwork2 exact_host :=
  {| nodes := assoc [ ("/mat/surface", surface_node);
                      ("/mat/noise", noise_node);
                      ("/mat/floats", texture_node "floats.exr");
                      ("/mat/image", texture_node "image.png") ];
     terminals := assoc
       [ ("surface", {| upstreamNode := "/mat/surface"; upstreamOutputName := "surface" |}) ] |}.

Definition preview_surface_sdr : @SdrShaderNode exact_host :=
  {| GetInputNames := [ "diffuseColor"; "roughness"; "metallic"; "emissiveColor"; "ior" ];
     GetShaderInput := assoc
       [ ("diffuseColor", VtVec3f ((9 # 50), (9 # 50), (9 # 50))%Q);
         ("roughness", VtFloat (1 # 2)%Q); ("metallic", VtFloat 0%Q);
         ("emissiveColor", VtVec3f (0, 0, 0)%Q); ("ior", VtFloat (3 # 2)%Q) ];
     GetRole := "surface";
     GetShaderOutput := assoc [ ("surface", "surface") ];
     GetAssetIdentifierInputNames := [] |}.

Definition texture_sdr : @SdrShaderNode exact_host :=
  {| GetInputNames := [ "file"; "sourceColorSpace" ];
     GetShaderInput := fun _ => None;
     GetRole := "texture";
     GetShaderOutput := assoc [ ("rgb", "rgb"); ("r", "r"); ("g", "g"); ("b", "b") ];
     GetAssetIdentifierInputNames := [ "file" ] |}.

Definition noise_sdr : @SdrShaderNode exact_host :=
  {| GetInputNames := [];
     GetShaderInput := fun _ => None;
     GetRole := "math";
     GetShaderOutput := assoc [ ("out", "out") ];
     GetAssetIdentifierInputNames := [] |}.

Definition material_scene (resource : @MaterialResource exact_host)
    : @MaterialScene exact_host :=
  {| GetId := "/mat";
     GetMaterialResource := resource;
     GetShaderNodeByIdentifier := assoc
       [ ("UsdPreviewSurface", preview_surface_sdr); ("UsdUVTexture", texture_sdr);
         ("Noise", noise_sdr) ];
     OpenForReading := assoc [ ("image.png", rgb_image); ("floats.exr", float_image) ] |}.

(** A terminal node whose [diffuseColor] comes from a texture the image
    library cannot open, and its network. *)
Definition surface_node_of_missing_file : @HdMaterialNode2 exact_host :=
  {| nodeTypeId := "UsdPreviewSurface";
     parameters := fun _ => None;
     inputConnections := assoc
       [ ("diffuseColor",
          [ {| upstreamNode := "/mat/missing"; upstreamOutputName := "rgb" |} ]) ] |}.

Definition network_of_missing_file : @HdMaterialNetwork2 exact_host :=
  {| nodes := assoc [ ("/mat/surface", surface_node_of_missing_file);
                      ("/mat/missing", texture_node "missing.png") ];
     terminals := assoc
       [ ("surface", {| upstreamNode := "/mat/surface"; upstreamOutputName := "surface" |}) ] |}.

Local Close Scope string_scope.

(** *** A session *)

(** The material is synced, then the mesh under three instances, then under
    two with only the instancer bit set, then without instancer with the
    points and instancer bits set. *)
Definition example_syncs : list (@Session.SyncCall exact_host) :=
  [ Session.SyncMaterial (material_scene (ResourceNetworkMap network))
      (DirtyParams hydra_bits);
    Session.SyncMesh three_instances (Mesh.GetInitialDirtyBitsMask hydra_bits);
    Session.SyncMesh two_instances (DirtyInstancer hydra_bits);
    Session.SyncMesh triangle (Z.lor (DirtyPoints hydra_bits) (DirtyInstancer hydra_bits)) ].

Definition session_result : @Mesh.HdMoonshineMesh exact_host * @World exact_host :=
  match Session.session hydra_bits hio 0%nat (qm_scale 1) example_syncs
          Session.initial_world with
  | Some r => r
  | None => (fresh_mesh, Session.initial_world)
  end.

(** A session with a shrinking instancer.  The entity is first synced on its
    own, the instancer path it has cached being still empty; then under an
    instancer with three instances while its points change; then under that
    instancer answering with two instances, the instancer bit alone being
    set. *)
Definition shrinking_syncs : list (@Session.SyncCall exact_host) :=
  [ Session.SyncMesh triangle (Mesh.GetInitialDirtyBitsMask hydra_bits);
    Session.SyncMesh three_instances
      (Z.lor (DirtyPoints hydra_bits) (DirtyInstancer hydra_bits));
    Session.SyncMesh two_instances (DirtyInstancer hydra_bits) ].

Definition shrunk_session_result : @Mesh.HdMoonshineMesh exact_host * @World exact_host :=
  match Session.session hydra_bits hio 0%nat (qm_scale 1) shrinking_syncs
          Session.initial_world with
  | Some r => r
  | None => (fresh_mesh, Session.initial_world)
  end.

(** The renderer after the same session and the finalization of the mesh
    entity. *)
Definition lifetime_result : unit * @World exact_host :=
  match Session.lifetime hydra_bits hio 0%nat (qm_scale 1) example_syncs
          Session.initial_world with
  | Some r => r
  | None => (tt, Session.initial_world)
  end.

(** The result of the material sync of the example. *)
Definition material_sync_result : HdDirtyBits * @World exact_host :=
  match Material.Sync hydra_bits hio (material_scene (ResourceNetworkMap network))
          render_param material_entity (DirtyParams hydra_bits) world_with_material with
  | Some r => r
  | None => (0, world_with_material)
  end.
End Example.

Unset Implicit Arguments.

(** * Facts about dirty bits *)

Section BitFacts.

Lemma UINT32_MAX_ones : UINT32_MAX = Z.ones 32.
Proof. reflexivity. Qed.

Lemma testbit_UINT32_MAX (j : Z) : 0 <= j -> Z.testbit UINT32_MAX j = (j <? 32).
Proof.
  intros Hj. rewrite UINT32_MAX_ones.
  destruct (Z.ltb_spec j 32) as [Hlt | Hge].
  - apply Z.ones_spec_low. lia.
  - apply Z.ones_spec_high. lia.
Qed.

Lemma testbit_bits_not (a j : Z) :
  0 <= j -> Z.testbit (bits_not a) j = xorb (Z.testbit a j) (j <? 32).
Proof.
  intros Hj. unfold bits_not. now rewrite Z.lxor_spec, testbit_UINT32_MAX.
Qed.

Lemma is_mask_range (m : Z) : is_mask m = true -> 0 < m <= UINT32_MAX.
Proof. unfold is_mask. rewrite andb_true_iff, Z.ltb_lt, Z.leb_le. tauto. Qed.

Lemma mask_high_bits (m j : Z) : 0 <= m <= UINT32_MAX -> 32 <= j -> Z.testbit m j = false.
Proof.
  intros Hm Hj.
  rewrite <- (Z.mod_small m (2 ^ 32)) by (unfold UINT32_MAX in Hm; lia).
  apply Z.mod_pow2_bits_high. lia.
Qed.

Lemma land_zero_bits (a b j : Z) :
  Z.land a b = 0 -> Z.testbit a j && Z.testbit b j = false.
Proof. intros H. rewrite <- Z.land_spec, H. apply Z.bits_0. Qed.

(** Clearing one flag leaves a disjoint flag as it was. *)
Lemma clear_other (d a b : Z) :
  0 <= b <= UINT32_MAX -> Z.land a b = 0 ->
  bits_and (bits_and d (bits_not a)) b = bits_and d b.
Proof.
  intros Hb Hab. unfold bits_and. apply Z.bits_inj'. intros j Hj.
  rewrite !Z.land_spec, testbit_bits_not by assumption.
  pose proof (land_zero_bits a b j Hab) as Hd.
  destruct (Z.testbit b j) eqn:Eb; [ | now rewrite !andb_false_r ].
  destruct (Z.ltb_spec j 32) as [Hlt | Hge].
  - destruct (Z.testbit a j); [ discriminate | now rewrite !andb_true_r ].
  - rewrite (mask_high_bits b j Hb Hge) in Eb. discriminate.
Qed.

(** Clearing a flag clears it. *)
Lemma clear_same (d a : Z) :
  0 <= a <= UINT32_MAX -> bits_and (bits_and d (bits_not a)) a = 0.
Proof.
  intros Ha. unfold bits_and. apply Z.bits_inj'. intros j Hj.
  rewrite !Z.land_spec, testbit_bits_not, Z.bits_0 by assumption.
  destruct (Z.testbit a j) eqn:Ea; [ | now rewrite andb_false_r ].
  destruct (Z.ltb_spec j 32) as [Hlt | Hge].
  - now rewrite andb_false_r.
  - rewrite (mask_high_bits a j Ha Hge) in Ea. discriminate.
Qed.

(** Clearing a flag sets no other. *)
Lemma clear_keeps_zero (d a b : Z) :
  bits_and d b = 0 -> bits_and (bits_and d (bits_not a)) b = 0.
Proof.
  unfold bits_and. intros H.
  rewrite <- Z.land_assoc, (Z.land_comm (bits_not a) b), Z.land_assoc, H.
  apply Z.land_0_l.
Qed.

Lemma bits_test_clear_other (d a b : Z) :
  0 <= b <= UINT32_MAX -> Z.land a b = 0 ->
  bits_test (bits_and d (bits_not a)) b = bits_test d b.
Proof. intros Hb Hab. unfold bits_test. now rewrite clear_other. Qed.

Lemma bits_test_clear_same (d a : Z) :
  0 <= a <= UINT32_MAX -> bits_test (bits_and d (bits_not a)) a = false.
Proof. intros Ha. unfold bits_test. now rewrite clear_same. Qed.

Lemma bits_test_clear_false (d a b : Z) :
  bits_test d b = false -> bits_test (bits_and d (bits_not a)) b = false.
Proof.
  unfold bits_test. rewrite !negb_false_iff, !Z.eqb_eq. apply clear_keeps_zero.
Qed.
End BitFacts.

Lemma rprim_bits_facts (B : DirtyBitValues) : rprim_bits_ok B = true -> RprimBitsFacts B.
Proof.
  unfold rprim_bits_ok, rprim_bits. cbn [forallb pairwise_disjoint disjoint_from].
  rewrite !andb_true_iff, !Z.eqb_eq. intros H.
  repeat match goal with H : _ /\ _ |- _ => destruct H end.
  repeat match goal with H : is_mask _ = true |- _ => apply is_mask_range in H end.
  constructor; solve [ assumption | lia ].
Qed.

(** A flag that is fully set stays fully set when a disjoint flag is cleared,
    and a non-empty flag that is fully set tests as dirty. *)
Lemma clear_keeps_flag (d a b : Z) :
  0 <= b <= UINT32_MAX -> Z.land a b = 0 ->
  bits_and d b = b -> bits_and (bits_and d (bits_not a)) b = b.
Proof. intros Hb Hab Hd. now rewrite clear_other. Qed.

Lemma bits_test_of_flag (d b : Z) : 0 < b -> bits_and d b = b -> bits_test d b = true.
Proof.
  intros Hb Hd. unfold bits_test. rewrite Hd.
  apply negb_true_iff, Z.eqb_neq. lia.
Qed.

Lemma lor_has_flag_l (a b : Z) : bits_and (Z.lor a b) a = a.
Proof.
  unfold bits_and. apply Z.bits_inj'. intros j _.
  rewrite Z.land_spec, Z.lor_spec. now destruct (Z.testbit a j), (Z.testbit b j).
Qed.

Lemma lor_keeps_flag (d a b : Z) : bits_and d b = b -> bits_and (Z.lor d a) b = b.
Proof.
  unfold bits_and. intros H. apply Z.bits_inj'. intros j _.
  rewrite Z.land_spec, Z.lor_spec, <- H, Z.land_spec.
  now destruct (Z.testbit d j), (Z.testbit a j), (Z.testbit b j).
Qed.

(** Clearing all five bits of the union of the five bits leaves nothing. *)
Lemma clear_all_five (p t i v m : Z) :
  0 <= p <= UINT32_MAX -> 0 <= t <= UINT32_MAX -> 0 <= i <= UINT32_MAX ->
  0 <= v <= UINT32_MAX -> 0 <= m <= UINT32_MAX ->
  bits_and (bits_and (bits_and (bits_and (bits_and
    (Z.lor (Z.lor (Z.lor (Z.lor p t) i) v) m)
    (bits_not p)) (bits_not v)) (bits_not m)) (bits_not t)) (bits_not i) = 0.
Proof.
  intros Hp Ht Hi Hv Hm. unfold bits_and. apply Z.bits_inj'. intros j Hj.
  rewrite !Z.land_spec, !Z.lor_spec, !testbit_bits_not, Z.bits_0 by assumption.
  destruct (Z.ltb_spec j 32) as [Hlt | Hge].
  - destruct (Z.testbit p j), (Z.testbit t j), (Z.testbit i j), (Z.testbit v j),
      (Z.testbit m j); reflexivity.
  - rewrite (mask_high_bits p j), (mask_high_bits t j), (mask_high_bits i j),
      (mask_high_bits v j), (mask_high_bits m j) by assumption.
    reflexivity.
Qed.

Lemma lor_has_flag_r (a b : Z) : bits_and (Z.lor a b) b = b.
Proof.
  unfold bits_and. apply Z.bits_inj'. intros j _.
  rewrite Z.land_spec, Z.lor_spec. now destruct (Z.testbit a j), (Z.testbit b j).
Qed.

(** * Running computations *)

Section Running.
Context {HT : HostTypes}.

Lemma bind_Some {A C : Type} (m : M A) (f : A -> M C) (w w1 : World) (a : A) :
  m w = Some (a, w1) -> bind m f w = f a w1.
Proof. intros H. unfold bind. now rewrite H. Qed.

Lemma bind_inv {A C : Type} (m : M A) (f : A -> M C) (w w' : World) (c : C) :
  bind m f w = Some (c, w') ->
  exists a w1, m w = Some (a, w1) /\ f a w1 = Some (c, w').
Proof.
  unfold bind. destruct (m w) as [[a w1] | ] eqn:E; [ | discriminate ].
  intros H. now exists a, w1.
Qed.

Lemma lift_inv {A : Type} (o : option A) (w w' : World) (a : A) :
  lift o w = Some (a, w') -> o = Some a /\ w' = w.
Proof.
  destruct o as [a0 | ]; simpl; [ | discriminate ].
  unfold ret. intros H. injection H as -> ->. now split.
Qed.

(** The calls a range-based loop of plain calls appends. *)
Lemma forM_call (f : nat -> Call) (l : list nat) (w : World) :
  forM (fun x => call (f x)) l w =
  Some (tt, {| msne := {| next_handle := next_handle (msne w);
                          calls := calls (msne w) ++ map f l |};
               diagnostics := diagnostics w |}).
Proof.
  revert w. induction l as [ | x l IH]; intros w.
  - simpl. unfold ret. rewrite app_nil_r. now destruct w as [[n cs] ds].
  - simpl. unfold bind, call at 1. rewrite IH. simpl. now rewrite <- app_assoc.
Qed.
End Running.

(** * The mesh entity *)

Section MeshSync.
Context {HT : HostTypes}.
Variable B : DirtyBitValues.

(** The in-place loop of lines 254-262 from index [i] on, when the entity
    holds a handle for each of the remaining transforms: the handle at index
    [i + n] receives the product of [_transform] and the [n]-th remaining
    transform; handles beyond the transforms receive nothing. *)
Lemma updateTransforms_spec (self : Mesh.HdMoonshineMesh) (ts : list GfMatrix4f)
    (i : nat) (w : World) :
  (i + length ts <= length (Mesh._instances self))%nat ->
  Mesh.updateTransforms self i ts w =
  Some (tt, {| msne := {| next_handle := next_handle (msne w);
                          calls := calls (msne w) ++
                            map (fun ht : InstanceHandle * GfMatrix4f =>
                                   SetInstanceTransform (fst ht)
                                     (Mesh.to_Mat3x4
                                        (GfMatrix4f_mul (Mesh._transform self) (snd ht))))
                                (combine (skipn i (Mesh._instances self)) ts) |};
               diagnostics := diagnostics w |}).
Proof.
  revert i w. induction ts as [ | t ts IH]; intros i w Hlen.
  - rewrite combine_nil. simpl. unfold ret. rewrite app_nil_r.
    now destruct w as [[n cs] ds].
  - simpl in Hlen.
    destruct (nth_error (Mesh._instances self) i) as [h | ] eqn:Hnth;
      [ | apply nth_error_None in Hnth; lia ].
    assert (Hskip : skipn i (Mesh._instances self) = h :: skipn (S i) (Mesh._instances self)).
    { pose proof (firstn_skipn_middle i (Mesh._instances self) Hnth) as Hmid.
      rewrite <- Hmid at 1. rewrite skipn_app, skipn_firstn_comm.
      rewrite length_firstn, Nat.min_l by lia.
      replace (i - i)%nat with 0%nat by lia. reflexivity. }
    cbn [Mesh.updateTransforms]. unfold bind at 1. rewrite Hnth.
    cbn [lift]. unfold ret at 1. unfold bind at 1, call at 1.
    rewrite (IH (S i)) by lia. rewrite Hskip.
    cbn. now rewrite <- app_assoc.
Qed.

(** Without a computed primvar called [points] there are no computed
    points. *)
Lemma computedPoints_absent (sceneDelegate : HdSceneDelegate) :
  (forall interp pv,
     In pv (GetExtComputationPrimvarDescriptors sceneDelegate interp) ->
     token_eqb pv Mesh.HdTokens_points = false) ->
  Mesh.computedPoints sceneDelegate = Some [].
Proof.
  intros Habsent.
  assert (Hone : forall interp,
             Mesh.computedPoints_of sceneDelegate interp (Some []) = Some []).
  { intros interp. unfold Mesh.computedPoints_of.
    specialize (Habsent interp).
    induction (GetExtComputationPrimvarDescriptors sceneDelegate interp) as [ | pv l IH].
    - reflexivity.
    - cbn [fold_left]. rewrite (Habsent pv) by now left.
      apply IH. intros pv' Hin. apply Habsent. now right. }
  unfold Mesh.computedPoints, all_interpolations. cbn [fold_left].
  now rewrite !Hone.
Qed.

(** C6.  When the points are dirty and neither a computed point source nor
    the authored points give any point, the sync call returns at once: the
    renderer receives no call (so no mesh is created), the entity keeps its
    geometry handle and every other member, the dirty bits stay as they
    were, and the only effect is the empty-mesh diagnostic. *)
Theorem sync_abandoned_without_points
    (sceneDelegate : HdSceneDelegate) (renderParam : HdMoonshineRenderParam)
    (self : Mesh.HdMoonshineMesh) (dirtyBits : HdDirtyBits) (w : World) :
  HdChangeTracker.IsPrimvarDirty_points B dirtyBits = true ->
  Mesh.computedPoints sceneDelegate = Some [] ->
  Get_array holds_Vec3fArray (Get sceneDelegate Mesh.HdTokens_points) = [] ->
  Mesh.Sync B sceneDelegate renderParam self dirtyBits w =
    Some ((self, dirtyBits),
          {| msne := msne w; diagnostics := diagnostics w ++ [EmptyMesh] |}).
Proof.
  intros Hdirty Hcomputed Hauthored.
  unfold Mesh.Sync. rewrite Hdirty.
  unfold bind at 1, Mesh.syncPoints, bind at 1, Mesh.findIndexedPoints.
  rewrite Hcomputed, Hauthored. reflexivity.
Qed.

(** Lines 205-210 and 253-262.  When the transform bit is the only one of the
    five bits the sync inspects that is set, and the entity holds one instance
    handle per stored transform, the call destroys and creates no instance:
    the renderer
    receives exactly one [SetInstanceTransform] per held handle, in order,
    with the freshly read local-to-world transform multiplied by that
    handle's stored transform; no handle is handed out and the entity keeps
    its handles and stored transforms. *)
Theorem transform_only_updates_in_place
    (sceneDelegate : HdSceneDelegate) (renderParam : HdMoonshineRenderParam)
    (self : Mesh.HdMoonshineMesh) (dirtyBits : HdDirtyBits) (w : World) :
  HdChangeTracker.IsPrimvarDirty_points B dirtyBits = false ->
  HdChangeTracker.IsVisibilityDirty B dirtyBits = false ->
  bits_test dirtyBits (DirtyMaterialId B) = false ->
  HdChangeTracker.IsTransformDirty B dirtyBits = true ->
  HdChangeTracker.IsInstancerDirty B dirtyBits = false ->
  length (Mesh._instances self) = length (Mesh._instancesTransforms self) ->
  exists w',
    Mesh.Sync B sceneDelegate renderParam self dirtyBits w =
      Some ((Mesh.set_transform self (GfMatrix4f_narrow (GetTransform sceneDelegate)),
             bits_and dirtyBits (bits_not (DirtyTransform B))), w')
    /\ calls (msne w') =
       calls (msne w) ++
       map (fun ht : InstanceHandle * GfMatrix4f =>
              SetInstanceTransform (fst ht)
                (Mesh.to_Mat3x4
                   (GfMatrix4f_mul (GfMatrix4f_narrow (GetTransform sceneDelegate))
                                   (snd ht))))
           (combine (Mesh._instances self) (Mesh._instancesTransforms self))
    /\ next_handle (msne w') = next_handle (msne w).
Proof.
  intros HP HV HM HTr HI Hlen.
  assert (HI' : HdChangeTracker.IsInstancerDirty B
                  (bits_and dirtyBits (bits_not (DirtyTransform B))) = false)
    by (apply bits_test_clear_false; exact HI).
  unfold Mesh.Sync. rewrite HP. unfold bind at 1, ret at 1.
  unfold Mesh.syncAfterPoints, Mesh.syncVisibility, Mesh.syncMaterialId, Mesh.syncTransform.
  rewrite HV, HM, HTr, HI. cbn [orb].
  unfold bind at 1, Mesh.syncInstancer. rewrite HI'. unfold ret at 1.
  unfold bind at 1, Mesh.updateInstances, bind at 1, bind at 1.
  rewrite updateTransforms_spec by (cbn; lia).
  unfold Mesh.IsVisible. rewrite eqb_reflx. cbn [negb].
  unfold ret at 1, ret at 1.
  destruct (negb (HdChangeTracker.IsClean B
              (bits_and dirtyBits (bits_not (DirtyTransform B))))).
  - eexists. unfold bind, TF_CODING_ERROR, ret. cbn. repeat split; reflexivity.
  - eexists. unfold bind, ret. cbn. repeat split; reflexivity.
Qed.
(** C7, where the code departs from it.  The in-place loop of lines 254-262
    runs over the stored transforms, not over the handles.  When the entity
    holds more instance handles than stored transforms (the state a shrinking
    instancer leaves behind, because the flag of line 231 is a second
    variable), a sync call with the transform bit as the only set one of the
    five bits destroys and creates no instance, sends one
    [SetInstanceTransform] to each of the first handles, as many as there are
    stored transforms, and sends nothing to the remaining handles, of which
    there is at least one: they keep the transform they had. *)
Theorem transform_update_skips_handles_beyond_the_transforms
    (sceneDelegate : HdSceneDelegate) (renderParam : HdMoonshineRenderParam)
    (self : Mesh.HdMoonshineMesh) (dirtyBits : HdDirtyBits) (w : World) :
  HdChangeTracker.IsPrimvarDirty_points B dirtyBits = false ->
  HdChangeTracker.IsVisibilityDirty B dirtyBits = false ->
  bits_test dirtyBits (DirtyMaterialId B) = false ->
  HdChangeTracker.IsTransformDirty B dirtyBits = true ->
  HdChangeTracker.IsInstancerDirty B dirtyBits = false ->
  (length (Mesh._instancesTransforms self) < length (Mesh._instances self))%nat ->
  let updated := firstn (length (Mesh._instancesTransforms self)) (Mesh._instances self) in
  let skipped := skipn (length (Mesh._instancesTransforms self)) (Mesh._instances self) in
  exists w',
    Mesh.Sync B sceneDelegate renderParam self dirtyBits w =
      Some ((Mesh.set_transform self (GfMatrix4f_narrow (GetTransform sceneDelegate)),
             bits_and dirtyBits (bits_not (DirtyTransform B))), w')
    /\ Mesh._instances self = updated ++ skipped
    /\ skipped <> []
    /\ calls (msne w') =
       calls (msne w) ++
       map (fun ht : InstanceHandle * GfMatrix4f =>
              SetInstanceTransform (fst ht)
                (Mesh.to_Mat3x4
                   (GfMatrix4f_mul (GfMatrix4f_narrow (GetTransform sceneDelegate))
                                   (snd ht))))
           (combine updated (Mesh._instancesTransforms self))
    /\ next_handle (msne w') = next_handle (msne w).
Proof.
  intros HP HV HM HTr HI Hlen updated skipped.
  assert (HI' : HdChangeTracker.IsInstancerDirty B
                  (bits_and dirtyBits (bits_not (DirtyTransform B))) = false)
    by (apply bits_test_clear_false; exact HI).
  assert (Hskipped : skipped <> []).
  { subst skipped. intros Hnil. apply (f_equal (@length _)) in Hnil.
    rewrite length_skipn in Hnil. cbn in Hnil. lia. }
  unfold Mesh.Sync. rewrite HP. unfold bind at 1, ret at 1.
  unfold Mesh.syncAfterPoints, Mesh.syncVisibility, Mesh.syncMaterialId, Mesh.syncTransform.
  rewrite HV, HM, HTr, HI. cbn [orb].
  unfold bind at 1, Mesh.syncInstancer. rewrite HI'. unfold ret at 1.
  unfold bind at 1, Mesh.updateInstances, bind at 1, bind at 1.
  rewrite updateTransforms_spec by (cbn; lia).
  unfold Mesh.IsVisible. rewrite eqb_reflx. cbn [negb].
  unfold ret at 1, ret at 1.
  cbn [Mesh.set_transform Mesh._instances Mesh._instancesTransforms Mesh._transform skipn].
  rewrite (combine_firstn_r (Mesh._instances self) (Mesh._instancesTransforms self)).
  fold updated.
  destruct (negb (HdChangeTracker.IsClean B
              (bits_and dirtyBits (bits_not (DirtyTransform B))))).
  - eexists. unfold bind, TF_CODING_ERROR, ret. cbn.
    split; [ reflexivity | ]. split; [ symmetry; apply firstn_skipn | ].
    split; [ exact Hskipped | ]. split; reflexivity.
  - eexists. unfold bind, ret. cbn.
    split; [ reflexivity | ]. split; [ symmetry; apply firstn_skipn | ].
    split; [ exact Hskipped | ]. split; reflexivity.
Qed.

(** A sync call with the instancer bit set and the points and material bits
    clear takes the in-place path whatever the instancer answers: the stored
    transforms are replaced, the instance handles are kept, and the renderer
    receives transform updates for the first handles and, if the visibility
    changed, visibility updates for all of them. *)
Lemma instancer_sync_in_place
    (sceneDelegate : HdSceneDelegate) (renderParam : HdMoonshineRenderParam)
    (self : Mesh.HdMoonshineMesh) (dirtyBits : HdDirtyBits) (w : World)
    (ts : list GfMatrix4d) :
  rprim_bits_ok B = true ->
  HdChangeTracker.IsPrimvarDirty_points B dirtyBits = false ->
  bits_test dirtyBits (DirtyMaterialId B) = false ->
  HdChangeTracker.IsInstancerDirty B dirtyBits = true ->
  IsEmpty (GetInstancerId sceneDelegate) = false ->
  GetInstancer sceneDelegate (GetInstancerId sceneDelegate) = Some ts ->
  (length ts <= length (Mesh._instances self))%nat ->
  let self' :=
    {| Mesh._mesh := Mesh._mesh self;
       Mesh._material := Mesh._material self;
       Mesh._transform :=
         if HdChangeTracker.IsTransformDirty B dirtyBits
         then GfMatrix4f_narrow (GetTransform sceneDelegate)
         else Mesh._transform self;
       Mesh._instancesTransforms := map GfMatrix4f_narrow ts;
       Mesh._instances := Mesh._instances self;
       Mesh._visible :=
         if HdChangeTracker.IsVisibilityDirty B dirtyBits
         then GetVisible sceneDelegate
         else Mesh._visible self |} in
  exists dirtyBits' w',
    Mesh.Sync B sceneDelegate renderParam self dirtyBits w = Some ((self', dirtyBits'), w')
    /\ next_handle (msne w') = next_handle (msne w)
    /\ calls (msne w') =
       calls (msne w)
       ++ map (fun ht : InstanceHandle * GfMatrix4f =>
                 SetInstanceTransform (fst ht)
                   (Mesh.to_Mat3x4 (GfMatrix4f_mul (Mesh._transform self') (snd ht))))
              (combine (Mesh._instances self) (map GfMatrix4f_narrow ts))
       ++ (if Bool.eqb (Mesh._visible self) (Mesh._visible self') then []
           else map (fun h => SetInstanceVisibility h (Mesh._visible self'))
                    (Mesh._instances self)).
Proof.
  intros Hok HP HM HI Hid Hts Hlen self'.
  destruct (rprim_bits_facts B Hok).
  unfold HdChangeTracker.IsInstancerDirty, HdChangeTracker.IsTransformDirty,
    HdChangeTracker.IsVisibilityDirty, HdChangeTracker.IsPrimvarDirty_points in *.
  assert (HM_V : bits_test (bits_and dirtyBits (bits_not (DirtyVisibility B)))
                   (DirtyMaterialId B) = false)
    by now apply bits_test_clear_false.
  assert (HI_V : bits_test (bits_and dirtyBits (bits_not (DirtyVisibility B)))
                   (DirtyInstancer B) = true)
    by (rewrite bits_test_clear_other; [ exact HI | assumption | now rewrite Z.land_comm ]).
  assert (HT_V : bits_test (bits_and dirtyBits (bits_not (DirtyVisibility B)))
                   (DirtyTransform B) = bits_test dirtyBits (DirtyTransform B))
    by (rewrite bits_test_clear_other; [ reflexivity | assumption | now rewrite Z.land_comm ]).
  assert (HI_T : forall d, bits_test d (DirtyInstancer B) = true ->
                 bits_test (bits_and d (bits_not (DirtyTransform B))) (DirtyInstancer B) = true)
    by (intros d Hd; rewrite bits_test_clear_other; assumption).
  subst self'.
  unfold HdChangeTracker.IsInstancerDirty, HdChangeTracker.IsTransformDirty,
    HdChangeTracker.IsVisibilityDirty.
  unfold Mesh.Sync, Mesh.syncAfterPoints, Mesh.syncVisibility, Mesh.syncMaterialId,
    Mesh.syncTransform, Mesh.syncInstancer, Mesh._UpdateVisibility, Mesh.updateInstances,
    Mesh.IsVisible.
  unfold HdChangeTracker.IsInstancerDirty, HdChangeTracker.IsTransformDirty,
    HdChangeTracker.IsVisibilityDirty, HdChangeTracker.IsPrimvarDirty_points.
  rewrite HP.
  pose proof (HI_T _ HI) as HI_T1. pose proof (HI_T _ HI_V) as HI_T2.
  destruct (bits_test dirtyBits (DirtyVisibility B)) eqn:HV;
    destruct (bits_test dirtyBits (DirtyTransform B)) eqn:HTr;
    unfold bind, ret, lift, Mesh.set_instancesTransforms, Mesh.set_transform,
      Mesh.set_visible;
    repeat (progress (cbn [Mesh._instancesTransforms Mesh._instances Mesh._transform
                           Mesh._visible Mesh._mesh Mesh._material app fst snd orb negb];
                      cbv beta iota zeta; unfold ret;
                      rewrite ?HV, ?HM, ?HM_V, ?HTr, ?HT_V, ?HI, ?HI_V, ?HI_T1, ?HI_T2,
                              ?Hid, ?Hts));
    rewrite updateTransforms_spec by (cbn; rewrite length_map; lia);
    cbn [Mesh._instancesTransforms Mesh._instances Mesh._transform Mesh._visible skipn];
    match goal with
    | |- context [Bool.eqb ?a ?b] => destruct (Bool.eqb a b)
    end;
    cbn [negb]; rewrite ?forM_call;
    match goal with
    | |- context [HdChangeTracker.IsClean B ?d] => destruct (HdChangeTracker.IsClean B d)
    end;
    cbn [negb]; unfold TF_CODING_ERROR; do 2 eexists;
    (split; [ reflexivity | ]); cbn; (split; [ reflexivity | ]);
    rewrite ?app_nil_r, <- ?app_assoc; reflexivity.
Qed.
(** C1, where the code departs from it.  A sync call with the instancer bit
    set and the points and material bits clear does not rebuild, even when
    the instancer now answers with a different number of transforms than the
    entity has stored: no instance is destroyed, none is created, and the
    entity keeps the handles it had while its stored transforms are replaced
    by the new ones.  (The flag computed at line 231 is a second variable; the
    one tested at line 236 is still [false].) *)
Theorem instancer_count_change_is_not_rebuilt
    (sceneDelegate : HdSceneDelegate) (renderParam : HdMoonshineRenderParam)
    (self : Mesh.HdMoonshineMesh) (dirtyBits : HdDirtyBits) (w : World)
    (ts : list GfMatrix4d) :
  rprim_bits_ok B = true ->
  HdChangeTracker.IsPrimvarDirty_points B dirtyBits = false ->
  bits_test dirtyBits (DirtyMaterialId B) = false ->
  HdChangeTracker.IsInstancerDirty B dirtyBits = true ->
  IsEmpty (GetInstancerId sceneDelegate) = false ->
  GetInstancer sceneDelegate (GetInstancerId sceneDelegate) = Some ts ->
  length ts <> length (Mesh._instancesTransforms self) ->
  (length ts <= length (Mesh._instances self))%nat ->
  exists self' dirtyBits' w' cs,
    Mesh.Sync B sceneDelegate renderParam self dirtyBits w = Some ((self', dirtyBits'), w')
    /\ calls (msne w') = calls (msne w) ++ cs
    /\ Forall (fun c => match c with
                        | DestroyInstance _ => False
                        | CreateInstance _ _ _ _ _ => False
                        | _ => True
                        end) cs
    /\ Mesh._instances self' = Mesh._instances self
    /\ Mesh._instancesTransforms self' = map GfMatrix4f_narrow ts.
Proof.
  intros Hok HP HM HI Hid Hts _ Hlen.
  destruct (instancer_sync_in_place sceneDelegate renderParam self dirtyBits w ts
              Hok HP HM HI Hid Hts Hlen) as (dirtyBits' & w' & Hsync & _ & Hcalls).
  eexists _, dirtyBits', w', _. split; [ exact Hsync | ].
  split; [ exact Hcalls | ].
  split; [ | split; reflexivity ].
  apply Forall_app. split.
  - apply Forall_forall. intros c Hc. apply in_map_iff in Hc.
    destruct Hc as (ht & <- & _). exact I.
  - match goal with |- context [if ?b then _ else _] => destruct b end.
    + constructor.
    + apply Forall_forall. intros c Hc. apply in_map_iff in Hc.
      destruct Hc as (h & <- & _). exact I.
Qed.

(** C4, where the code departs from it.  Starting from an entity with one
    instance handle per stored transform, a sync call with the instancer bit
    set and the points and material bits clear, under an instancer that now
    answers with fewer transforms, returns with more instance handles than
    stored transforms. *)
Theorem instance_count_invariant_is_broken
    (sceneDelegate : HdSceneDelegate) (renderParam : HdMoonshineRenderParam)
    (self : Mesh.HdMoonshineMesh) (dirtyBits : HdDirtyBits) (w : World)
    (ts : list GfMatrix4d) :
  rprim_bits_ok B = true ->
  HdChangeTracker.IsPrimvarDirty_points B dirtyBits = false ->
  bits_test dirtyBits (DirtyMaterialId B) = false ->
  HdChangeTracker.IsInstancerDirty B dirtyBits = true ->
  IsEmpty (GetInstancerId sceneDelegate) = false ->
  GetInstancer sceneDelegate (GetInstancerId sceneDelegate) = Some ts ->
  length (Mesh._instances self) = length (Mesh._instancesTransforms self) ->
  (length ts < length (Mesh._instances self))%nat ->
  exists self' dirtyBits' w',
    Mesh.Sync B sceneDelegate renderParam self dirtyBits w = Some ((self', dirtyBits'), w')
    /\ length (Mesh._instances self') = length (Mesh._instances self)
    /\ length (Mesh._instancesTransforms self') = length ts
    /\ length (Mesh._instances self') <> length (Mesh._instancesTransforms self').
Proof.
  intros Hok HP HM HI Hid Hts _ Hlen.
  destruct (instancer_sync_in_place sceneDelegate renderParam self dirtyBits w ts
              Hok HP HM HI Hid Hts (Nat.lt_le_incl _ _ Hlen))
    as (dirtyBits' & w' & Hsync & _ & _).
  eexists _, dirtyBits', w'. split; [ exact Hsync | ].
  cbn [Mesh._instances Mesh._instancesTransforms]. rewrite length_map.
  repeat split. lia.
Qed.
End MeshSync.

(** * Rebuilding the instances *)

Section Rebuild.
Context {HT : HostTypes}.
Variable B : DirtyBitValues.

(** A loop of creation calls hands out consecutive handles. *)
Lemma mapM_create {A : Type} (f : A -> nat -> Call) (l : list A) (w : World) :
  mapM (fun a => create (f a)) l w =
  Some (seq (next_handle (msne w)) (length l),
        {| msne := {| next_handle := next_handle (msne w) + length l;
                      calls := calls (msne w) ++
                               map (fun ah : A * nat => f (fst ah) (snd ah))
                                   (combine l (seq (next_handle (msne w)) (length l))) |};
           diagnostics := diagnostics w |}).
Proof.
  revert w. induction l as [ | a l IH]; intros w.
  - simpl. unfold ret. rewrite app_nil_r, Nat.add_0_r. now destruct w as [[n cs] ds].
  - cbn [mapM]. unfold bind at 1, create at 1. unfold bind at 1. rewrite IH.
    unfold ret. cbn. rewrite <- app_assoc, Nat.add_succ_r. reflexivity.
Qed.

(** Lines 238-251: every held handle is destroyed, then one instance is
    created per stored transform, with consecutive fresh handles. *)
Lemma recreateInstances_spec (self : Mesh.HdMoonshineMesh) (new_visibility : bool)
    (w : World) :
  Mesh.recreateInstances self new_visibility w =
  Some (Mesh.set_instances self
          (seq (next_handle (msne w)) (length (Mesh._instancesTransforms self))),
        {| msne :=
             {| next_handle :=
                  next_handle (msne w) + length (Mesh._instancesTransforms self);
                calls :=
                  calls (msne w)
                  ++ map DestroyInstance (Mesh._instances self)
                  ++ map (fun th : GfMatrix4f * nat =>
                            CreateInstance
                              (Mesh.to_Mat3x4 (GfMatrix4f_mul (Mesh._transform self) (fst th)))
                              (Mesh._mesh self) (Mesh._material self) new_visibility (snd th))
                         (combine (Mesh._instancesTransforms self)
                            (seq (next_handle (msne w))
                                 (length (Mesh._instancesTransforms self)))) |};
           diagnostics := diagnostics w |}).
Proof.
  unfold Mesh.recreateInstances. unfold bind at 1. rewrite forM_call.
  unfold bind at 1.
  cbn [Mesh.set_instances Mesh._instancesTransforms Mesh._transform Mesh._mesh
       Mesh._material Mesh._instances].
  rewrite (mapM_create
             (fun t h => CreateInstance
                           (Mesh.to_Mat3x4 (GfMatrix4f_mul (Mesh._transform self) t))
                           (Mesh._mesh self) (Mesh._material self) new_visibility h)).
  unfold ret. cbn. rewrite <- app_assoc. reflexivity.
Qed.

(** The geometry step, when it completes, replaces the geometry handle and
    clears the points bit; nothing else of the entity changes. *)
Lemma syncPoints_completes (sceneDelegate : HdSceneDelegate) (self self1 : Mesh.HdMoonshineMesh)
    (dirtyBits d1 : HdDirtyBits) (w w1 : World) :
  Mesh.syncPoints B sceneDelegate self dirtyBits w = Some (Some (self1, d1), w1) ->
  self1 = Mesh.set_mesh self (Mesh._mesh self1)
  /\ d1 = bits_and dirtyBits (bits_not (DirtyPoints B)).
Proof.
  unfold Mesh.syncPoints. intros H.
  apply bind_inv in H. destruct H as (ipts & w2 & _ & H).
  destruct (Z.of_nat (length ipts) =? 0).
  - apply bind_inv in H. destruct H as (? & ? & _ & H). discriminate.
  - apply bind_inv in H. destruct H as (points & w3 & _ & H).
    apply bind_inv in H. destruct H as (texcoords & w4 & _ & H).
    apply bind_inv in H. destruct H as (normals & w5 & _ & H).
    apply bind_inv in H. destruct H as (mesh & w6 & _ & H).
    unfold ret in H. injection H as <- <- _. now split.
Qed.
(** What the instancer step gives: it is a function of the scene, and it
    leaves the renderer alone. *)
Lemma syncInstancer_spec (sceneDelegate : HdSceneDelegate) (instancerId : SdfPath)
    (self : Mesh.HdMoonshineMesh) (dirtyBits : HdDirtyBits) (w : World) :
  Mesh.syncInstancer B sceneDelegate instancerId self dirtyBits w =
  if HdChangeTracker.IsInstancerDirty B dirtyBits then
    if IsEmpty instancerId then
      Some ((Mesh.set_instancesTransforms self [GfMatrix4f_identity],
             bits_and dirtyBits (bits_not (DirtyInstancer B))), w)
    else
      match GetInstancer sceneDelegate instancerId with
      | Some ts =>
          Some ((Mesh.set_instancesTransforms self (map GfMatrix4f_narrow ts),
                 bits_and dirtyBits (bits_not (DirtyInstancer B))), w)
      | None => None
      end
  else Some ((self, dirtyBits), w).
Proof.
  unfold Mesh.syncInstancer.
  destruct (HdChangeTracker.IsInstancerDirty B dirtyBits); [ | reflexivity ].
  destruct (IsEmpty instancerId).
  - reflexivity.
  - unfold bind. destruct (GetInstancer sceneDelegate instancerId); reflexivity.
Qed.

(** Everything after the geometry, when the geometry or the material binding
    changed: the three pure steps, the instancer step, then the rebuild. *)
Lemma syncAfterPoints_rebuilds (sceneDelegate : HdSceneDelegate)
    (renderParam : HdMoonshineRenderParam) (mesh_changed : bool)
    (self s4 : Mesh.HdMoonshineMesh) (dirtyBits d4 : HdDirtyBits) (w : World) :
  let sv := Mesh.syncVisibility B sceneDelegate self dirtyBits in
  let sm := Mesh.syncMaterialId B sceneDelegate renderParam (fst sv) (snd sv) in
  let st := Mesh.syncTransform B sceneDelegate (fst sm) (snd sm) in
  mesh_changed || bits_test (snd sv) (DirtyMaterialId B) = true ->
  Mesh.syncInstancer B sceneDelegate (GetInstancerId sceneDelegate) (fst st) (snd st) w
    = Some ((s4, d4), w) ->
  Mesh.syncAfterPoints B sceneDelegate renderParam mesh_changed self dirtyBits w =
  Some ((Mesh.set_instances s4
           (seq (next_handle (msne w)) (length (Mesh._instancesTransforms s4))), d4),
        {| msne :=
             {| next_handle := next_handle (msne w) + length (Mesh._instancesTransforms s4);
                calls :=
                  calls (msne w)
                  ++ map DestroyInstance (Mesh._instances s4)
                  ++ map (fun th : GfMatrix4f * nat =>
                            CreateInstance
                              (Mesh.to_Mat3x4 (GfMatrix4f_mul (Mesh._transform s4) (fst th)))
                              (Mesh._mesh s4) (Mesh._material s4)
                              (Mesh._visible (fst sv)) (snd th))
                         (combine (Mesh._instancesTransforms s4)
                            (seq (next_handle (msne w))
                                 (length (Mesh._instancesTransforms s4)))) |};
           diagnostics :=
             diagnostics w ++
             (if HdChangeTracker.IsClean B d4 then [] else [MeshDirtyBitsIgnored d4]) |}).
Proof.
  intros sv sm st Hchanged Hinstancer. unfold Mesh.syncAfterPoints.
  fold sv. destruct sv as [s1 d1] eqn:Esv. cbn [fst snd] in *.
  fold sm. destruct sm as [s2 d2] eqn:Esm. cbn [fst snd] in *.
  fold st. destruct st as [s3 d3] eqn:Est. cbn [fst snd] in *.
  rewrite orb_false_r, Hchanged.
  unfold bind at 1. rewrite Hinstancer.
  unfold bind at 1. rewrite recreateInstances_spec.
  unfold Mesh.IsVisible.
  destruct (HdChangeTracker.IsClean B d4); cbn [negb];
    unfold bind, TF_CODING_ERROR, ret; cbn; rewrite ?app_nil_r; reflexivity.
Qed.
(** The pure steps keep what they do not handle. *)
Lemma syncVisibility_spec (sceneDelegate : HdSceneDelegate) (self : Mesh.HdMoonshineMesh)
    (dirtyBits : HdDirtyBits) :
  Mesh.syncVisibility B sceneDelegate self dirtyBits =
  if HdChangeTracker.IsVisibilityDirty B dirtyBits
  then (Mesh.set_visible self (GetVisible sceneDelegate),
        bits_and dirtyBits (bits_not (DirtyVisibility B)))
  else (self, dirtyBits).
Proof.
  unfold Mesh.syncVisibility, Mesh._UpdateVisibility.
  now destruct (HdChangeTracker.IsVisibilityDirty B dirtyBits).
Qed.

(** C5, as the code has it.  In a sync call with the material-binding bit set
    whose geometry step completes (the points are clean, or the geometry is
    built) and whose instancer, if the entity names one, is known to the
    render index: the bound material handle becomes the context default when
    the entity has no binding, the handle of the referenced material entity
    when that entity is realized, and stays what it was when it is not; the
    material-binding bit is clear when the call returns. *)
Theorem material_binding_is_resolved
    (sceneDelegate : HdSceneDelegate) (renderParam : HdMoonshineRenderParam)
    (self self1 : Mesh.HdMoonshineMesh) (dirtyBits d1 : HdDirtyBits) (w w1 : World) :
  rprim_bits_ok B = true ->
  bits_test dirtyBits (DirtyMaterialId B) = true ->
  (if HdChangeTracker.IsPrimvarDirty_points B dirtyBits
   then Mesh.syncPoints B sceneDelegate self dirtyBits
   else ret (Some (self, dirtyBits))) w = Some (Some (self1, d1), w1) ->
  IsEmpty (GetInstancerId sceneDelegate) = true
  \/ GetInstancer sceneDelegate (GetInstancerId sceneDelegate) <> None ->
  exists self' dirtyBits' w',
    Mesh.Sync B sceneDelegate renderParam self dirtyBits w = Some ((self', dirtyBits'), w')
    /\ bits_test dirtyBits' (DirtyMaterialId B) = false
    /\ Mesh._material self' =
       if IsEmpty (GetMaterialId sceneDelegate) then _defaultMaterial renderParam
       else match GetSprim sceneDelegate (GetMaterialId sceneDelegate) with
            | Some material => _handle material
            | None => Mesh._material self
            end.
Proof.
  intros Hok HM Hgeo Hinst.
  destruct (rprim_bits_facts B Hok).
  assert (H1 : Mesh._material self1 = Mesh._material self
               /\ bits_test d1 (DirtyMaterialId B) = true).
  { destruct (HdChangeTracker.IsPrimvarDirty_points B dirtyBits).
    - apply syncPoints_completes in Hgeo. destruct Hgeo as [-> ->]. split.
      + reflexivity.
      + rewrite bits_test_clear_other; assumption.
    - unfold ret in Hgeo. injection Hgeo as <- <- <-. now split. }
  destruct H1 as [Hmat HM1].
  unfold Mesh.Sync. unfold bind at 1. rewrite Hgeo.
  set (sv := Mesh.syncVisibility B sceneDelegate self1 d1).
  set (sm := Mesh.syncMaterialId B sceneDelegate renderParam (fst sv) (snd sv)).
  set (st := Mesh.syncTransform B sceneDelegate (fst sm) (snd sm)).
  assert (Hsv : Mesh._material (fst sv) = Mesh._material self
                /\ bits_test (snd sv) (DirtyMaterialId B) = true).
  { subst sv. rewrite syncVisibility_spec.
    destruct (HdChangeTracker.IsVisibilityDirty B d1); cbn [fst snd]; split;
      try assumption.
    rewrite bits_test_clear_other; assumption. }
  destruct Hsv as [Hmat_v HM_v].
  assert (Hsm : Mesh._material (fst sm) =
                (if IsEmpty (GetMaterialId sceneDelegate) then _defaultMaterial renderParam
                 else match GetSprim sceneDelegate (GetMaterialId sceneDelegate) with
                      | Some material => _handle material
                      | None => Mesh._material self
                      end)
                /\ bits_test (snd sm) (DirtyMaterialId B) = false).
  { subst sm. unfold Mesh.syncMaterialId. rewrite HM_v. cbn [fst snd]. split.
    - destruct (IsEmpty (GetMaterialId sceneDelegate)); [ reflexivity | ].
      destruct (GetSprim sceneDelegate (GetMaterialId sceneDelegate)); [ reflexivity | ].
      exact Hmat_v.
    - apply bits_test_clear_same. assumption. }
  destruct Hsm as [Hmat_m HM_m].
  assert (Hst : Mesh._material (fst st) = Mesh._material (fst sm)
                /\ bits_test (snd st) (DirtyMaterialId B) = false).
  { subst st. unfold Mesh.syncTransform.
    destruct (HdChangeTracker.IsTransformDirty B (snd sm)); cbn [fst snd]; split;
      try reflexivity; try assumption.
    now apply bits_test_clear_false. }
  destruct Hst as [Hmat_t HM_t].
  assert (Hsi : exists s4 d4,
             Mesh.syncInstancer B sceneDelegate (GetInstancerId sceneDelegate)
               (fst st) (snd st) w1 = Some ((s4, d4), w1)
             /\ Mesh._material s4 = Mesh._material (fst st)
             /\ bits_test d4 (DirtyMaterialId B) = false).
  { rewrite syncInstancer_spec.
    destruct (HdChangeTracker.IsInstancerDirty B (snd st)).
    - destruct (IsEmpty (GetInstancerId sceneDelegate)) eqn:Eid.
      + eexists _, _. split; [ reflexivity | ]. split; [ reflexivity | ].
        now apply bits_test_clear_false.
      + destruct Hinst as [Hinst | Hinst]; [ discriminate | ].
        destruct (GetInstancer sceneDelegate (GetInstancerId sceneDelegate));
          [ | contradiction ].
        eexists _, _. split; [ reflexivity | ]. split; [ reflexivity | ].
        now apply bits_test_clear_false.
    - eexists _, _. split; [ reflexivity | ]. split; [ reflexivity | assumption ]. }
  destruct Hsi as (s4 & d4 & Hsi & Hmat_i & HM_i).
  rewrite (syncAfterPoints_rebuilds sceneDelegate renderParam _ self1 s4 d1 d4 w1);
    [ | fold sv; rewrite HM_v; apply orb_true_r | exact Hsi ].
  eexists _, _, _. split; [ reflexivity | ]. split; [ exact HM_i | ].
  cbn [Mesh.set_instances Mesh._material]. congruence.
Qed.
(** Without a primvar of one of the candidate names there are no texture
    coordinates to look for. *)
Lemma texcoordName_unauthored (sceneDelegate : HdSceneDelegate) :
  Mesh.FindPrimvarInterpolation sceneDelegate Mesh.tokens_st = None ->
  Mesh.FindPrimvarInterpolation sceneDelegate Mesh.tokens_st0 = None ->
  Mesh.texcoordName sceneDelegate = EmptyString.
Proof. intros Hst Hst0. unfold Mesh.texcoordName. cbn [find]. now rewrite Hst, Hst0. Qed.

(** A primvar without interpolation gives an empty array. *)
Lemma ComputePrimvar_unauthored {T : Type} (holds : VtValue -> option (list T))
    (sceneDelegate : HdSceneDelegate) (indices : list GfVec3i) (name : TfToken)
    (w : World) :
  Mesh.FindPrimvarInterpolation sceneDelegate name = None ->
  Mesh.ComputePrimvar holds sceneDelegate indices name w = Some ([], w).
Proof.
  intros Hnone. unfold Mesh.ComputePrimvar. rewrite Hnone.
  now destruct (holds (Get sceneDelegate name)).
Qed.

(** The geometry step on points without authored normals and texture
    coordinates: one mesh is created from the unindexed points. *)
Lemma syncPoints_builds (sceneDelegate : HdSceneDelegate) (self : Mesh.HdMoonshineMesh)
    (dirtyBits : HdDirtyBits) (w : World) (ipts tri : list GfVec3f) :
  Mesh.findIndexedPoints sceneDelegate = Some ipts ->
  ipts <> [] ->
  Mesh.unindex ipts (ComputeTriangleIndices sceneDelegate) = Some tri ->
  Mesh.FindPrimvarInterpolation sceneDelegate Mesh.tokens_st = None ->
  Mesh.FindPrimvarInterpolation sceneDelegate Mesh.tokens_st0 = None ->
  Mesh.FindPrimvarInterpolation sceneDelegate Mesh.tokens_normals = None ->
  Mesh.syncPoints B sceneDelegate self dirtyBits w =
  Some (Some (Mesh.set_mesh self (next_handle (msne w)),
              bits_and dirtyBits (bits_not (DirtyPoints B))),
        {| msne := {| next_handle := S (next_handle (msne w));
                      calls := calls (msne w) ++
                               [CreateMesh tri [] [] (Z.of_nat (length tri))
                                  (next_handle (msne w))] |};
           diagnostics := diagnostics w |}).
Proof.
  intros Hpts Hnonempty Htri Hst Hst0 Hnormals. unfold Mesh.syncPoints.
  unfold bind at 1. rewrite Hpts. cbn [lift]. unfold ret at 1.
  destruct (Z.eqb_spec (Z.of_nat (length ipts)) 0) as [Hzero | _].
  - destruct ipts; [ contradiction | discriminate ].
  - unfold bind at 1. rewrite Htri. cbn [lift]. unfold ret at 1.
    rewrite (texcoordName_unauthored _ Hst Hst0). cbn [IsEmpty String.eqb negb].
    unfold bind at 1, ret at 1. unfold bind at 1.
    rewrite (ComputePrimvar_unauthored _ _ _ _ _ Hnormals).
    reflexivity.
Qed.
(** The bits of the initial mask are found set one after the other as the
    sync clears them in its order, and nothing is left at the end. *)
Lemma initial_mask_steps :
  rprim_bits_ok B = true ->
  let m0 := Mesh.GetInitialDirtyBitsMask B in
  let m1 := bits_and m0 (bits_not (DirtyPoints B)) in
  let m2 := bits_and m1 (bits_not (DirtyVisibility B)) in
  let m3 := bits_and m2 (bits_not (DirtyMaterialId B)) in
  let m4 := bits_and m3 (bits_not (DirtyTransform B)) in
  let m5 := bits_and m4 (bits_not (DirtyInstancer B)) in
  bits_test m0 (DirtyPoints B) = true
  /\ bits_test m1 (DirtyVisibility B) = true
  /\ bits_test m2 (DirtyMaterialId B) = true
  /\ bits_test m3 (DirtyTransform B) = true
  /\ bits_test m3 (DirtyInstancer B) = true
  /\ bits_test m4 (DirtyInstancer B) = true
  /\ m5 = 0.
Proof.
  intros Hok. pose proof Hok as Hmasks. destruct (rprim_bits_facts B Hok).
  unfold rprim_bits_ok in Hmasks. apply andb_true_iff in Hmasks.
  destruct Hmasks as [Hmasks _]. cbn [forallb rprim_bits] in Hmasks.
  rewrite !andb_true_iff in Hmasks.
  destruct Hmasks as (HP & HT' & HI & HV & HM & _).
  apply is_mask_range in HP, HT', HI, HV, HM.
  assert (Hcomm : forall a b, Z.land a b = 0 -> Z.land b a = 0)
    by (intros a b H; now rewrite Z.land_comm).
  cbv zeta. unfold Mesh.GetInitialDirtyBitsMask.
  repeat split.
  - apply bits_test_of_flag; [ lia | ].
    do 3 apply lor_keeps_flag. apply lor_has_flag_l.
  - apply bits_test_of_flag; [ lia | ].
    apply clear_keeps_flag; auto. apply lor_keeps_flag, lor_has_flag_r.
  - apply bits_test_of_flag; [ lia | ].
    repeat (apply clear_keeps_flag; auto). apply lor_has_flag_r.
  - apply bits_test_of_flag; [ lia | ].
    repeat (apply clear_keeps_flag; auto).
    do 3 apply lor_keeps_flag. apply lor_has_flag_r.
  - apply bits_test_of_flag; [ lia | ].
    repeat (apply clear_keeps_flag; auto).
    do 2 apply lor_keeps_flag. apply lor_has_flag_r.
  - apply bits_test_of_flag; [ lia | ].
    repeat (apply clear_keeps_flag; auto).
    do 2 apply lor_keeps_flag. apply lor_has_flag_r.
  - apply clear_all_five; assumption.
Qed.

(** C2, as the code has it.  A freshly constructed mesh entity without
    instancer is synced with the initial dirty mask, that is with the points,
    transform, instancer, visibility and material-binding bits.  Its points
    are the computed points when there are any, and the authored points
    otherwise; they are not empty, their triangle indices are in range, and
    no primvar is called st, st0 or normals.  Then the call returns with no
    dirty bit left and without a diagnostic; the renderer has received two
    calls: the creation of a mesh from the unindexed points with empty
    normals and texture coordinates, and the creation of one instance of that
    mesh; the entity holds that geometry handle and exactly that one instance
    handle. *)
Theorem first_sync_builds_one_instance
    (sceneDelegate : HdSceneDelegate) (renderParam : HdMoonshineRenderParam)
    (indeterminate_mesh : MeshHandle) (indeterminate_transform : GfMatrix4f)
    (w : World) (indexedPoints tri : list GfVec3f) :
  rprim_bits_ok B = true ->
  IsEmpty (GetInstancerId sceneDelegate) = true ->
  Mesh.computedPoints sceneDelegate = Some indexedPoints
  \/ (Mesh.computedPoints sceneDelegate = Some []
      /\ Get sceneDelegate Mesh.HdTokens_points = VtVec3fArray indexedPoints) ->
  indexedPoints <> [] ->
  Mesh.unindex indexedPoints (ComputeTriangleIndices sceneDelegate) = Some tri ->
  Mesh.FindPrimvarInterpolation sceneDelegate Mesh.tokens_st = None ->
  Mesh.FindPrimvarInterpolation sceneDelegate Mesh.tokens_st0 = None ->
  Mesh.FindPrimvarInterpolation sceneDelegate Mesh.tokens_normals = None ->
  let self :=
    Mesh.new_HdMoonshineMesh renderParam indeterminate_mesh indeterminate_transform in
  let mesh := next_handle (msne w) in
  let instance := S (next_handle (msne w)) in
  exists self' w',
    Mesh.Sync B sceneDelegate renderParam self (Mesh.GetInitialDirtyBitsMask B) w
      = Some ((self', 0), w')
    /\ Mesh._mesh self' = mesh
    /\ Mesh._instances self' = [instance]
    /\ calls (msne w') =
       calls (msne w) ++
       [ CreateMesh tri [] [] (Z.of_nat (length tri)) mesh;
         CreateInstance
           (Mesh.to_Mat3x4
              (GfMatrix4f_mul (GfMatrix4f_narrow (GetTransform sceneDelegate))
                 GfMatrix4f_identity))
           mesh (Mesh._material self') (GetVisible sceneDelegate) instance ]
    /\ diagnostics w' = diagnostics w.
Proof.
  intros Hok Hid Hsource Hnonempty Htri Hst Hst0 Hnormals self mesh instance.
  destruct (initial_mask_steps Hok) as (HP & HV & HM & HTr & HI3 & HI & Hzero).
  assert (Hpts : Mesh.findIndexedPoints sceneDelegate = Some indexedPoints).
  { unfold Mesh.findIndexedPoints.
    destruct Hsource as [Hcomputed | [Hcomputed Hauthored]]; rewrite Hcomputed.
    - destruct indexedPoints; [ contradiction | reflexivity ].
    - now rewrite Hauthored. }
  unfold Mesh.Sync, HdChangeTracker.IsPrimvarDirty_points. rewrite HP.
  unfold bind at 1.
  rewrite (syncPoints_builds sceneDelegate self _ w _ tri Hpts Hnonempty Htri Hst Hst0
             Hnormals).
  match goal with
  | |- context [Mesh.syncAfterPoints B _ _ _ ?s1 ?d1 ?w1] =>
      rewrite (syncAfterPoints_rebuilds sceneDelegate renderParam true s1
                 (Mesh.set_instancesTransforms
                    (fst (Mesh.syncTransform B sceneDelegate
                       (fst (Mesh.syncMaterialId B sceneDelegate renderParam
                          (fst (Mesh.syncVisibility B sceneDelegate s1 d1))
                          (snd (Mesh.syncVisibility B sceneDelegate s1 d1))))
                       (snd (Mesh.syncMaterialId B sceneDelegate renderParam
                          (fst (Mesh.syncVisibility B sceneDelegate s1 d1))
                          (snd (Mesh.syncVisibility B sceneDelegate s1 d1))))))
                    [GfMatrix4f_identity])
                 d1 0 w1)
  end.
  - replace (HdChangeTracker.IsClean B 0) with true by reflexivity.
    rewrite syncVisibility_spec.
    unfold HdChangeTracker.IsVisibilityDirty. rewrite HV. cbn [fst snd].
    unfold Mesh.syncMaterialId. rewrite HM. cbn [fst snd].
    unfold Mesh.syncTransform, HdChangeTracker.IsTransformDirty. rewrite HTr. cbn [fst snd].
    destruct (IsEmpty (GetMaterialId sceneDelegate));
      [ | destruct (GetSprim sceneDelegate (GetMaterialId sceneDelegate)) ];
      (eexists _, _; split; [ reflexivity | ]);
      cbn; rewrite app_nil_r, <- app_assoc; repeat split.
  - reflexivity.
  - rewrite syncInstancer_spec, syncVisibility_spec.
    unfold HdChangeTracker.IsVisibilityDirty. rewrite HV. cbn [fst snd].
    unfold Mesh.syncMaterialId. rewrite HM. cbn [fst snd].
    unfold Mesh.syncTransform, HdChangeTracker.IsTransformDirty. rewrite HTr. cbn [fst snd].
    unfold HdChangeTracker.IsInstancerDirty. rewrite HI, Hid.
    cbv zeta in Hzero. rewrite Hzero. reflexivity.
Qed.
End Rebuild.

(** * The material entity *)

Section MaterialSync.
Context {HT : HostTypes}.
Variable B : DirtyBitValues.
Variable hio : HioApi.

(** C10.  When the params bit is set and the material resource is not a
    network map, or the network has no surface terminal, or the terminal node
    is not a UsdPreviewSurface, the sync call returns early: the dirty bits
    come back unchanged (so the params bit is still set), the renderer
    receives no call (so no material slot is modified), and the one
    diagnostic issued is not the ignored-dirty-bits report. *)
Theorem material_sync_returns_early
    (scene : MaterialScene) (renderParam : HdMoonshineRenderParam)
    (self : HdMoonshineMaterial) (dirtyBits : HdDirtyBits) (w : World) :
  bits_test dirtyBits (DirtyParams B) = true ->
  GetMaterialResource scene = ResourceOther
  \/ (exists network,
        GetMaterialResource scene = ResourceNetworkMap network
        /\ terminals network Material.HdMaterialTerminalTokens_surface = None)
  \/ (exists network connection node,
        GetMaterialResource scene = ResourceNetworkMap network
        /\ terminals network Material.HdMaterialTerminalTokens_surface = Some connection
        /\ nodes network (upstreamNode connection) = Some node
        /\ token_eqb (nodeTypeId node) Material.tokens_UsdPreviewSurface = false) ->
  exists e,
    Material.Sync B hio scene renderParam self dirtyBits w =
      Some (dirtyBits, {| msne := msne w; diagnostics := diagnostics w ++ [e] |})
    /\ bits_test dirtyBits (DirtyParams B) = true
    /\ (forall bits, e <> MaterialDirtyBitsIgnored bits).
Proof.
  intros Hdirty Hcause. unfold Material.Sync. rewrite Hdirty.
  destruct Hcause as [Hres | [(network & Hres & Hterm)
                             | (network & connection & node & Hres & Hterm & Hnode & Htype)]];
    rewrite Hres.
  - exists UnknownResourceType. (split; [ reflexivity | split; [ reflexivity | discriminate ] ]).
  - rewrite Hterm. exists NoSurfaceConnection. (split; [ reflexivity | split; [ reflexivity | discriminate ] ]).
  - rewrite Hterm. unfold bind at 1. rewrite Hnode. cbn [lift]. unfold ret at 1.
    rewrite Htype. cbn [negb].
    exists (UnknownNode (nodeTypeId node)). (split; [ reflexivity | split; [ reflexivity | discriminate ] ]).
Qed.
(** The three ways an input can fail are results of the loop body, each
    with its diagnostics, and none of them touches the renderer. *)
Lemma unknown_connection_is_a_result
    (scene : MaterialScene) (self : HdMoonshineMaterial) (network : HdMaterialNetwork2)
    (node : HdMaterialNode2) (sdrNode : SdrShaderNode) (inputName : TfToken) (w : World)
    (con : HdMaterialConnection2) (rest : list HdMaterialConnection2)
    (upstream : HdMaterialNode2) (upstreamSdr : SdrShaderNode) :
  inputConnections node inputName = Some (con :: rest) ->
  nodes network (upstreamNode con) = Some upstream ->
  GetShaderNodeByIdentifier scene (nodeTypeId upstream) = Some upstreamSdr ->
  token_eqb (GetRole upstreamSdr) Material.SdrNodeRole_Texture = false ->
  Material.syncInput hio scene self network node sdrNode inputName w =
  Some (false,
        {| msne := msne w;
           diagnostics := diagnostics w
                          ++ [UnknownConnection inputName (GetRole upstreamSdr)] |}).
Proof.
  intros Hcon Hup Hsdr Hrole. unfold Material.syncInput. rewrite Hcon.
  unfold bind at 1. cbn [hd_error lift]. unfold ret at 1.
  unfold bind at 1. rewrite Hup. cbn [lift]. unfold ret at 1.
  unfold bind at 1. rewrite Hsdr. cbn [lift]. unfold ret at 1.
  rewrite Hrole. reflexivity.
Qed.

Lemma unsupported_value_is_a_result
    (scene : MaterialScene) (handle : MaterialHandle) (name : TfToken) (value : VtValue)
    (swizzle : string) (colorSpace : TfToken) (debug_name : string) (w : World) :
  token_eqb name Material.tokens_ior = false ->
  token_eqb name Material.tokens_useSpecularWorkflow = false ->
  match value with
  | VtAssetPath _ | VtVec3f _ | VtFloat _ => False
  | _ => True
  end ->
  Material.SetTextureBasedOnValueAndName hio scene handle name value swizzle colorSpace
    debug_name w =
  Some (false,
        {| msne := msne w;
           diagnostics := diagnostics w
                          ++ [UnknownValueType value;
                              CouldNotParseTexture (debug_name ++ " " ++ name)%string] |}).
Proof.
  intros Hior Hspec Hvalue. unfold Material.SetTextureBasedOnValueAndName.
  rewrite Hior, Hspec.
  destruct value; try contradiction;
    unfold bind, Material.makeTexture, TF_CODING_ERROR, ret; cbn;
    now rewrite <- app_assoc.
Qed.

Lemma unsupported_format_is_a_result
    (scene : MaterialScene) (resolvedPath swizzle : string) (colorSpace dst : TfToken)
    (debug_name : string) (w : World) (image : HioImage) (pixel_count byte_count : Z)
    (read data : list uint8_t) (format : HioFormat) :
  OpenForReading scene resolvedPath = Some image ->
  int_mul (GetWidth image) (GetHeight image) = Some pixel_count ->
  int_mul pixel_count (GetBytesPerPixel image) = Some byte_count ->
  Read image (repeat Byte.x00 (Z.to_nat (Material.allocatedSize byte_count))) = Some read ->
  Material.normalizeComponents hio read swizzle dst pixel_count image (GetFormat image)
    = Some (data, format) ->
  Material.usdFormatToMsneFormat hio
    (HioGetFormat hio (HioGetComponentCount hio format) (HioGetHioType hio format)
       (token_eqb colorSpace Material.tokens_sRGB)) = None ->
  Material.makeTexture_asset hio scene resolvedPath swizzle colorSpace dst debug_name w =
  Some (None, {| msne := msne w; diagnostics := diagnostics w ++ [UnknownFormat] |}).
Proof.
  intros Hopen Hpixels Hbytes Hread Hnormal Hformat. unfold Material.makeTexture_asset.
  unfold bind at 1. rewrite Hopen. cbn [lift]. unfold ret at 1.
  unfold bind at 1. rewrite Hpixels. cbn [lift]. unfold ret at 1.
  unfold bind at 1. rewrite Hbytes. cbn [lift]. unfold ret at 1.
  unfold bind at 1. rewrite Hread. cbn [lift]. unfold ret at 1.
  unfold bind at 1. rewrite Hnormal. cbn [lift]. unfold ret at 1.
  rewrite Hformat. reflexivity.
Qed.








End MaterialSync.

(** * The RGB to RGBA pad *)

Section Buffers.

Lemma length_list_set {A : Type} (l : list A) (n : nat) (x : A) :
  length (list_set l n x) = length l.
Proof.
  revert n. induction l as [ | a l IH]; intros [ | n]; simpl; try reflexivity.
  now rewrite IH.
Qed.

Lemma nth_error_list_set_other {A : Type} (l : list A) (n m : nat) (x : A) :
  n <> m -> nth_error (list_set l n x) m = nth_error l m.
Proof.
  revert n m. induction l as [ | a l IH]; intros [ | n] [ | m] Hnm; simpl;
    try reflexivity; try contradiction.
  apply IH. congruence.
Qed.

Lemma to_size_t_small (z : Z) : 0 <= z < size_t_modulus -> to_size_t z = z.
Proof. intros Hz. unfold to_size_t. now apply Z.mod_small. Qed.

(** A byte copy inside the buffer keeps its length and every byte but the
    destination. *)
Lemma buf_copy_byte_spec (data : list uint8_t) (dst src : Z) :
  0 <= dst < Z.of_nat (length data) ->
  0 <= src < Z.of_nat (length data) ->
  exists out,
    buf_copy_byte data dst src = Some out
    /\ length out = length data
    /\ forall idx, idx <> dst -> buf_get out idx = buf_get data idx.
Proof.
  intros Hdst Hsrc. unfold buf_copy_byte, buf_get at 1.
  replace ((0 <=? src) && (src <? Z.of_nat (length data))) with true
    by (symmetry; apply andb_true_iff; split; [ apply Z.leb_le | apply Z.ltb_lt ]; lia).
  destruct (nth_error data (Z.to_nat src)) as [b | ] eqn:Hb;
    [ | apply nth_error_None in Hb; lia ].
  unfold buf_set.
  replace ((0 <=? dst) && (dst <? Z.of_nat (length data))) with true
    by (symmetry; apply andb_true_iff; split; [ apply Z.leb_le | apply Z.ltb_lt ]; lia).
  eexists. split; [ reflexivity | ]. split; [ apply length_list_set | ].
  intros idx Hidx. unfold buf_get. rewrite length_list_set.
  destruct ((0 <=? idx) && (idx <? Z.of_nat (length data))) eqn:Hin; [ | reflexivity ].
  apply andb_true_iff in Hin. destruct Hin as [H0 H1].
  apply Z.leb_le in H0. apply nth_error_list_set_other. lia.
Qed.

(** The inner loop on pixel [i] writes inside the slot of that pixel only. *)
Lemma rgbToRgba_pixel_spec (m : nat) (j : Z) (data : list uint8_t) (i s t : Z) :
  0 <= i -> 0 <= j -> j + Z.of_nat m <= s -> s <= t ->
  t * (i + 1) <= Z.of_nat (length data) ->
  Z.of_nat (length data) < size_t_modulus ->
  exists out,
    rgbToRgba_pixel m j data i s t = Some out
    /\ length out = length data
    /\ forall idx, t * (i + 1) <= idx -> buf_get out idx = buf_get data idx.
Proof.
  revert j data. induction m as [ | m IH]; intros j data Hi Hj Hjm Hst Hlen Hmax.
  - exists data. repeat split.
  - cbn [rgbToRgba_pixel].
    assert (Hsi : 0 <= s * i <= t * i) by nia.
    assert (Hti : t * i + s <= Z.of_nat (length data)) by nia.
    rewrite (to_size_t_small (t * i)), (to_size_t_small (s * i)) by nia.
    rewrite (to_size_t_small (t * i + j)), (to_size_t_small (s * i + j)) by nia.
    destruct (buf_copy_byte_spec data (t * i + j) (s * i + j)) as (d1 & E1 & L1 & K1);
      [ nia | nia | ].
    rewrite E1.
    destruct (IH (j + 1) d1) as (out & E & L & K); try lia; [ rewrite L1; lia .. | ].
    exists out. split; [ exact E | ]. split; [ congruence | ].
    intros idx Hidx. rewrite K by exact Hidx. apply K1. nia.
Qed.

(** The outer loop entered with [k] touches nothing from the slot of pixel
    [k] on. *)
Lemma rgbToRgba_loop_spec (k : nat) (data : list uint8_t) (s t : Z) :
  0 < s <= t ->
  t * Z.of_nat k <= Z.of_nat (length data) ->
  Z.of_nat (length data) < size_t_modulus ->
  exists out,
    rgbToRgba_loop k data s t = Some out
    /\ length out = length data
    /\ forall idx, t * Z.of_nat k <= idx -> buf_get out idx = buf_get data idx.
Proof.
  revert data. induction k as [ | k IH]; intros data Hst Hlen Hmax.
  - exists data. repeat split.
  - cbn [rgbToRgba_loop].
    destruct (rgbToRgba_pixel_spec (Z.to_nat s) 0 data (Z.of_nat k) s t)
      as (d1 & E1 & L1 & K1); try lia.
    rewrite E1.
    destruct (IH d1) as (out & E & L & K); try lia; [ rewrite L1; nia .. | ].
    exists out. split; [ exact E | ]. split; [ congruence | ].
    intros idx Hidx. rewrite K by nia. apply K1. lia.
Qed.

(** C3, where the code departs from it.  On a buffer that holds [n >= 1]
    padded pixels, the pad returns a buffer of the same length in which every
    byte from the slot of the last pixel on is the byte the input had there:
    the loop starts below the last pixel, which is never moved.  For
    [n >= 2] that slot therefore does not hold the components of the last
    source pixel unless the input already had them there. *)
Theorem rgbToRgba_never_moves_last_pixel (data : list uint8_t) (n s t : Z) :
  1 <= n -> 0 < s <= t ->
  t * n <= Z.of_nat (length data) ->
  Z.of_nat (length data) < size_t_modulus ->
  exists out,
    rgbToRgba data n s t = Some out
    /\ length out = length data
    /\ forall idx, t * (n - 1) <= idx -> buf_get out idx = buf_get data idx.
Proof.
  intros Hn Hst Hlen Hmax. unfold rgbToRgba.
  rewrite to_size_t_small by nia.
  destruct (rgbToRgba_loop_spec (Z.to_nat (n - 1)) data s t) as (out & E & L & K);
    try assumption; [ rewrite Z2Nat.id by lia; nia | ].
  exists out. split; [ exact E | ]. split; [ exact L | ].
  intros idx Hidx. apply K. rewrite Z2Nat.id by lia. exact Hidx.
Qed.
End Buffers.

(** * What is destroyed *)

Section Handles.
Context {HT : HostTypes}.

Lemma handles_from_le (cs : list Call) (n n' : nat) :
  handles_from n cs n' -> (n <= n')%nat.
Proof.
  revert n. induction cs as [ | c cs IH]; intros n H; cbn [handles_from] in H.
  - lia.
  - destruct (returned_handle c).
    + destruct H as [_ H]. apply IH in H. lia.
    + now apply IH.
Qed.

Lemma handles_from_range (cs : list Call) (n n' : nat) (c : Call) (h : nat) :
  handles_from n cs n' -> In c cs -> returned_handle c = Some h -> (n <= h < n')%nat.
Proof.
  revert n. induction cs as [ | c0 cs IH]; intros n H Hin Hret; [ contradiction | ].
  cbn [handles_from] in H. destruct Hin as [-> | Hin].
  - rewrite Hret in H. destruct H as [-> H]. apply handles_from_le in H. lia.
  - destruct (returned_handle c0).
    + destruct H as [_ H]. specialize (IH _ H Hin Hret). lia.
    + exact (IH _ H Hin Hret).
Qed.

Lemma handles_from_unique (cs : list Call) (n n' : nat) (c c' : Call) (h : nat) :
  handles_from n cs n' -> In c cs -> In c' cs ->
  returned_handle c = Some h -> returned_handle c' = Some h -> c = c'.
Proof.
  revert n. induction cs as [ | c0 cs IH]; intros n H Hin Hin' Hret Hret';
    [ contradiction | ].
  cbn [handles_from] in H.
  destruct Hin as [-> | Hin], Hin' as [-> | Hin']; try reflexivity.
  - rewrite Hret in H. destruct H as [-> H].
    pose proof (handles_from_range _ _ _ _ _ H Hin' Hret'). lia.
  - rewrite Hret' in H. destruct H as [-> H].
    pose proof (handles_from_range _ _ _ _ _ H Hin Hret). lia.
  - destruct (returned_handle c0).
    + destruct H as [_ H]. exact (IH _ H Hin Hin' Hret Hret').
    + exact (IH _ H Hin Hin' Hret Hret').
Qed.

Lemma handles_from_app (cs1 cs2 : list Call) (n n1 n2 : nat) :
  handles_from n cs1 n1 -> handles_from n1 cs2 n2 -> handles_from n (cs1 ++ cs2) n2.
Proof.
  revert n. induction cs1 as [ | c cs1 IH]; intros n H1 H2; cbn [handles_from app] in *.
  - now subst.
  - destruct (returned_handle c).
    + destruct H1 as [-> H1]. split; [ reflexivity | ]. now apply IH.
    + now apply IH.
Qed.

(** Calls that return no handle leave the supply alone. *)
Lemma handles_from_none (cs : list Call) (n : nat) :
  Forall (fun c => returned_handle c = None) cs -> handles_from n cs n.
Proof.
  induction 1 as [ | c cs Hc _ IH]; cbn [handles_from]; [ reflexivity | ].
  now rewrite Hc.
Qed.

(** Creation calls with consecutive handles. *)
Lemma handles_from_created {A : Type} (f : A -> nat -> Call) (l : list A) (n : nat) :
  (forall a h, returned_handle (f a h) = Some h) ->
  handles_from n (map (fun ah : A * nat => f (fst ah) (snd ah))
                      (combine l (seq n (length l)))) (n + length l).
Proof.
  intros Hf. revert n. induction l as [ | a l IH]; intros n; cbn.
  - lia.
  - rewrite Hf. split; [ reflexivity | ].
    rewrite <- Nat.add_succ_comm. apply IH.
Qed.

(** ** Rules for [emits] *)

Lemma emits_ret {A : Type} (P : Call -> Prop) (a : A) : emits P (ret a).
Proof.
  intros w a' w' H. unfold ret in H. injection H as <- <-.
  exists []. rewrite app_nil_r. repeat split. constructor.
Qed.

Lemma emits_undefined {A : Type} (P : Call -> Prop) : emits P (@undefined _ A).
Proof. intros w a w' H. discriminate. Qed.

Lemma emits_lift {A : Type} (P : Call -> Prop) (o : option A) : emits P (lift o).
Proof. destruct o; [ apply emits_ret | apply emits_undefined ]. Qed.

Lemma emits_TF_CODING_ERROR (P : Call -> Prop) (d : Diagnostic) :
  emits P (TF_CODING_ERROR d).
Proof.
  intros w a w' H. unfold TF_CODING_ERROR in H. injection H as <- <-.
  exists []. cbn. rewrite app_nil_r. repeat split. constructor.
Qed.

Lemma emits_call (P : Call -> Prop) (c : Call) :
  returned_handle c = None -> P c -> emits P (call c).
Proof.
  intros Hret HP w a w' H. unfold call in H. injection H as <- <-.
  exists [c]. cbn. rewrite Hret. repeat split. now constructor.
Qed.

Lemma emits_create (P : Call -> Prop) (f : nat -> Call) :
  (forall h, returned_handle (f h) = Some h) -> (forall h, P (f h)) -> emits P (create f).
Proof.
  intros Hret HP w a w' H. unfold create in H. injection H as <- <-.
  exists [f (next_handle (msne w))]. cbn. rewrite Hret. repeat split.
  constructor; [ apply HP | constructor ].
Qed.

Lemma emits_bind {A C : Type} (P : Call -> Prop) (m : M A) (f : A -> M C) :
  emits P m -> (forall a, emits P (f a)) -> emits P (bind m f).
Proof.
  intros Hm Hf w c w' H. apply bind_inv in H. destruct H as (a & w1 & E1 & E2).
  destruct (Hm _ _ _ E1) as (cs1 & L1 & F1 & P1).
  destruct (Hf a _ _ _ E2) as (cs2 & L2 & F2 & P2).
  exists (cs1 ++ cs2). split; [ now rewrite L2, L1, app_assoc | ].
  split; [ exact (handles_from_app _ _ _ _ _ F1 F2) | ].
  apply Forall_app. now split.
Qed.

Lemma emits_mapM {A R : Type} (P : Call -> Prop) (f : A -> M R) (l : list A) :
  (forall a, emits P (f a)) -> emits P (mapM f l).
Proof.
  intros Hf. induction l as [ | a l IH]; cbn [mapM].
  - apply emits_ret.
  - apply emits_bind; [ apply Hf | ]. intros r.
    apply emits_bind; [ exact IH | ]. intros rs. apply emits_ret.
Qed.

Lemma emits_forM {A : Type} (P : Call -> Prop) (f : A -> M unit) (l : list A) :
  (forall a, In a l -> emits P (f a)) -> emits P (forM f l).
Proof.
  induction l as [ | a l IH]; intros Hf; cbn [forM].
  - apply emits_ret.
  - apply emits_bind; [ apply Hf; now left | ]. intros _.
    apply IH. intros a' Hin. apply Hf. now right.
Qed.

Lemma emits_weaken {A : Type} (P Q : Call -> Prop) (m : M A) :
  (forall c, P c -> Q c) -> emits P m -> emits Q m.
Proof.
  intros HPQ Hm w a w' H. destruct (Hm _ _ _ H) as (cs & L & F & HP).
  exists cs. repeat split; try assumption.
  eapply Forall_impl; [ exact HPQ | exact HP ].
Qed.
End Handles.

(** One step of the syntax-directed proof that a computation emits only calls
    that satisfy a property. *)
Ltac emits_step :=
  match goal with
  | |- emits _ (bind _ _) => apply emits_bind; [ | intros ? ]
  | |- emits _ (ret _) => apply emits_ret
  | |- emits _ (lift _) => apply emits_lift
  | |- emits _ undefined => apply emits_undefined
  | |- emits _ (TF_CODING_ERROR _) => apply emits_TF_CODING_ERROR
  | |- emits _ (call _) => apply emits_call; [ reflexivity | ]
  | |- emits _ (create _) => apply emits_create; [ intros ?; reflexivity | intros ? ]
  | |- emits _ (mapM _ _) => apply emits_mapM; intros ?
  | |- emits _ (if ?b then _ else _) => destruct b
  | |- emits _ (match ?x with _ => _ end) => destruct x
  | |- emits _ (let '(_, _) := ?x in _) => destruct x
  end.

Section MaterialLog.
Context {HT : HostTypes}.
Variable B : DirtyBitValues.
Variable hio : HioApi.

(** Nothing the material side calls destroys anything. *)
Lemma makeTexture_emits (scene : MaterialScene) (value : VtValue) (swizzle : string)
    (colorSpace dst : TfToken) (debug_name : string) :
  emits (fun c => destroyed_handle c = None)
        (Material.makeTexture hio scene value swizzle colorSpace dst debug_name).
Proof.
  unfold Material.makeTexture, Material.makeTexture_asset.
  destruct value as [ | f | [[v0 v1] v2] | a | a | t | path | name ];
    repeat (emits_step; try reflexivity).
Qed.

Lemma SetTextureBasedOnValueAndName_emits (scene : MaterialScene) (handle : MaterialHandle)
    (name : TfToken) (value : VtValue) (swizzle : string) (colorSpace : TfToken)
    (debug_name : string) :
  emits (fun c => destroyed_handle c = None)
        (Material.SetTextureBasedOnValueAndName hio scene handle name value swizzle
           colorSpace debug_name).
Proof.
  unfold Material.SetTextureBasedOnValueAndName.
  repeat first [ apply makeTexture_emits | emits_step; try reflexivity ].
Qed.

Lemma syncInput_emits (scene : MaterialScene) (self : HdMoonshineMaterial)
    (network : HdMaterialNetwork2) (node : HdMaterialNode2) (sdrNode : SdrShaderNode)
    (inputName : TfToken) :
  emits (fun c => destroyed_handle c = None)
        (Material.syncInput hio scene self network node sdrNode inputName).
Proof.
  unfold Material.syncInput.
  repeat first [ apply SetTextureBasedOnValueAndName_emits | emits_step; try reflexivity ].
Qed.

Lemma material_Sync_emits (scene : MaterialScene) (renderParam : HdMoonshineRenderParam)
    (self : HdMoonshineMaterial) (dirtyBits : HdDirtyBits) :
  emits (fun c => destroyed_handle c = None)
        (Material.Sync B hio scene renderParam self dirtyBits).
Proof.
  unfold Material.Sync, Material.syncInputs, Material.reportIgnored.
  repeat first [ apply syncInput_emits | emits_step; try reflexivity ].
Qed.

Lemma new_HdMoonshineMaterial_emits (renderParam : HdMoonshineRenderParam) :
  emits (fun c => destroyed_handle c = None)
        (Material.new_HdMoonshineMaterial renderParam).
Proof.
  unfold Material.new_HdMoonshineMaterial. repeat (emits_step; try reflexivity).
Qed.

Lemma new_HdMoonshineRenderParam_emits :
  emits (fun c => destroyed_handle c = None) new_HdMoonshineRenderParam.
Proof.
  unfold new_HdMoonshineRenderParam. repeat (emits_step; try reflexivity).
Qed.
End MaterialLog.

Section MeshLog.
Context {HT : HostTypes}.
Variable B : DirtyBitValues.

Lemma ComputePrimvar_emits {T : Type} (P : Call -> Prop)
    (holds : VtValue -> option (list T)) (sceneDelegate : HdSceneDelegate)
    (indices : list GfVec3i) (name : TfToken) :
  emits P (Mesh.ComputePrimvar holds sceneDelegate indices name).
Proof. unfold Mesh.ComputePrimvar. repeat emits_step. Qed.

(** The geometry step creates at most a mesh. *)
Lemma syncPoints_emits (sceneDelegate : HdSceneDelegate) (self : Mesh.HdMoonshineMesh)
    (dirtyBits : HdDirtyBits) :
  emits (fun c => destroyed_handle c = None /\ creates_instance c = false)
        (Mesh.syncPoints B sceneDelegate self dirtyBits).
Proof.
  unfold Mesh.syncPoints.
  repeat first [ apply ComputePrimvar_emits | emits_step; try (split; reflexivity) ].
Qed.

(** The in-place updates destroy and create nothing. *)
Lemma updateTransforms_emits (self : Mesh.HdMoonshineMesh) (i : nat)
    (ts : list GfMatrix4f) :
  emits (fun c => destroyed_handle c = None /\ creates_instance c = false)
        (Mesh.updateTransforms self i ts).
Proof.
  revert i. induction ts as [ | t ts IH]; intros i; cbn [Mesh.updateTransforms].
  - apply emits_ret.
  - repeat first [ apply IH | emits_step; try (split; reflexivity) ].
Qed.

Lemma updateInstances_emits (self : Mesh.HdMoonshineMesh)
    (transform_changed old_visibility new_visibility : bool) :
  emits (fun c => destroyed_handle c = None /\ creates_instance c = false)
        (Mesh.updateInstances self transform_changed old_visibility new_visibility).
Proof.
  unfold Mesh.updateInstances.
  repeat first [ apply updateTransforms_emits
               | apply emits_forM; intros ? _
               | emits_step; try (split; reflexivity) ].
Qed.

(** The three pure steps keep the instance handles. *)
Lemma syncVisibility_instances (sceneDelegate : HdSceneDelegate)
    (self : Mesh.HdMoonshineMesh) (dirtyBits : HdDirtyBits) :
  Mesh._instances (fst (Mesh.syncVisibility B sceneDelegate self dirtyBits))
  = Mesh._instances self.
Proof.
  rewrite syncVisibility_spec.
  now destruct (HdChangeTracker.IsVisibilityDirty B dirtyBits).
Qed.

Lemma syncMaterialId_instances (sceneDelegate : HdSceneDelegate)
    (renderParam : HdMoonshineRenderParam) (self : Mesh.HdMoonshineMesh)
    (dirtyBits : HdDirtyBits) :
  Mesh._instances (fst (Mesh.syncMaterialId B sceneDelegate renderParam self dirtyBits))
  = Mesh._instances self.
Proof.
  unfold Mesh.syncMaterialId.
  destruct (bits_test dirtyBits (DirtyMaterialId B)); [ | reflexivity ].
  destruct (IsEmpty (GetMaterialId sceneDelegate)); [ reflexivity | ].
  now destruct (GetSprim sceneDelegate (GetMaterialId sceneDelegate)).
Qed.

Lemma syncTransform_instances (sceneDelegate : HdSceneDelegate)
    (self : Mesh.HdMoonshineMesh) (dirtyBits : HdDirtyBits) :
  Mesh._instances (fst (Mesh.syncTransform B sceneDelegate self dirtyBits))
  = Mesh._instances self.
Proof.
  unfold Mesh.syncTransform.
  now destruct (HdChangeTracker.IsTransformDirty B dirtyBits).
Qed.

Lemma syncInstancer_instances (sceneDelegate : HdSceneDelegate) (instancerId : SdfPath)
    (self s4 : Mesh.HdMoonshineMesh) (dirtyBits d4 : HdDirtyBits) (w w1 : World) :
  Mesh.syncInstancer B sceneDelegate instancerId self dirtyBits w = Some ((s4, d4), w1) ->
  w1 = w /\ Mesh._instances s4 = Mesh._instances self.
Proof.
  rewrite syncInstancer_spec.
  destruct (HdChangeTracker.IsInstancerDirty B dirtyBits).
  - destruct (IsEmpty instancerId).
    + intros H. injection H as <- <- <-. now split.
    + destruct (GetInstancer sceneDelegate instancerId); [ | discriminate ].
      intros H. injection H as <- <- <-. now split.
  - intros H. injection H as <- <- <-. now split.
Qed.
Lemma in_combine_r_inv {A C : Type} (l : list A) (l' : list C) (b : C) :
  length l = length l' -> In b l' -> exists a, In (a, b) (combine l l').
Proof.
  revert l'. induction l as [ | a l IH]; intros [ | b' l'] Hlen Hin;
    try discriminate; try contradiction.
  destruct Hin as [-> | Hin].
  - exists a. now left.
  - destruct (IH l' ltac:(simpl in Hlen; lia) Hin) as (a' & Ha'). exists a'. now right.
Qed.

(** The closing report touches the diagnostics only. *)
Lemma report_msne {A : Type} (dirtyBits : HdDirtyBits) (a r : A) (w w' : World) :
  bind (if negb (HdChangeTracker.IsClean B dirtyBits)
        then TF_CODING_ERROR (MeshDirtyBitsIgnored dirtyBits)
        else ret tt) (fun _ => ret a) w = Some (r, w') ->
  r = a /\ msne w' = msne w.
Proof.
  destruct (negb (HdChangeTracker.IsClean B dirtyBits));
    unfold bind, TF_CODING_ERROR, ret; intros H; injection H as <- <-; now split.
Qed.

(** Everything after the geometry: the handles destroyed were held on entry,
    the handles held on exit were held on entry or have just been returned
    by an instance creation. *)
Lemma syncAfterPoints_trace (sceneDelegate : HdSceneDelegate)
    (renderParam : HdMoonshineRenderParam) (mesh_changed : bool)
    (self self' : Mesh.HdMoonshineMesh) (dirtyBits dirtyBits' : HdDirtyBits)
    (w w' : World) :
  Mesh.syncAfterPoints B sceneDelegate renderParam mesh_changed self dirtyBits w
    = Some ((self', dirtyBits'), w') ->
  exists cs,
    calls (msne w') = calls (msne w) ++ cs
    /\ handles_from (next_handle (msne w)) cs (next_handle (msne w'))
    /\ (forall h, In (DestroyInstance h) cs -> In h (Mesh._instances self))
    /\ (forall h, In h (Mesh._instances self') ->
                  In h (Mesh._instances self)
                  \/ exists c, In c cs /\ creates_instance c = true
                               /\ returned_handle c = Some h).
Proof.
  intros H. unfold Mesh.syncAfterPoints in H.
  pose proof (syncVisibility_instances sceneDelegate self dirtyBits) as I1.
  destruct (Mesh.syncVisibility B sceneDelegate self dirtyBits) as [s1 d1].
  pose proof (syncMaterialId_instances sceneDelegate renderParam s1 d1) as I2.
  destruct (Mesh.syncMaterialId B sceneDelegate renderParam s1 d1) as [s2 d2].
  pose proof (syncTransform_instances sceneDelegate s2 d2) as I3.
  destruct (Mesh.syncTransform B sceneDelegate s2 d2) as [s3 d3].
  cbn [fst] in I1, I2, I3.
  apply bind_inv in H. destruct H as ([s4 d4] & w1 & Hinst & H).
  apply syncInstancer_instances in Hinst. destruct Hinst as [-> I4].
  assert (Hheld : Mesh._instances s4 = Mesh._instances self) by congruence.
  apply bind_inv in H. destruct H as (s5 & w2 & Hupd & H).
  apply report_msne in H. destruct H as [E Hw]. injection E as <- <-.
  rewrite Hw. clear Hw w'.
  destruct (mesh_changed || false || bits_test d1 (DirtyMaterialId B)).
  - rewrite recreateInstances_spec in Hupd. injection Hupd as <- <-.
    cbn [msne calls next_handle Mesh._instances Mesh.set_instances].
    eexists. split; [ reflexivity | ]. split; [ | split ].
    + eapply handles_from_app.
      * apply handles_from_none. apply Forall_forall. intros c Hc.
        apply in_map_iff in Hc. now destruct Hc as (h & <- & _).
      * apply (handles_from_created
                 (fun t h => CreateInstance
                               (Mesh.to_Mat3x4 (GfMatrix4f_mul (Mesh._transform s4) t))
                               (Mesh._mesh s4) (Mesh._material s4) (Mesh.IsVisible s1) h)).
        reflexivity.
    + intros h Hin. apply in_app_or in Hin. destruct Hin as [Hin | Hin].
      * apply in_map_iff in Hin. destruct Hin as (h' & E & Hin).
        injection E as ->. now rewrite <- Hheld.
      * apply in_map_iff in Hin. destruct Hin as (th & E & _). discriminate.
    + intros h Hin. right.
      destruct (in_combine_r_inv (Mesh._instancesTransforms s4) _ h
                  ltac:(now rewrite length_seq) Hin) as (t & Ht).
      eexists. split; [ | split ].
      * apply in_or_app. right. apply in_map_iff. exists (t, h). split; [ reflexivity | exact Ht ].
      * reflexivity.
      * reflexivity.
  - apply bind_inv in Hupd. destruct Hupd as ([] & w3 & Hupd & E).
    unfold ret in E. injection E as <- <-.
    destruct (updateInstances_emits _ _ _ _ _ _ _ Hupd) as (cs & L & F & HP).
    exists cs. split; [ exact L | ]. split; [ exact F | ]. split.
    + intros h Hin. rewrite Forall_forall in HP. apply HP in Hin.
      destruct Hin as [Hin _]. discriminate.
    + intros h Hin. left. now rewrite <- Hheld.
Qed.

(** A sync call of the mesh entity: the same, for the whole call. *)
Lemma mesh_Sync_trace (sceneDelegate : HdSceneDelegate)
    (renderParam : HdMoonshineRenderParam)
    (self self' : Mesh.HdMoonshineMesh) (dirtyBits dirtyBits' : HdDirtyBits)
    (w w' : World) :
  Mesh.Sync B sceneDelegate renderParam self dirtyBits w = Some ((self', dirtyBits'), w') ->
  exists cs,
    calls (msne w') = calls (msne w) ++ cs
    /\ handles_from (next_handle (msne w)) cs (next_handle (msne w'))
    /\ (forall h, In (DestroyInstance h) cs -> In h (Mesh._instances self))
    /\ (forall h, In h (Mesh._instances self') ->
                  In h (Mesh._instances self)
                  \/ exists c, In c cs /\ creates_instance c = true
                               /\ returned_handle c = Some h).
Proof.
  intros H. unfold Mesh.Sync in H.
  apply bind_inv in H. destruct H as (geometry & w1 & Hgeo & H).
  assert (Hstep : exists cs0,
             calls (msne w1) = calls (msne w) ++ cs0
             /\ handles_from (next_handle (msne w)) cs0 (next_handle (msne w1))
             /\ Forall (fun c => destroyed_handle c = None /\ creates_instance c = false) cs0
             /\ forall s1 d1, geometry = Some (s1, d1) ->
                              Mesh._instances s1 = Mesh._instances self).
  { destruct (HdChangeTracker.IsPrimvarDirty_points B dirtyBits).
    - destruct (syncPoints_emits _ _ _ _ _ _ Hgeo) as (cs0 & L & F & HP).
      exists cs0. repeat split; try assumption.
      intros s1 d1 ->. apply syncPoints_completes in Hgeo.
      destruct Hgeo as [-> _]. reflexivity.
    - unfold ret in Hgeo. injection Hgeo as <- <-.
      exists []. rewrite app_nil_r. repeat split; [ constructor | ].
      intros s1 d1 E. now injection E as <- <-. }
  destruct Hstep as (cs0 & L0 & F0 & P0 & Hheld).
  rewrite Forall_forall in P0.
  destruct geometry as [[s1 d1] | ].
  - destruct (syncAfterPoints_trace _ _ _ _ _ _ _ _ _ H) as (cs & L & F & HD & HI).
    rewrite (Hheld s1 d1 eq_refl) in HD, HI.
    exists (cs0 ++ cs). split; [ now rewrite L, L0, app_assoc | ].
    split; [ exact (handles_from_app _ _ _ _ _ F0 F) | ]. split.
    + intros h Hin. apply in_app_or in Hin. destruct Hin as [Hin | Hin].
      * apply P0 in Hin. destruct Hin as [Hin _]. discriminate.
      * now apply HD.
    + intros h Hin. destruct (HI h Hin) as [Hold | (c & Hc & Hci & Hcr)].
      * now left.
      * right. exists c. split; [ apply in_or_app; now right | now split ].
  - unfold ret in H. injection H as <- <- <-.
    exists cs0. split; [ exact L0 | ]. split; [ exact F0 | ]. split.
    + intros h Hin. apply P0 in Hin. destruct Hin as [Hin _]. discriminate.
    + intros h Hin. now left.
Qed.
End MeshLog.

Section SessionLog.
Context {HT : HostTypes}.
Variable B : DirtyBitValues.
Variable hio : HioApi.

(** The invariant of the log survives a step that destroys only held
    handles and that adds only freshly created instance handles to the held
    ones. *)
Lemma log_invariant_step (w w' : World) (held held' : list InstanceHandle)
    (cs : list Call) :
  log_invariant w held ->
  calls (msne w') = calls (msne w) ++ cs ->
  handles_from (next_handle (msne w)) cs (next_handle (msne w')) ->
  (forall h, In (DestroyInstance h) cs -> In h held) ->
  (forall h, In h held' ->
             In h held
             \/ exists c, In c cs /\ creates_instance c = true
                          /\ returned_handle c = Some h) ->
  log_invariant w' held'.
Proof.
  intros (J1 & J2 & J3) L F HD HI.
  pose proof (handles_from_le _ _ _ F) as Hle.
  assert (Hold : forall h,
             (h < next_handle (msne w))%nat ->
             (forall c, In c (calls (msne w)) -> returned_handle c = Some h ->
                        creates_instance c = true) ->
             (h < next_handle (msne w'))%nat
             /\ forall c, In c (calls (msne w')) -> returned_handle c = Some h ->
                          creates_instance c = true).
  { intros h Hlt Hlog. split; [ lia | ].
    intros c Hin Hret. rewrite L in Hin. apply in_app_or in Hin.
    destruct Hin as [Hin | Hin]; [ now apply Hlog | ].
    pose proof (handles_from_range _ _ _ _ _ F Hin Hret). lia. }
  unfold log_invariant. split; [ | split ].
  - intros c h Hin Hret. rewrite L in Hin. apply in_app_or in Hin.
    destruct Hin as [Hin | Hin].
    + specialize (J1 _ _ Hin Hret). lia.
    + pose proof (handles_from_range _ _ _ _ _ F Hin Hret). lia.
  - intros h Hin. destruct (HI h Hin) as [Hheld | (c0 & Hc0 & Hci & Hcr)].
    + destruct (J2 h Hheld) as [Hlt Hlog]. now apply Hold.
    + pose proof (handles_from_range _ _ _ _ _ F Hc0 Hcr) as Hrange.
      split; [ lia | ].
      intros c Hc Hret. rewrite L in Hc. apply in_app_or in Hc.
      destruct Hc as [Hc | Hc].
      * specialize (J1 _ _ Hc Hret). lia.
      * now rewrite (handles_from_unique _ _ _ _ _ _ F Hc Hc0 Hret Hcr).
  - intros h Hin. rewrite L in Hin. apply in_app_or in Hin.
    destruct Hin as [Hin | Hin].
    + destruct (J3 h Hin) as [Hlt Hlog]. now apply Hold.
    + destruct (J2 h (HD h Hin)) as [Hlt Hlog]. now apply Hold.
Qed.

(** A step that destroys nothing and leaves the held handles alone. *)
Lemma log_invariant_quiet {A : Type} (m : M A) (w w' : World) (a : A)
    (held : list InstanceHandle) :
  emits (fun c => destroyed_handle c = None) m ->
  m w = Some (a, w') ->
  log_invariant w held -> log_invariant w' held.
Proof.
  intros Hm E J. destruct (Hm _ _ _ E) as (cs & L & F & HP).
  rewrite Forall_forall in HP.
  apply (log_invariant_step w w' held held cs J L F).
  - intros h Hin. apply HP in Hin. discriminate.
  - intros h Hin. now left.
Qed.

Lemma run_invariant (renderParam : HdMoonshineRenderParam)
    (material : HdMoonshineMaterial) (syncs : list Session.SyncCall)
    (mesh mesh' : Mesh.HdMoonshineMesh) (w w' : World) :
  log_invariant w (Mesh._instances mesh) ->
  Session.run B hio renderParam mesh material syncs w = Some (mesh', w') ->
  log_invariant w' (Mesh._instances mesh').
Proof.
  revert mesh w. induction syncs as [ | [sceneDelegate dirtyBits | scene dirtyBits] syncs IH];
    intros mesh w J H; cbn [Session.run] in H.
  - unfold ret in H. injection H as <- <-. exact J.
  - apply bind_inv in H. destruct H as ([mesh1 d1] & w1 & Hsync & H).
    destruct (mesh_Sync_trace B _ _ _ _ _ _ _ _ Hsync) as (cs & L & F & HD & HI).
    apply (IH mesh1 w1); [ | exact H ].
    exact (log_invariant_step w w1 _ _ cs J L F HD HI).
  - apply bind_inv in H. destruct H as (d1 & w1 & Hsync & H).
    apply (IH mesh w1); [ | exact H ].
    exact (log_invariant_quiet _ w w1 d1 _
             (material_Sync_emits B hio scene renderParam material dirtyBits) Hsync J).
Qed.

(** C9.  In the log of a session (the render parameter, a material entity
    and a mesh entity are constructed, then the host syncs them any number of
    times in any order), every handle that was passed to the one destruction
    call of the renderer had been returned by an instance creation: a
    creation call whose handle is destroyed later or earlier in the log never
    is a mesh creation or a texture creation.  So the geometry handle a mesh
    entity overwrites and the texture handles a material slot overwrites are
    never released. *)
Theorem only_instance_handles_are_destroyed
    (indeterminate_mesh : MeshHandle) (indeterminate_transform : GfMatrix4f)
    (syncs : list Session.SyncCall) (mesh : Mesh.HdMoonshineMesh) (w : World) :
  Session.session B hio indeterminate_mesh indeterminate_transform syncs
    Session.initial_world = Some (mesh, w) ->
  forall c h,
    In c (calls (msne w)) ->
    returned_handle c = Some h ->
    In (DestroyInstance h) (calls (msne w)) ->
    creates_instance c = true /\ creates_mesh_or_texture c = false.
Proof.
  intros H c h Hc Hret Hdestroyed. unfold Session.session in H.
  apply bind_inv in H. destruct H as (renderParam & w1 & Hparam & H).
  apply bind_inv in H. destruct H as (material & w2 & Hmaterial & H).
  assert (J0 : log_invariant Session.initial_world []).
  { unfold log_invariant, Session.initial_world. cbn. repeat split; contradiction. }
  pose proof (log_invariant_quiet _ _ _ _ _ new_HdMoonshineRenderParam_emits Hparam J0) as J1.
  pose proof (log_invariant_quiet _ _ _ _ _
                (new_HdMoonshineMaterial_emits renderParam) Hmaterial J1) as J2.
  pose proof (run_invariant renderParam material syncs
                (Mesh.new_HdMoonshineMesh renderParam indeterminate_mesh
                   indeterminate_transform) mesh w2 w J2 H) as (_ & _ & J).
  destruct (J h Hdestroyed) as [_ Hlog].
  specialize (Hlog c Hc Hret).
  split; [ exact Hlog | ]. now destruct c.
Qed.
End SessionLog.

(** * Copies inside one buffer *)

Section Copies.

Lemma nth_error_list_set_same {A : Type} (l : list A) (n : nat) (x : A) :
  (n < length l)%nat -> nth_error (list_set l n x) n = Some x.
Proof.
  revert n. induction l as [ | a l IH]; intros [ | n] Hn; simpl in *; try lia.
  - reflexivity.
  - apply IH. lia.
Qed.

(** A byte copy inside the buffer: the destination holds what the source
    held, every other byte is kept. *)
Lemma buf_copy_byte_full (data : list uint8_t) (dst src : Z) :
  0 <= dst < Z.of_nat (length data) ->
  0 <= src < Z.of_nat (length data) ->
  exists out,
    buf_copy_byte data dst src = Some out
    /\ length out = length data
    /\ buf_get out dst = buf_get data src
    /\ forall idx, idx <> dst -> buf_get out idx = buf_get data idx.
Proof.
  intros Hdst Hsrc.
  destruct (buf_copy_byte_spec data dst src Hdst Hsrc) as (out & E & L & K).
  exists out. split; [ exact E | ]. split; [ exact L | ]. split; [ | exact K ].
  unfold buf_copy_byte in E.
  destruct (buf_get data src) as [b | ] eqn:Hb.
  - unfold buf_set in E.
    destruct ((0 <=? dst) && (dst <? Z.of_nat (length data))); [ | discriminate ].
    injection E as <-. unfold buf_get. rewrite length_list_set.
    replace ((0 <=? dst) && (dst <? Z.of_nat (length data))) with true
      by (symmetry; apply andb_true_iff; split; [ apply Z.leb_le | apply Z.ltb_lt ]; lia).
    apply nth_error_list_set_same. lia.
  - discriminate.
Qed.

(** Outside the buffer nothing is read. *)
Lemma buf_get_outside (data : list uint8_t) (i : Z) :
  i < 0 \/ Z.of_nat (length data) <= i -> buf_get data i = None.
Proof.
  intros Hi. unfold buf_get.
  destruct (Z.leb_spec 0 i), (Z.ltb_spec i (Z.of_nat (length data))); try reflexivity; lia.
Qed.

(** A loop that copies [m] consecutive bytes from [q] on to [p] on, in
    increasing order.  Bytes outside the destination are kept; when the
    destination is not ahead of the source, or lies wholly beyond it, the
    destination receives the bytes the source held before the loop. *)
Lemma copy_row (dst src : Z -> Z) (m : nat) :
  forall (j : Z) (data : list uint8_t) (p q : Z),
    (forall k, 0 <= k < Z.of_nat m -> dst (j + k) = p + k /\ src (j + k) = q + k) ->
    0 <= p -> 0 <= q ->
    p + Z.of_nat m <= Z.of_nat (length data) ->
    q + Z.of_nat m <= Z.of_nat (length data) ->
    Z.of_nat (length data) < size_t_modulus ->
    exists out,
      for_range m j (fun j d => buf_copy_byte d (to_size_t (dst j)) (to_size_t (src j))) data
        = Some out
      /\ length out = length data
      /\ (forall idx, idx < p \/ p + Z.of_nat m <= idx -> buf_get out idx = buf_get data idx)
      /\ (p <= q \/ q + Z.of_nat m <= p ->
          forall k, 0 <= k < Z.of_nat m -> buf_get out (p + k) = buf_get data (q + k)).
Proof.
  induction m as [ | m IH]; intros j data p q HDS Hp Hq Hpm Hqm Hmax.
  - exists data. cbn [for_range]. repeat split. intros _ k Hk. lia.
  - cbn [for_range]. cbv beta.
    destruct (HDS 0 ltac:(lia)) as [HD0 HS0]. rewrite !Z.add_0_r in HD0, HS0.
    rewrite HD0, HS0, (to_size_t_small p), (to_size_t_small q) by lia.
    destruct (buf_copy_byte_full data p q) as (d1 & E1 & L1 & V1 & K1); [ lia | lia | ].
    rewrite E1.
    destruct (IH (j + 1) d1 (p + 1) (q + 1)) as (out & E & L & Kf & Kc);
      try lia; try (rewrite L1; lia).
    { intros k Hk. destruct (HDS (k + 1) ltac:(lia)) as [HDk HSk].
      rewrite <- Z.add_assoc, (Z.add_comm 1 k). split; lia. }
    exists out. split; [ exact E | ]. split; [ congruence | ]. split.
    + intros idx Hidx. rewrite Kf by lia. apply K1. lia.
    + intros Hpq k Hk.
      destruct (Z.eq_dec k 0) as [-> | Hk0].
      * rewrite !Z.add_0_r. rewrite Kf by lia. exact V1.
      * replace (p + k) with (p + 1 + (k - 1)) by lia.
        rewrite Kc by lia.
        replace (q + 1 + (k - 1)) with (q + k) by lia.
        apply K1. lia.
Qed.

(** A loop over [n] rows that moves, for every row [i] in increasing order,
    the [m] bytes from [b * i + off] on to [a * i] on, where the rows of the
    destination are no longer than those of the source: every row of the
    destination ends up with the bytes its source row held before the loop,
    and the buffer keeps its length. *)
Lemma compact_rows (dst src : Z -> Z -> Z) (a b off j0 : Z) (m : nat) (len : nat) :
  0 <= off -> 0 <= j0 -> Z.of_nat m <= a -> a <= b -> off + Z.of_nat m <= b ->
  Z.of_nat len < size_t_modulus ->
  forall (r : nat) (i0 : Z) (d : list uint8_t),
    0 <= i0 -> length d = len ->
    b * (i0 + Z.of_nat r) <= Z.of_nat len ->
    (forall i k, i0 <= i < i0 + Z.of_nat r -> 0 <= k < Z.of_nat m ->
                 dst i (j0 + k) = a * i + k /\ src i (j0 + k) = b * i + off + k) ->
    exists out,
      for_range r i0
        (fun i => for_range m j0
                    (fun j d => buf_copy_byte d (to_size_t (dst i j)) (to_size_t (src i j)))) d
        = Some out
      /\ length out = len
      /\ (forall idx, idx < a * i0 -> buf_get out idx = buf_get d idx)
      /\ (forall i k, i0 <= i < i0 + Z.of_nat r -> 0 <= k < Z.of_nat m ->
                      buf_get out (a * i + k) = buf_get d (b * i + off + k)).
Proof.
  intros Hoff Hj0 Hma Hab Hoffm Hmax.
  induction r as [ | r IH]; intros i0 d Hi0 Hlen Hfit HDS.
  - exists d. cbn [for_range]. repeat split; try assumption. intros i k Hi. lia.
  - cbn [for_range]. cbv beta.
    destruct (copy_row (dst i0) (src i0) m j0 d (a * i0) (b * i0 + off)) as (d1 & E1 & L1 & F1 & C1);
      try nia.
    { intros k Hk. apply HDS; lia. }
    rewrite E1.
    destruct (IH (i0 + 1) d1) as (out & E & L & F & C); try lia; try congruence.
    { intros i k Hi Hk. apply HDS; lia. }
    exists out. split; [ exact E | ]. split; [ exact L | ]. split.
    + intros idx Hidx. rewrite F by nia. apply F1. left. exact Hidx.
    + intros i k Hi Hk.
      destruct (Z.eq_dec i i0) as [-> | Hne].
      * rewrite F by nia. apply C1; [ left; nia | exact Hk ].
      * rewrite C by lia. apply F1. right. nia.
Qed.
End Copies.

(** * Channel extraction and two-component normals *)

Section Channels.
Variable hio : HioApi.

(** Lines 96-104.  On a buffer that holds [n] pixels of [GetBytesPerPixel]
    bytes whose components take [sz] bytes each, the extraction of channel
    [c] is defined, keeps the length of the buffer, and packs the channel:
    byte [k] of component [c] of pixel [i] ends up at [i * sz + k].  The
    format becomes the one-component format of the same type. *)
Theorem extractChannel_packs_the_channel
    (data : list uint8_t) (swizzle : string) (n : Z) (image : HioImage)
    (format : HioFormat) :
  let sz := HioGetDataSizeOfType hio format in
  let bpp := GetBytesPerPixel image in
  let c := channel_of swizzle in
  0 <= n -> 0 < sz -> (c + 1) * sz <= bpp ->
  bpp * n <= Z.of_nat (length data) ->
  Z.of_nat (length data) < size_t_modulus ->
  exists out,
    Material.extractChannel hio data swizzle n image format
      = Some (out, HioGetFormat hio 1 (HioGetHioType hio format) false)
    /\ length out = length data
    /\ forall i k, 0 <= i < n -> 0 <= k < sz ->
                   buf_get out (i * sz + k) = buf_get data (i * bpp + c * sz + k).
Proof.
  intros sz bpp c Hn Hsz Hc Hfit Hmax.
  assert (Hc0 : 0 <= c) by (unfold c, channel_of; repeat destruct (String.eqb _ _); lia).
  unfold Material.extractChannel. fold sz. fold bpp.
  cbv zeta.
  change (if String.eqb swizzle "r"%string then 0
          else if String.eqb swizzle "g"%string then 1 else 2) with c.
  destruct (Z.eq_dec n 0) as [-> | Hn0].
  { exists data. cbn. repeat split. intros i k Hi. lia. }
  assert (Hcs : 0 <= c * sz) by nia.
  assert (Hbpp : 1 <= bpp) by lia.
  assert (Hn64 : n <= bpp * n) by nia.
  assert (Hb64 : bpp <= bpp * n) by nia.
  rewrite (to_size_t_small (c * sz)) by lia.
  rewrite (to_size_t_small (c * sz + sz)) by lia.
  rewrite (to_size_t_small n) by lia.
  replace (c * sz + sz - c * sz) with sz by lia.
  destruct (compact_rows (fun i j => i * sz + j - c * sz) (fun i j => i * bpp + j)
              sz bpp (c * sz) (c * sz) (Z.to_nat sz) (length data)
              ltac:(nia) ltac:(nia) ltac:(lia) ltac:(nia) ltac:(nia) Hmax
              (Z.to_nat n) 0 data ltac:(lia) eq_refl ltac:(nia))
    as (out & E & L & _ & C).
  { intros i k Hi Hk. split; lia. }
  rewrite E. exists out. split; [ reflexivity | ]. split; [ exact L | ].
  intros i k Hi Hk.
  replace (i * sz + k) with (sz * i + k) by lia.
  replace (i * bpp + c * sz + k) with (bpp * i + c * sz + k) by lia.
  apply C; lia.
Qed.

(** Lines 107-113.  On a buffer that holds [n] pixels of [GetBytesPerPixel]
    bytes, the conversion to a two-component normal is defined, keeps the
    length of the buffer, and packs the leading bytes of every pixel: the
    first [(HioGetDataSizeOfFormat / 3) * 2] bytes of pixel [i] end up at
    [i * sz * 2] on.  The format becomes the two-component format of the
    same type. *)
Theorem toTwoComponentNormal_packs_two_components
    (data : list uint8_t) (n : Z) (image : HioImage) (format : HioFormat) :
  let sz := HioGetDataSizeOfType hio format in
  let bpp := GetBytesPerPixel image in
  let m := HioGetDataSizeOfFormat hio format / 3 * 2 in
  0 <= n -> 0 < m -> m <= sz * 2 -> sz * 2 <= bpp ->
  bpp * n <= Z.of_nat (length data) ->
  Z.of_nat (length data) < size_t_modulus ->
  exists out,
    Material.toTwoComponentNormal hio data n image format
      = Some (out, HioGetFormat hio 2 (HioGetHioType hio format) false)
    /\ length out = length data
    /\ forall i k, 0 <= i < n -> 0 <= k < m ->
                   buf_get out (i * sz * 2 + k) = buf_get data (i * bpp + k).
Proof.
  intros sz bpp m Hn Hm Hmsz Hszb Hfit Hmax.
  unfold Material.toTwoComponentNormal. fold sz. fold bpp. fold m.
  destruct (Z.eq_dec n 0) as [-> | Hn0].
  { exists data. cbn. repeat split. intros i k Hi. lia. }
  assert (Hbpp : 1 <= bpp) by lia.
  assert (Hn64 : n <= bpp * n) by nia.
  assert (Hb64 : bpp <= bpp * n) by nia.
  rewrite (to_size_t_small n), (to_size_t_small m) by lia.
  destruct (compact_rows (fun i j => i * sz * 2 + j) (fun i j => i * bpp + j)
              (sz * 2) bpp 0 0 (Z.to_nat m) (length data)
              ltac:(lia) ltac:(lia) ltac:(lia) ltac:(lia) ltac:(lia) Hmax
              (Z.to_nat n) 0 data ltac:(lia) eq_refl ltac:(nia))
    as (out & E & L & _ & C).
  { intros i k Hi Hk. split; lia. }
  rewrite E. exists out. split; [ reflexivity | ]. split; [ exact L | ].
  intros i k Hi Hk.
  replace (i * sz * 2 + k) with (sz * 2 * i + k) by lia.
  replace (i * bpp + k) with (bpp * i + 0 + k) by lia.
  apply C; lia.
Qed.
End Channels.

(** * The RGB to RGBA pad, pixel by pixel *)

Section Pad.

Lemma rgbToRgba_pixel_for_range (n : nat) (i s t : Z) :
  forall (j : Z) (data : list uint8_t),
    rgbToRgba_pixel n j data i s t =
    for_range n j
      (fun j d => buf_copy_byte d (to_size_t (to_size_t (t * i) + j))
                                  (to_size_t (to_size_t (s * i) + j))) data.
Proof.
  induction n as [ | n IH]; intros j data; cbn [rgbToRgba_pixel for_range].
  - reflexivity.
  - destruct (buf_copy_byte data _ _); [ apply IH | reflexivity ].
Qed.

(** The inner loop on pixel [i]: it is defined, it writes the first [s]
    bytes of the slot of pixel [i] and nothing else, and when the slot does
    not start inside the source pixel the bytes it writes are those of the
    source pixel. *)
Lemma rgbToRgba_pixel_row (data : list uint8_t) (i s t : Z) :
  0 <= i -> 0 < s <= t ->
  t * i + s <= Z.of_nat (length data) ->
  Z.of_nat (length data) < size_t_modulus ->
  exists out,
    rgbToRgba_pixel (Z.to_nat s) 0 data i s t = Some out
    /\ length out = length data
    /\ (forall idx, idx < t * i \/ t * i + s <= idx -> buf_get out idx = buf_get data idx)
    /\ ((t - s) * i = 0 \/ s <= (t - s) * i ->
        forall j, 0 <= j < s -> buf_get out (t * i + j) = buf_get data (s * i + j)).
Proof.
  intros Hi Hst Hfit Hmax.
  assert (Hsi : 0 <= s * i <= t * i) by nia.
  rewrite rgbToRgba_pixel_for_range.
  destruct (copy_row (fun j => to_size_t (t * i) + j) (fun j => to_size_t (s * i) + j)
              (Z.to_nat s) 0 data (t * i) (s * i)) as (out & E & L & F & C); try lia.
  { intros k Hk. rewrite !to_size_t_small by lia. split; lia. }
  exists out. split; [ exact E | ]. split; [ exact L | ]. split.
  - intros idx Hidx. apply F. lia.
  - intros Hgap j Hj. apply C; lia.
Qed.

(** The outer loop entered with [k]: it is defined, leaves everything from
    the slot of pixel [k] on alone, and moves every pixel below [k] whose
    slot does not start inside its source to its slot. *)
Lemma rgbToRgba_loop_moves (s t : Z) (k : nat) :
  forall data : list uint8_t,
    0 < s <= t ->
    t * Z.of_nat k <= Z.of_nat (length data) ->
    Z.of_nat (length data) < size_t_modulus ->
    exists out,
      rgbToRgba_loop k data s t = Some out
      /\ length out = length data
      /\ (forall idx, t * Z.of_nat k <= idx -> buf_get out idx = buf_get data idx)
      /\ (forall i j, 0 <= i < Z.of_nat k ->
                      (t - s) * i = 0 \/ s <= (t - s) * i ->
                      0 <= j < s ->
                      buf_get out (t * i + j) = buf_get data (s * i + j)).
Proof.
  induction k as [ | k IH]; intros data Hst Hfit Hmax.
  - exists data. cbn [rgbToRgba_loop]. repeat split. intros i j Hi. lia.
  - cbn [rgbToRgba_loop].
    destruct (rgbToRgba_pixel_row data (Z.of_nat k) s t) as (d1 & E1 & L1 & F1 & C1);
      try lia; try nia.
    rewrite E1.
    destruct (IH d1) as (out & E & L & F & C); try lia; try (rewrite L1; nia).
    exists out. split; [ exact E | ]. split; [ congruence | ]. split.
    + intros idx Hidx. rewrite F by nia. apply F1. right. nia.
    + intros i j Hi Hgap Hj.
      destruct (Z.eq_dec i (Z.of_nat k)) as [-> | Hne].
      * rewrite F by nia. now apply C1.
      * rewrite C by (assumption || lia). apply F1. left. nia.
Qed.

(** Lines 68-74.  Every pixel but the last whose slot in the padded layout
    does not start inside its own source bytes is moved to its slot: that is
    pixel 0, which stays where it is, and every pixel [i] with
    [s <= (t - s) * i].  For the pad of three bytes to four these are pixel
    0 and the pixels from 3 on. *)
Theorem rgbToRgba_moves_distant_pixels (data : list uint8_t) (n s t : Z) :
  1 <= n -> 0 < s <= t ->
  t * n <= Z.of_nat (length data) ->
  Z.of_nat (length data) < size_t_modulus ->
  exists out,
    rgbToRgba data n s t = Some out
    /\ forall i j, 0 <= i < n - 1 ->
                   (t - s) * i = 0 \/ s <= (t - s) * i ->
                   0 <= j < s ->
                   buf_get out (t * i + j) = buf_get data (s * i + j).
Proof.
  intros Hn Hst Hfit Hmax. unfold rgbToRgba.
  rewrite to_size_t_small by nia.
  destruct (rgbToRgba_loop_moves s t (Z.to_nat (n - 1)) data) as (out & E & _ & _ & C);
    try assumption; [ rewrite Z2Nat.id by lia; nia | ].
  exists out. split; [ exact E | ].
  intros i j Hi Hgap Hj. apply C; try assumption. rewrite Z2Nat.id by lia. exact Hi.
Qed.

(** The iterations for the pixels from [m0] on come first and write nothing
    below the slot of pixel [m0]. *)
Lemma rgbToRgba_loop_prefix (s t : Z) (m0 k : nat) :
  forall data : list uint8_t,
    (m0 <= k)%nat ->
    0 < s <= t ->
    t * Z.of_nat k <= Z.of_nat (length data) ->
    Z.of_nat (length data) < size_t_modulus ->
    exists d1,
      rgbToRgba_loop k data s t = rgbToRgba_loop m0 d1 s t
      /\ length d1 = length data
      /\ forall idx, idx < t * Z.of_nat m0 -> buf_get d1 idx = buf_get data idx.
Proof.
  induction k as [ | k IH]; intros data Hle Hst Hfit Hmax.
  - assert (m0 = 0%nat) as -> by lia. exists data. repeat split.
  - destruct (Nat.eq_dec m0 (S k)) as [-> | Hne].
    + exists data. repeat split.
    + cbn [rgbToRgba_loop].
      destruct (rgbToRgba_pixel_row data (Z.of_nat k) s t) as (d1 & E1 & L1 & F1 & _);
        try lia; try nia.
      rewrite E1.
      destruct (IH d1) as (d2 & E & L & F); try lia; try (rewrite L1; nia).
      exists d2. split; [ exact E | ]. split; [ congruence | ].
      intros idx Hidx. rewrite F by exact Hidx. apply F1. left. nia.
Qed.

Lemma rgbToRgba_loop_S (k : nat) (data : list uint8_t) (s t : Z) :
  rgbToRgba_loop (S k) data s t =
  match rgbToRgba_pixel (Z.to_nat s) 0 data (Z.of_nat k) s t with
  | Some data' => rgbToRgba_loop k data' s t
  | None => None
  end.
Proof. reflexivity. Qed.

(** Three bytes copied one position up, in increasing order: the first
    byte is repeated. *)
Lemma copy_three_up_by_one (data : list uint8_t) (p : Z) :
  0 <= p -> p + 4 <= Z.of_nat (length data) ->
  exists d1 d2 out,
    buf_copy_byte data (p + 1) p = Some d1
    /\ buf_copy_byte d1 (p + 2) (p + 1) = Some d2
    /\ buf_copy_byte d2 (p + 3) (p + 2) = Some out
    /\ length out = length data
    /\ buf_get out (p + 1) = buf_get data p
    /\ buf_get out (p + 2) = buf_get data p
    /\ buf_get out (p + 3) = buf_get data p
    /\ forall idx, idx < p + 1 \/ p + 4 <= idx -> buf_get out idx = buf_get data idx.
Proof.
  intros Hp Hfit.
  destruct (buf_copy_byte_full data (p + 1) p) as (d1 & E1 & L1 & V1 & K1); try lia.
  destruct (buf_copy_byte_full d1 (p + 2) (p + 1)) as (d2 & E2 & L2 & V2 & K2);
    try (rewrite L1; lia).
  destruct (buf_copy_byte_full d2 (p + 3) (p + 2)) as (d3 & E3 & L3 & V3 & K3);
    try (rewrite L2, L1; lia).
  exists d1, d2, d3. repeat split; try assumption.
  - congruence.
  - rewrite K3, K2 by lia. exact V1.
  - rewrite K3 by lia. rewrite V2. exact V1.
  - rewrite V3, V2. exact V1.
  - intros idx Hidx. rewrite K3, K2, K1 by lia. reflexivity.
Qed.

(** Three bytes copied two positions up, in increasing order: the third
    byte of the destination repeats the first. *)
Lemma copy_three_up_by_two (data : list uint8_t) (p : Z) :
  0 <= p -> p + 5 <= Z.of_nat (length data) ->
  exists d1 d2 out,
    buf_copy_byte data (p + 2) p = Some d1
    /\ buf_copy_byte d1 (p + 3) (p + 1) = Some d2
    /\ buf_copy_byte d2 (p + 4) (p + 2) = Some out
    /\ length out = length data
    /\ buf_get out (p + 2) = buf_get data p
    /\ buf_get out (p + 3) = buf_get data (p + 1)
    /\ buf_get out (p + 4) = buf_get data p
    /\ forall idx, idx < p + 2 \/ p + 5 <= idx -> buf_get out idx = buf_get data idx.
Proof.
  intros Hp Hfit.
  destruct (buf_copy_byte_full data (p + 2) p) as (d1 & E1 & L1 & V1 & K1); try lia.
  destruct (buf_copy_byte_full d1 (p + 3) (p + 1)) as (d2 & E2 & L2 & V2 & K2);
    try (rewrite L1; lia).
  destruct (buf_copy_byte_full d2 (p + 4) (p + 2)) as (d3 & E3 & L3 & V3 & K3);
    try (rewrite L2, L1; lia).
  exists d1, d2, d3. repeat split; try assumption.
  - congruence.
  - rewrite K3, K2 by lia. exact V1.
  - rewrite K3 by lia. rewrite V2. apply K1. lia.
  - rewrite V3, K2 by lia. exact V1.
  - intros idx Hidx. rewrite K3, K2, K1 by lia. reflexivity.
Qed.

(** The pad of three bytes to four on pixel 1 and on pixel 2. *)
Lemma rgbToRgba_pixel_one (data : list uint8_t) :
  8 <= Z.of_nat (length data) ->
  exists out,
    rgbToRgba_pixel 3 0 data 1 3 4 = Some out
    /\ length out = length data
    /\ buf_get out 4 = buf_get data 3
    /\ buf_get out 5 = buf_get data 3
    /\ buf_get out 6 = buf_get data 3
    /\ forall idx, idx < 4 \/ 7 <= idx -> buf_get out idx = buf_get data idx.
Proof.
  intros Hfit.
  destruct (copy_three_up_by_one data 3) as (d1 & d2 & out & E1 & E2 & E3 & L & V1 & V2 & V3 & K);
    try lia.
  exists out. cbn [rgbToRgba_pixel].
  change (to_size_t (to_size_t (4 * 1) + 0)) with (3 + 1).
  change (to_size_t (to_size_t (3 * 1) + 0)) with 3.
  rewrite E1.
  change (to_size_t (to_size_t (4 * 1) + (0 + 1))) with (3 + 2).
  change (to_size_t (to_size_t (3 * 1) + (0 + 1))) with (3 + 1).
  rewrite E2.
  change (to_size_t (to_size_t (4 * 1) + (0 + 1 + 1))) with (3 + 3).
  change (to_size_t (to_size_t (3 * 1) + (0 + 1 + 1))) with (3 + 2).
  rewrite E3.
  repeat split; try assumption.
Qed.

Lemma rgbToRgba_pixel_two (data : list uint8_t) :
  12 <= Z.of_nat (length data) ->
  exists out,
    rgbToRgba_pixel 3 0 data 2 3 4 = Some out
    /\ length out = length data
    /\ buf_get out 8 = buf_get data 6
    /\ buf_get out 9 = buf_get data 7
    /\ buf_get out 10 = buf_get data 6
    /\ forall idx, idx < 8 \/ 11 <= idx -> buf_get out idx = buf_get data idx.
Proof.
  intros Hfit.
  destruct (copy_three_up_by_two data 6) as (d1 & d2 & out & E1 & E2 & E3 & L & V1 & V2 & V3 & K);
    try lia.
  exists out. cbn [rgbToRgba_pixel].
  change (to_size_t (to_size_t (4 * 2) + 0)) with (6 + 2).
  change (to_size_t (to_size_t (3 * 2) + 0)) with 6.
  rewrite E1.
  change (to_size_t (to_size_t (4 * 2) + (0 + 1))) with (6 + 3).
  change (to_size_t (to_size_t (3 * 2) + (0 + 1))) with (6 + 1).
  rewrite E2.
  change (to_size_t (to_size_t (4 * 2) + (0 + 1 + 1))) with (6 + 4).
  change (to_size_t (to_size_t (3 * 2) + (0 + 1 + 1))) with (6 + 2).
  rewrite E3.
  repeat split; try assumption.
Qed.

(** The last two iterations of the pad of three bytes to four. *)
Lemma rgbToRgba_loop_two (data : list uint8_t) :
  8 <= Z.of_nat (length data) ->
  Z.of_nat (length data) < size_t_modulus ->
  exists out,
    rgbToRgba_loop 2 data 3 4 = Some out
    /\ length out = length data
    /\ buf_get out 4 = buf_get data 3
    /\ buf_get out 5 = buf_get data 3
    /\ buf_get out 6 = buf_get data 3
    /\ forall idx, 7 <= idx -> buf_get out idx = buf_get data idx.
Proof.
  intros Hfit Hmax.
  destruct (rgbToRgba_pixel_one data Hfit) as (d1 & E1 & L1 & V4 & V5 & V6 & K1).
  destruct (rgbToRgba_pixel_row d1 0 3 4) as (out & E0 & L0 & F0 & _);
    try lia; try (rewrite L1; lia).
  exists out. rewrite (rgbToRgba_loop_S 1).
  change (Z.to_nat 3) with 3%nat. change (Z.of_nat 1) with 1.
  rewrite E1, (rgbToRgba_loop_S 0). change (Z.of_nat 0) with 0.
  rewrite E0. cbn [rgbToRgba_loop].
  repeat split; try congruence.
  - rewrite F0 by lia. exact V4.
  - rewrite F0 by lia. exact V5.
  - rewrite F0 by lia. exact V6.
  - intros idx Hidx. rewrite F0 by lia. apply K1. lia.
Qed.

(** Lines 68-74, for three source bytes and four destination bytes.  The
    slot of pixel 1 starts one byte into its source and the slot of pixel 2
    two bytes into its source, and the bytes are copied in increasing
    order, so the loop reads bytes it has just written: with at least three
    pixels the slot of pixel 1 ends up holding the first byte of pixel 1
    three times, and with at least four pixels the slot of pixel 2 ends up
    holding the first, the second and again the first byte of pixel 2. *)
Theorem rgbToRgba_smears_pixels_one_and_two (data : list uint8_t) (n : Z) :
  3 <= n ->
  4 * n <= Z.of_nat (length data) ->
  Z.of_nat (length data) < size_t_modulus ->
  exists out,
    rgbToRgba data n 3 4 = Some out
    /\ buf_get out 4 = buf_get data 3
    /\ buf_get out 5 = buf_get data 3
    /\ buf_get out 6 = buf_get data 3
    /\ (4 <= n ->
        buf_get out 8 = buf_get data 6
        /\ buf_get out 9 = buf_get data 7
        /\ buf_get out 10 = buf_get data 6).
Proof.
  intros Hn Hfit Hmax. unfold rgbToRgba.
  rewrite to_size_t_small by lia.
  destruct (rgbToRgba_loop_prefix 3 4 2 (Z.to_nat (n - 1)) data) as (d1 & E1 & L1 & F1);
    try lia.
  destruct (rgbToRgba_loop_two d1) as (out & E & L & V4 & V5 & V6 & K);
    try (rewrite L1; lia).
  exists out. split; [ now rewrite E1 | ].
  change (4 * Z.of_nat 2) with 8 in F1.
  split; [ rewrite V4; apply F1; lia | ].
  split; [ rewrite V5; apply F1; lia | ].
  split; [ rewrite V6; apply F1; lia | ].
  intros Hn4.
  destruct (rgbToRgba_loop_prefix 3 4 3 (Z.to_nat (n - 1)) data) as (d2 & E2 & L2 & F2);
    try lia.
  change (4 * Z.of_nat 3) with 12 in F2.
  destruct (rgbToRgba_pixel_two d2) as (d3 & E3 & L3 & V8 & V9 & V10 & K3);
    try (rewrite L2; lia).
  destruct (rgbToRgba_loop_two d3) as (out' & E' & L' & _ & _ & _ & K');
    try (rewrite L3, L2; lia).
  assert (Hsame : Some out' = Some out).
  { rewrite <- E, <- E1, E2, (rgbToRgba_loop_S 2 d2 3 4).
    change (Z.to_nat 3) with 3%nat. change (Z.of_nat 2) with 2.
    rewrite E3. symmetry. exact E'. }
  injection Hsame as ->.
  split; [ rewrite K' by lia; rewrite V8; apply F2; lia | ].
  split; [ rewrite K' by lia; rewrite V9; apply F2; lia | ].
  rewrite K' by lia. rewrite V10. apply F2. lia.
Qed.

(** Lines 68-74 with no pixel at all: [pixel_count - 1] wraps around, the
    loop is entered, and its first iteration indexes an empty buffer. *)
Theorem rgbToRgba_without_pixels_is_undefined (s t : Z) :
  0 < s -> rgbToRgba [] 0 s t = None.
Proof.
  intros Hs. unfold rgbToRgba.
  change (to_size_t (0 - 1)) with 18446744073709551615.
  destruct (Z.to_nat 18446744073709551615) as [ | k] eqn:Ek; [ lia | ].
  cbn [rgbToRgba_loop].
  destruct (Z.to_nat s) as [ | m] eqn:Em; [ lia | ].
  cbn [rgbToRgba_pixel]. unfold buf_copy_byte.
  rewrite buf_get_outside; [ reflexivity | ].
  right. cbn [length]. unfold to_size_t.
  apply Z.mod_pos_bound. reflexivity.
Qed.
End Pad.

(** * The buffer [makeTexture] allocates *)

Section Allocation.
Variable hio : HioApi.

(** Lines 86-91 for an image of [n] pixels of [3 * c] bytes: four thirds
    of its size. *)
Lemma allocatedSize_of_rgb (n c : Z) :
  0 <= n -> 0 < c -> n * (4 * c) < size_t_modulus ->
  Material.allocatedSize (n * (3 * c)) = n * (4 * c).
Proof.
  intros Hn Hc Hmax. unfold Material.allocatedSize.
  assert (Hnc : 0 <= n * c) by nia.
  rewrite (to_size_t_small (n * (3 * c))) by nia.
  replace (n * (3 * c)) with (n * c * 3) by lia.
  rewrite Z.mod_mul by lia. cbn [Z.eqb].
  rewrite Z.div_mul by lia.
  rewrite to_size_t_small by nia. lia.
Qed.

(** Lines 86-91 with lines 114-117.  An image of [n >= 1] pixels of
    [3 * c] bytes whose format has three components, read into the buffer
    [makeTexture] allocates for it and not meant as a normal map or a single
    channel: the pad stays inside the buffer, so it is defined, and it keeps
    the length of the buffer and the format. *)
Theorem pad_stays_inside_the_allocation
    (data : list uint8_t) (swizzle : string) (dst : TfToken) (n c : Z)
    (image : HioImage) (format : HioFormat) :
  String.eqb swizzle "r" = false ->
  String.eqb swizzle "g" = false ->
  String.eqb swizzle "b" = false ->
  HioGetComponentCount hio format = 3 ->
  token_eqb dst Material.tokens_normal = false ->
  GetBytesPerPixel image = 3 * c ->
  1 <= n -> 0 < c -> n * (4 * c) < size_t_modulus ->
  Z.of_nat (length data) = Material.allocatedSize (n * GetBytesPerPixel image) ->
  exists out,
    Material.normalizeComponents hio data swizzle dst n image format = Some (out, format)
    /\ length out = length data.
Proof.
  intros Hr Hg Hb Hcount Hdst Hbpp Hn Hc Hmax Hlen.
  rewrite Hbpp, allocatedSize_of_rgb in Hlen by lia.
  unfold Material.normalizeComponents.
  rewrite Hr, Hg, Hb, Hcount, Hdst, Hbpp, Z.eqb_refl. cbn [orb].
  replace (Z.quot (3 * c) 3) with c by (rewrite Z.mul_comm, Z.quot_mul; lia).
  assert (Hn4 : n <= n * (4 * c)) by nia.
  assert (Hc4 : c * 4 <= n * (4 * c)) by nia.
  rewrite (to_size_t_small n), (to_size_t_small (3 * c)), (to_size_t_small (c * 4)) by lia.
  unfold rgbToRgba. rewrite to_size_t_small by lia.
  destruct (rgbToRgba_loop_spec (Z.to_nat (n - 1)) data (3 * c) (c * 4)) as (out & E & L & _).
  { lia. }
  { rewrite Z2Nat.id by lia. nia. }
  { lia. }
  rewrite E. exists out. split; [ reflexivity | exact L ].
Qed.
End Allocation.

(** * Primvars and the geometry step *)

Section Primvars.
Context {HT : HostTypes}.
Variable B : DirtyBitValues.

Lemma find_first {A : Type} (f : A -> bool) (l : list A) (x : A) :
  find f l = Some x ->
  f x = true
  /\ exists before after,
       l = before ++ x :: after /\ forall y, In y before -> f y = false.
Proof.
  induction l as [ | a l IH]; cbn [find]; [ discriminate | ].
  destruct (f a) eqn:Ea.
  - intros E. injection E as <-. split; [ exact Ea | ].
    exists [], l. split; [ reflexivity | ]. intros y [].
  - intros E. destruct (IH E) as (Hx & before & after & -> & Hbefore).
    split; [ exact Hx | ].
    exists (a :: before), after. split; [ reflexivity | ].
    intros y [<- | Hy]; [ exact Ea | now apply Hbefore ].
Qed.

Lemma existsb_token (name : TfToken) (l : list TfToken) :
  existsb (fun primvar => token_eqb primvar name) l = true <-> In name l.
Proof.
  rewrite existsb_exists. unfold token_eqb. split.
  - intros (x & Hin & Heq). apply String.eqb_eq in Heq. now subst.
  - intros Hin. exists name. split; [ exact Hin | apply String.eqb_refl ].
Qed.

Lemma in_all_interpolations (interpolation : HdInterpolation) :
  In interpolation all_interpolations.
Proof. destruct interpolation; cbn; tauto. Qed.

(** Lines 43-59.  The interpolation found for a primvar name is the first
    one, in the order of the enumeration, among whose primvars the name
    appears; none is found exactly when the name appears under no
    interpolation. *)
Theorem FindPrimvarInterpolation_is_the_first_match
    (sceneDelegate : HdSceneDelegate) (name : TfToken) :
  match Mesh.FindPrimvarInterpolation sceneDelegate name with
  | Some interpolation =>
      In name (GetPrimvarDescriptors sceneDelegate interpolation)
      /\ exists before after,
           all_interpolations = before ++ interpolation :: after
           /\ forall earlier, In earlier before ->
                              ~ In name (GetPrimvarDescriptors sceneDelegate earlier)
  | None =>
      forall interpolation, ~ In name (GetPrimvarDescriptors sceneDelegate interpolation)
  end.
Proof.
  unfold Mesh.FindPrimvarInterpolation.
  destruct (find _ all_interpolations) as [interpolation | ] eqn:E.
  - apply find_first in E. destruct E as (Hin & before & after & Hsplit & Hbefore).
    split; [ now apply existsb_token | ].
    exists before, after. split; [ exact Hsplit | ].
    intros earlier Hearlier Hname. apply existsb_token in Hname.
    rewrite (Hbefore earlier Hearlier) in Hname. discriminate.
  - intros interpolation Hname. apply existsb_token in Hname.
    rewrite (find_none _ _ E interpolation (in_all_interpolations interpolation)) in Hname.
    discriminate.
Qed.

Lemma array_at_Some {T : Type} (a : list T) (i : Z) (x : T) :
  Mesh.array_at a i = Some x -> 0 <= i < Z.of_nat (length a).
Proof.
  unfold Mesh.array_at. destruct (Z.leb_spec 0 i) as [Hi | Hi]; [ | discriminate ].
  intros E. assert (Hlt : (Z.to_nat i < length a)%nat) by (apply nth_error_Some; congruence).
  lia.
Qed.

Lemma array_at_in_range {T : Type} (a : list T) (i : Z) :
  0 <= i < Z.of_nat (length a) -> exists x, Mesh.array_at a i = Some x.
Proof.
  intros Hi. unfold Mesh.array_at.
  destruct (Z.leb_spec 0 i) as [_ | Hneg]; [ | lia ].
  destruct (nth_error a (Z.to_nat i)) as [x | ] eqn:E; [ now exists x | ].
  apply nth_error_None in E. lia.
Qed.

Lemma unindex_length {T : Type} (indexed : list T) (indices : list GfVec3i) (out : list T) :
  Mesh.unindex indexed indices = Some out -> length out = (3 * length indices)%nat.
Proof.
  revert out. induction indices as [ | [[j0 j1] j2] indices IH]; intros out H.
  - cbn in H. now injection H as <-.
  - cbn [Mesh.unindex] in H.
    destruct (Mesh.array_at indexed j0); [ | discriminate ].
    destruct (Mesh.array_at indexed j1); [ | discriminate ].
    destruct (Mesh.array_at indexed j2); [ | discriminate ].
    destruct (Mesh.unindex indexed indices) as [rest | ]; [ | discriminate ].
    injection H as <-. cbn [length]. rewrite (IH rest eq_refl). lia.
Qed.

(** Lines 146-150 and 90-94.  When the loop over the triangles is defined,
    it pushes three elements per triangle, and the elements it pushes for
    triangle [k] are the ones its three indices select, in the order of the
    indices. *)
Theorem unindex_pushes_the_three_corners {T : Type}
    (indexed : list T) (indices : list GfVec3i) (out : list T) :
  Mesh.unindex indexed indices = Some out ->
  length out = (3 * length indices)%nat
  /\ forall (k : nat) (i0 i1 i2 : Z),
       nth_error indices k = Some (i0, i1, i2) ->
       nth_error out (3 * k) = Mesh.array_at indexed i0
       /\ nth_error out (3 * k + 1) = Mesh.array_at indexed i1
       /\ nth_error out (3 * k + 2) = Mesh.array_at indexed i2
       /\ Mesh.array_at indexed i0 <> None
       /\ Mesh.array_at indexed i1 <> None
       /\ Mesh.array_at indexed i2 <> None.
Proof.
  revert out. induction indices as [ | [[j0 j1] j2] indices IH]; intros out H.
  - cbn in H. injection H as <-. split; [ reflexivity | ].
    intros k i0 i1 i2 Hk. destruct k; discriminate.
  - cbn [Mesh.unindex] in H.
    destruct (Mesh.array_at indexed j0) as [a | ] eqn:E0; [ | discriminate ].
    destruct (Mesh.array_at indexed j1) as [b | ] eqn:E1; [ | discriminate ].
    destruct (Mesh.array_at indexed j2) as [c | ] eqn:E2; [ | discriminate ].
    destruct (Mesh.unindex indexed indices) as [rest | ] eqn:Erest; [ | discriminate ].
    injection H as <-. destruct (IH rest eq_refl) as [Hlen Hnth].
    split; [ cbn [length]; lia | ].
    intros [ | k] i0 i1 i2 Hk.
    + cbn in Hk. injection Hk as <- <- <-. cbn. rewrite E0, E1, E2.
      repeat split; discriminate.
    + cbn [nth_error] in Hk.
      replace (3 * S k)%nat with (S (S (S (3 * k)))) by lia.
      replace (S (S (S (3 * k))) + 1)%nat with (S (S (S (3 * k + 1)))) by lia.
      replace (S (S (S (3 * k))) + 2)%nat with (S (S (S (3 * k + 2)))) by lia.
      cbn [nth_error]. exact (Hnth k i0 i1 i2 Hk).
Qed.

(** Lines 146-150 and 90-94.  The loop over the triangles is defined
    exactly when every index of every triangle lies inside the indexed
    array: an index that is negative or not below the length of the array
    reads outside it. *)
Theorem unindex_is_defined_iff_indices_in_range {T : Type}
    (indexed : list T) (indices : list GfVec3i) :
  Mesh.unindex indexed indices <> None
  <->
  forall i0 i1 i2, In (i0, i1, i2) indices ->
                   0 <= i0 < Z.of_nat (length indexed)
                   /\ 0 <= i1 < Z.of_nat (length indexed)
                   /\ 0 <= i2 < Z.of_nat (length indexed).
Proof.
  induction indices as [ | [[j0 j1] j2] indices IH].
  - split; [ intros _ i0 i1 i2 [] | discriminate ].
  - cbn [Mesh.unindex]. split.
    + intros H i0 i1 i2 Hin.
      destruct (Mesh.array_at indexed j0) as [a | ] eqn:E0; [ | contradiction ].
      destruct (Mesh.array_at indexed j1) as [b | ] eqn:E1; [ | contradiction ].
      destruct (Mesh.array_at indexed j2) as [c | ] eqn:E2; [ | contradiction ].
      destruct Hin as [E | Hin].
      * injection E as <- <- <-.
        apply array_at_Some in E0, E1, E2. now repeat split.
      * apply IH; [ | exact Hin ].
        destruct (Mesh.unindex indexed indices); [ discriminate | contradiction ].
    + intros H.
      destruct (H j0 j1 j2 ltac:(now left)) as (H0 & H1 & H2).
      destruct (array_at_in_range indexed j0 H0) as (a & ->).
      destruct (array_at_in_range indexed j1 H1) as (b & ->).
      destruct (array_at_in_range indexed j2 H2) as (c & ->).
      assert (Hrest : Mesh.unindex indexed indices <> None).
      { apply IH. intros i0 i1 i2 Hin. apply H. now right. }
      destruct (Mesh.unindex indexed indices); [ discriminate | contradiction ].
Qed.

(** [ComputePrimvar] calls nothing in the renderer. *)
Lemma ComputePrimvar_msne {T : Type} (holds : VtValue -> option (list T))
    (sceneDelegate : HdSceneDelegate) (indices : list GfVec3i) (name : TfToken)
    (w w' : World) (primvar : list T) :
  Mesh.ComputePrimvar holds sceneDelegate indices name w = Some (primvar, w') ->
  msne w' = msne w.
Proof.
  unfold Mesh.ComputePrimvar.
  destruct (holds (Get sceneDelegate name)) as [indexedPrimvar | ].
  - destruct (Mesh.FindPrimvarInterpolation sceneDelegate name) as [[ | | | | | ] | ];
      unfold bind, TF_CODING_ERROR, ret, lift; cbn;
      try (intros E; injection E as <- <-; reflexivity).
    destruct (Mesh.unindex indexedPrimvar indices); [ | discriminate ].
    unfold ret. intros E. now injection E as <- <-.
  - unfold ret. intros E. now injection E as <- <-.
Qed.

(** [ComputePrimvar] on an array with vertex interpolation. *)
Lemma ComputePrimvar_vertex {T : Type} (holds : VtValue -> option (list T))
    (sceneDelegate : HdSceneDelegate) (indices : list GfVec3i) (name : TfToken)
    (w w' : World) (indexedPrimvar primvar : list T) :
  holds (Get sceneDelegate name) = Some indexedPrimvar ->
  Mesh.FindPrimvarInterpolation sceneDelegate name = Some HdInterpolationVertex ->
  Mesh.ComputePrimvar holds sceneDelegate indices name w = Some (primvar, w') ->
  Mesh.unindex indexedPrimvar indices = Some primvar.
Proof.
  unfold Mesh.ComputePrimvar. intros -> ->.
  destruct (Mesh.unindex indexedPrimvar indices); cbn; [ | discriminate ].
  unfold ret. intros E. now injection E as <- _.
Qed.

(** Lines 112-180.  A geometry step that is not abandoned found points,
    computed ones or else authored ones, and sent the renderer exactly one
    call: the creation of a mesh whose positions are the points of the
    corners of the triangles, three per triangle, and whose count is the
    number of those positions.  The entity holds the handle the call
    returned, and the points bit is cleared. *)
Theorem geometry_step_creates_one_mesh
    (sceneDelegate : HdSceneDelegate) (self self1 : Mesh.HdMoonshineMesh)
    (dirtyBits d1 : HdDirtyBits) (w w1 : World) :
  Mesh.syncPoints B sceneDelegate self dirtyBits w = Some (Some (self1, d1), w1) ->
  exists indexedPoints points normals texcoords,
    Mesh.findIndexedPoints sceneDelegate = Some indexedPoints
    /\ indexedPoints <> []
    /\ Mesh.unindex indexedPoints (ComputeTriangleIndices sceneDelegate) = Some points
    /\ length points = (3 * length (ComputeTriangleIndices sceneDelegate))%nat
    /\ calls (msne w1) =
       calls (msne w) ++
       [ CreateMesh points normals texcoords (Z.of_nat (length points))
           (next_handle (msne w)) ]
    /\ next_handle (msne w1) = S (next_handle (msne w))
    /\ self1 = Mesh.set_mesh self (next_handle (msne w))
    /\ d1 = bits_and dirtyBits (bits_not (DirtyPoints B)).
Proof.
  unfold Mesh.syncPoints. intros H.
  apply bind_inv in H. destruct H as (indexedPoints & w2 & Hfound & H).
  apply lift_inv in Hfound. destruct Hfound as [Hfound ->].
  destruct (Z.eqb_spec (Z.of_nat (length indexedPoints)) 0) as [Hempty | Hnonempty].
  { apply bind_inv in H. destruct H as (? & ? & _ & H). discriminate. }
  apply bind_inv in H. destruct H as (points & w3 & Hpoints & H).
  apply lift_inv in Hpoints. destruct Hpoints as [Hpoints ->].
  apply bind_inv in H. destruct H as (texcoords & w4 & Htexcoords & H).
  assert (Hw4 : msne w4 = msne w).
  { destruct (negb (IsEmpty (Mesh.texcoordName sceneDelegate))).
    - exact (ComputePrimvar_msne _ _ _ _ _ _ _ Htexcoords).
    - unfold ret in Htexcoords. now injection Htexcoords as _ <-. }
  apply bind_inv in H. destruct H as (normals & w5 & Hnormals & H).
  apply ComputePrimvar_msne in Hnormals.
  apply bind_inv in H. destruct H as (mesh & w6 & Hmesh & H).
  unfold create in Hmesh. injection Hmesh as <- <-.
  unfold ret in H. injection H as <- <- <-.
  exists indexedPoints, points, normals, texcoords.
  split; [ exact Hfound | ].
  split; [ intros ->; now apply Hnonempty | ].
  split; [ exact Hpoints | ].
  split; [ exact (unindex_length _ _ _ Hpoints) | ].
  cbn [msne calls next_handle]. rewrite Hnormals, Hw4.
  repeat split.
Qed.
End Primvars.

(** * The modes of a mesh sync *)

Section MoreBits.

Lemma bits_test_false_land (d m : Z) : bits_test d m = false -> Z.land d m = 0.
Proof.
  unfold bits_test, bits_and. rewrite negb_false_iff. apply Z.eqb_eq.
Qed.

(** Clearing a flag that is not set changes nothing in a 32-bit word. *)
Lemma clear_unset (d m : Z) :
  0 <= d <= UINT32_MAX -> bits_test d m = false -> bits_and d (bits_not m) = d.
Proof.
  intros Hd Hm. apply bits_test_false_land in Hm.
  unfold bits_and. apply Z.bits_inj'. intros j Hj.
  rewrite Z.land_spec, testbit_bits_not by assumption.
  pose proof (land_zero_bits d m j Hm) as Hdm.
  destruct (Z.ltb_spec j 32) as [Hlt | Hge].
  - destruct (Z.testbit d j), (Z.testbit m j); try reflexivity; discriminate.
  - rewrite (mask_high_bits d j Hd Hge). reflexivity.
Qed.

Lemma bits_and_range (d m : Z) :
  0 <= d <= UINT32_MAX -> 0 <= bits_and d m <= UINT32_MAX.
Proof.
  intros Hd. unfold bits_and. split.
  - apply Z.land_nonneg. now left.
  - assert (H : Z.land d m < 2 ^ 32).
    { destruct (Z.eq_dec (Z.land d m) 0) as [-> | Hne]; [ reflexivity | ].
      apply Z.log2_lt_cancel. rewrite Z.log2_pow2 by lia.
      assert (Hpos : 0 < Z.land d m)
        by (pose proof (proj2 (Z.land_nonneg d m) (or_introl (proj1 Hd))); lia).
      destruct (Z.le_gt_cases 32 (Z.log2 (Z.land d m))) as [Hbig | Hsmall]; [ | exact Hsmall ].
      pose proof (Z.bit_log2 _ Hpos) as Hbit.
      rewrite Z.land_spec, (mask_high_bits d _ Hd Hbig) in Hbit. discriminate. }
    unfold UINT32_MAX. lia.
Qed.

(** A flag is cleared when it is set and left alone when it is not: either
    way the word afterwards is the word without the flag. *)
Lemma clear_if_set (d m : Z) :
  0 <= d <= UINT32_MAX ->
  (if bits_test d m then bits_and d (bits_not m) else d) = bits_and d (bits_not m).
Proof.
  intros Hd. destruct (bits_test d m) eqn:E; [ reflexivity | ].
  symmetry. now apply clear_unset.
Qed.

(** Clearing the five flags one after the other clears their union. *)
Lemma clear_five (d p t i v m : Z) :
  0 <= p <= UINT32_MAX -> 0 <= t <= UINT32_MAX -> 0 <= i <= UINT32_MAX ->
  0 <= v <= UINT32_MAX -> 0 <= m <= UINT32_MAX ->
  bits_and (bits_and (bits_and (bits_and (bits_and d
    (bits_not p)) (bits_not v)) (bits_not m)) (bits_not t)) (bits_not i)
  = bits_and d (bits_not (Z.lor (Z.lor (Z.lor (Z.lor p t) i) v) m)).
Proof.
  intros Hp Ht Hi Hv Hm. unfold bits_and. apply Z.bits_inj'. intros j Hj.
  rewrite !Z.land_spec, !testbit_bits_not, !Z.lor_spec by assumption.
  destruct (Z.ltb_spec j 32) as [Hlt | Hge].
  - destruct (Z.testbit d j), (Z.testbit p j), (Z.testbit t j), (Z.testbit i j),
      (Z.testbit v j), (Z.testbit m j); reflexivity.
  - rewrite (mask_high_bits p j), (mask_high_bits t j), (mask_high_bits i j),
      (mask_high_bits v j), (mask_high_bits m j) by assumption.
    cbn. now rewrite !andb_false_r.
Qed.
End MoreBits.

Section CallLists.
Context {HT : HostTypes}.

Lemma created_instances_app (cs1 cs2 : list Call) :
  created_instances (cs1 ++ cs2) = created_instances cs1 ++ created_instances cs2.
Proof. apply flat_map_app. Qed.

Lemma destroyed_instances_app (cs1 cs2 : list Call) :
  destroyed_instances (cs1 ++ cs2) = destroyed_instances cs1 ++ destroyed_instances cs2.
Proof. apply flat_map_app. Qed.

Lemma destroyed_instances_destroy (l : list InstanceHandle) :
  destroyed_instances (map DestroyInstance l) = l.
Proof. induction l as [ | h l IH]; cbn; [ reflexivity | now f_equal ]. Qed.

Lemma created_instances_destroy (l : list InstanceHandle) :
  created_instances (map DestroyInstance l) = [].
Proof. induction l as [ | h l IH]; cbn; [ reflexivity | exact IH ]. Qed.

Lemma created_instances_create {A : Type} (transform : A -> Mat3x4) (mesh : MeshHandle)
    (material : MaterialHandle) (visible : bool) (l : list (A * nat)) :
  created_instances
    (map (fun th => CreateInstance (transform (fst th)) mesh material visible (snd th)) l)
  = map snd l.
Proof. induction l as [ | th l IH]; cbn; [ reflexivity | now f_equal ]. Qed.

Lemma destroyed_instances_create {A : Type} (transform : A -> Mat3x4) (mesh : MeshHandle)
    (material : MaterialHandle) (visible : bool) (l : list (A * nat)) :
  destroyed_instances
    (map (fun th => CreateInstance (transform (fst th)) mesh material visible (snd th)) l)
  = [].
Proof. induction l as [ | th l IH]; cbn; [ reflexivity | exact IH ]. Qed.

Lemma map_snd_combine {A C : Type} (l : list A) (l' : list C) :
  length l = length l' -> map snd (combine l l') = l'.
Proof.
  revert l'. induction l as [ | a l IH]; intros [ | c l'] Hlen; try discriminate.
  - reflexivity.
  - cbn. f_equal. apply IH. now injection Hlen.
Qed.

(** Calls that neither create nor destroy an instance. *)
Lemma no_instance_calls (cs : list Call) :
  Forall (fun c => is_mesh_call c = true
                   /\ destroyed_handle c = None /\ creates_instance c = false) cs ->
  created_instances cs = [] /\ destroyed_instances cs = []
  /\ Forall (fun c => is_mesh_call c = true) cs.
Proof.
  induction 1 as [ | c cs (Hm & Hd & Hc) _ (IH1 & IH2 & IH3)]; [ now repeat split | ].
  repeat split.
  - destruct c; try discriminate; exact IH1.
  - destruct c; try discriminate; exact IH2.
  - now constructor.
Qed.
End CallLists.

Section Modes.
Context {HT : HostTypes}.
Variable B : DirtyBitValues.

Lemma syncPoints_quiet (sceneDelegate : HdSceneDelegate) (self : Mesh.HdMoonshineMesh)
    (dirtyBits : HdDirtyBits) :
  emits (fun c => is_mesh_call c = true
                  /\ destroyed_handle c = None /\ creates_instance c = false)
        (Mesh.syncPoints B sceneDelegate self dirtyBits).
Proof.
  unfold Mesh.syncPoints.
  repeat first [ apply ComputePrimvar_emits | emits_step; try (repeat split; reflexivity) ].
Qed.

Lemma updateTransforms_quiet (self : Mesh.HdMoonshineMesh) (i : nat)
    (ts : list GfMatrix4f) :
  emits (fun c => is_mesh_call c = true
                  /\ destroyed_handle c = None /\ creates_instance c = false)
        (Mesh.updateTransforms self i ts).
Proof.
  revert i. induction ts as [ | t ts IH]; intros i; cbn [Mesh.updateTransforms].
  - apply emits_ret.
  - repeat first [ apply IH | emits_step; try (repeat split; reflexivity) ].
Qed.

Lemma updateInstances_quiet (self : Mesh.HdMoonshineMesh)
    (transform_changed old_visibility new_visibility : bool) :
  emits (fun c => is_mesh_call c = true
                  /\ destroyed_handle c = None /\ creates_instance c = false)
        (Mesh.updateInstances self transform_changed old_visibility new_visibility).
Proof.
  unfold Mesh.updateInstances.
  repeat first [ apply updateTransforms_quiet
               | apply emits_forM; intros ? _
               | emits_step; try (repeat split; reflexivity) ].
Qed.

(** The dirty bits after the three pure steps. *)
Lemma pure_steps_bits (sceneDelegate : HdSceneDelegate)
    (renderParam : HdMoonshineRenderParam) (self : Mesh.HdMoonshineMesh)
    (dirtyBits : HdDirtyBits) :
  let sv := Mesh.syncVisibility B sceneDelegate self dirtyBits in
  let sm := Mesh.syncMaterialId B sceneDelegate renderParam (fst sv) (snd sv) in
  let st := Mesh.syncTransform B sceneDelegate (fst sm) (snd sm) in
  snd sv = (if bits_test dirtyBits (DirtyVisibility B)
            then bits_and dirtyBits (bits_not (DirtyVisibility B)) else dirtyBits)
  /\ snd sm = (if bits_test (snd sv) (DirtyMaterialId B)
               then bits_and (snd sv) (bits_not (DirtyMaterialId B)) else snd sv)
  /\ snd st = (if bits_test (snd sm) (DirtyTransform B)
               then bits_and (snd sm) (bits_not (DirtyTransform B)) else snd sm).
Proof.
  intros sv sm st. subst st sm sv.
  unfold Mesh.syncTransform, Mesh.syncMaterialId, Mesh.syncVisibility,
    HdChangeTracker.IsVisibilityDirty, HdChangeTracker.IsTransformDirty.
  repeat split.
  - now destruct (bits_test dirtyBits (DirtyVisibility B)).
  - match goal with |- context [bits_test ?d (DirtyMaterialId B)] =>
      now destruct (bits_test d (DirtyMaterialId B)) end.
  - match goal with |- context [bits_test ?d (DirtyTransform B)] =>
      now destruct (bits_test d (DirtyTransform B)) end.
Qed.

(** The members of the entity after the three pure steps. *)
Lemma pure_steps_members (sceneDelegate : HdSceneDelegate)
    (renderParam : HdMoonshineRenderParam) (self : Mesh.HdMoonshineMesh)
    (dirtyBits : HdDirtyBits) :
  let sv := Mesh.syncVisibility B sceneDelegate self dirtyBits in
  let sm := Mesh.syncMaterialId B sceneDelegate renderParam (fst sv) (snd sv) in
  let st := Mesh.syncTransform B sceneDelegate (fst sm) (snd sm) in
  Mesh._mesh (fst st) = Mesh._mesh self
  /\ Mesh._instances (fst st) = Mesh._instances self
  /\ Mesh._instancesTransforms (fst st) = Mesh._instancesTransforms self
  /\ Mesh._visible (fst st) = Mesh._visible (fst sv)
  /\ Mesh._visible (fst sv) =
     (if bits_test dirtyBits (DirtyVisibility B)
      then GetVisible sceneDelegate else Mesh._visible self)
  /\ Mesh._material (fst st) =
     (if bits_test (snd sv) (DirtyMaterialId B)
      then (if IsEmpty (GetMaterialId sceneDelegate) then _defaultMaterial renderParam
            else match GetSprim sceneDelegate (GetMaterialId sceneDelegate) with
                 | Some material => _handle material
                 | None => Mesh._material self
                 end)
      else Mesh._material self)
  /\ Mesh._transform (fst st) =
     (if bits_test (snd sm) (DirtyTransform B)
      then GfMatrix4f_narrow (GetTransform sceneDelegate) else Mesh._transform self).
Proof.
  intros sv sm st. subst st sm sv.
  unfold Mesh.syncTransform, Mesh.syncMaterialId, Mesh.syncVisibility,
    Mesh._UpdateVisibility,
    HdChangeTracker.IsVisibilityDirty, HdChangeTracker.IsTransformDirty.
  destruct (bits_test dirtyBits (DirtyVisibility B)); cbn [fst snd];
    match goal with |- context [bits_test ?d (DirtyMaterialId B)] =>
      destruct (bits_test d (DirtyMaterialId B)) end; cbn [fst snd];
    match goal with |- context [bits_test ?d (DirtyTransform B)] =>
      destruct (bits_test d (DirtyTransform B)) end; cbn [fst snd];
    destruct (IsEmpty (GetMaterialId sceneDelegate));
    try destruct (GetSprim sceneDelegate (GetMaterialId sceneDelegate));
    repeat split.
Qed.

(** Everything after the geometry, mode by mode: a rebuild destroys the
    handles held on entry and leaves the entity with the handles it created,
    one per stored transform; otherwise no instance is created or
    destroyed and the entity keeps its handles. *)
Lemma syncAfterPoints_modes (sceneDelegate : HdSceneDelegate)
    (renderParam : HdMoonshineRenderParam) (mesh_changed : bool)
    (self self' : Mesh.HdMoonshineMesh) (dirtyBits dirtyBits' : HdDirtyBits)
    (w w' : World) :
  Mesh.syncAfterPoints B sceneDelegate renderParam mesh_changed self dirtyBits w
    = Some ((self', dirtyBits'), w') ->
  exists cs,
    calls (msne w') = calls (msne w) ++ cs
    /\ Forall (fun c => is_mesh_call c = true) cs
    /\ if mesh_changed
          || bits_test (snd (Mesh.syncVisibility B sceneDelegate self dirtyBits))
               (DirtyMaterialId B)
       then destroyed_instances cs = Mesh._instances self
            /\ created_instances cs = Mesh._instances self'
            /\ length (Mesh._instances self') = length (Mesh._instancesTransforms self')
       else destroyed_instances cs = []
            /\ created_instances cs = []
            /\ Mesh._instances self' = Mesh._instances self.
Proof.
  intros H. unfold Mesh.syncAfterPoints in H.
  pose proof (syncVisibility_instances B sceneDelegate self dirtyBits) as I1.
  destruct (Mesh.syncVisibility B sceneDelegate self dirtyBits) as [s1 d1].
  pose proof (syncMaterialId_instances B sceneDelegate renderParam s1 d1) as I2.
  destruct (Mesh.syncMaterialId B sceneDelegate renderParam s1 d1) as [s2 d2].
  pose proof (syncTransform_instances B sceneDelegate s2 d2) as I3.
  destruct (Mesh.syncTransform B sceneDelegate s2 d2) as [s3 d3].
  cbn [fst snd] in *.
  apply bind_inv in H. destruct H as ([s4 d4] & w1 & Hinst & H).
  apply syncInstancer_instances in Hinst. destruct Hinst as [-> I4].
  assert (Hheld : Mesh._instances s4 = Mesh._instances self) by congruence.
  apply bind_inv in H. destruct H as (s5 & w2 & Hupd & H).
  apply report_msne in H. destruct H as [E Hw]. injection E as <- <-.
  rewrite Hw. clear Hw w'.
  rewrite orb_false_r in Hupd.
  destruct (mesh_changed || bits_test d1 (DirtyMaterialId B)).
  - rewrite recreateInstances_spec in Hupd. injection Hupd as <- <-.
    cbn [msne calls next_handle Mesh._instances Mesh._instancesTransforms
         Mesh.set_instances].
    eexists. split; [ reflexivity | ]. split; [ | split; [ | split ] ].
    + apply Forall_app. split; apply Forall_forall; intros c Hc;
        apply in_map_iff in Hc; destruct Hc as (x & <- & _); reflexivity.
    + rewrite destroyed_instances_app, destroyed_instances_destroy.
      rewrite (destroyed_instances_create
                 (fun t => Mesh.to_Mat3x4 (GfMatrix4f_mul (Mesh._transform s4) t))).
      rewrite app_nil_r. exact Hheld.
    + rewrite created_instances_app, created_instances_destroy.
      rewrite (created_instances_create
                 (fun t => Mesh.to_Mat3x4 (GfMatrix4f_mul (Mesh._transform s4) t))).
      cbn [app]. apply map_snd_combine. now rewrite length_seq.
    + apply length_seq.
  - apply bind_inv in Hupd. destruct Hupd as ([] & w3 & Hupd & E).
    unfold ret in E. injection E as <- <-.
    destruct (updateInstances_quiet _ _ _ _ _ _ _ Hupd) as (cs & L & _ & HP).
    apply no_instance_calls in HP. destruct HP as (Hc & Hd & Hm).
    exists cs. repeat split; assumption.
Qed.

(** A sync call of the mesh entity, mode by mode. *)
Lemma mesh_Sync_modes (sceneDelegate : HdSceneDelegate)
    (renderParam : HdMoonshineRenderParam)
    (self self' : Mesh.HdMoonshineMesh) (dirtyBits dirtyBits' : HdDirtyBits)
    (w w' : World) :
  Mesh.Sync B sceneDelegate renderParam self dirtyBits w = Some ((self', dirtyBits'), w') ->
  exists cs,
    calls (msne w') = calls (msne w) ++ cs
    /\ Forall (fun c => is_mesh_call c = true) cs
    /\ ((destroyed_instances cs = Mesh._instances self
         /\ created_instances cs = Mesh._instances self'
         /\ length (Mesh._instances self') = length (Mesh._instancesTransforms self'))
        \/ (destroyed_instances cs = []
            /\ created_instances cs = []
            /\ Mesh._instances self' = Mesh._instances self)).
Proof.
  intros H. unfold Mesh.Sync in H.
  apply bind_inv in H. destruct H as (geometry & w1 & Hgeo & H).
  assert (Hstep : exists cs0,
             calls (msne w1) = calls (msne w) ++ cs0
             /\ created_instances cs0 = [] /\ destroyed_instances cs0 = []
             /\ Forall (fun c => is_mesh_call c = true) cs0
             /\ forall s1 d1, geometry = Some (s1, d1) ->
                              Mesh._instances s1 = Mesh._instances self).
  { destruct (HdChangeTracker.IsPrimvarDirty_points B dirtyBits).
    - destruct (syncPoints_quiet _ _ _ _ _ _ Hgeo) as (cs0 & L & _ & HP).
      apply no_instance_calls in HP. destruct HP as (Hc & Hd & Hm).
      exists cs0. repeat split; try assumption.
      intros s1 d1 ->. apply syncPoints_completes in Hgeo.
      destruct Hgeo as [-> _]. reflexivity.
    - unfold ret in Hgeo. injection Hgeo as <- <-.
      exists []. rewrite app_nil_r. repeat split; [ constructor | ].
      intros s1 d1 E. now injection E as <- <-. }
  destruct Hstep as (cs0 & L0 & C0 & D0 & M0 & Hheld).
  destruct geometry as [[s1 d1] | ].
  - destruct (syncAfterPoints_modes _ _ _ _ _ _ _ _ _ H) as (cs & L & M & Hmode).
    rewrite (Hheld s1 d1 eq_refl) in Hmode.
    exists (cs0 ++ cs). split; [ now rewrite L, L0, app_assoc | ].
    split; [ apply Forall_app; now split | ].
    rewrite created_instances_app, destroyed_instances_app, C0, D0. cbn [app].
    destruct (_ || _); [ now left | now right ].
  - unfold ret in H. injection H as <- <- <-.
    exists cs0. split; [ exact L0 | ]. split; [ exact M0 | ]. right. now repeat split.
Qed.

(** Lines 103-275.  Whatever the dirty bits, the calls a mesh sync sends
    the renderer are among the five functions that deal with meshes and
    instances: it neither creates a texture or a material nor sets a
    material's inputs. *)
Theorem mesh_sync_calls_only_mesh_functions
    (sceneDelegate : HdSceneDelegate) (renderParam : HdMoonshineRenderParam)
    (self self' : Mesh.HdMoonshineMesh) (dirtyBits dirtyBits' : HdDirtyBits)
    (w w' : World) :
  Mesh.Sync B sceneDelegate renderParam self dirtyBits w = Some ((self', dirtyBits'), w') ->
  exists cs,
    calls (msne w') = calls (msne w) ++ cs /\ forallb is_mesh_call cs = true.
Proof.
  intros H. destruct (mesh_Sync_modes _ _ _ _ _ _ _ _ H) as (cs & L & M & _).
  exists cs. split; [ exact L | ]. apply forallb_forall.
  rewrite Forall_forall in M. exact M.
Qed.
End Modes.

(** * What a mesh sync does, bit by bit *)

Section BitByBit.
Context {HT : HostTypes}.
Variable B : DirtyBitValues.

(** Lines 152-174 and 72-101.  In a geometry step that is not abandoned, a
    primvar called [normals] that holds an array of three floats with vertex
    interpolation reaches the renderer unindexed like the points, so the
    mesh is created with as many normals as positions; the same holds for
    the texture coordinates when the primvar found under [st] or [st0] holds
    an array of two floats with vertex interpolation. *)
Theorem vertex_primvars_match_the_points
    (sceneDelegate : HdSceneDelegate) (self self1 : Mesh.HdMoonshineMesh)
    (dirtyBits d1 : HdDirtyBits) (w w1 : World)
    (points normals : list GfVec3f) (texcoords : list GfVec2f) (count : Z)
    (mesh : MeshHandle) :
  Mesh.syncPoints B sceneDelegate self dirtyBits w = Some (Some (self1, d1), w1) ->
  calls (msne w1) = calls (msne w) ++ [CreateMesh points normals texcoords count mesh] ->
  (forall indexed,
     holds_Vec3fArray (Get sceneDelegate Mesh.tokens_normals) = Some indexed ->
     Mesh.FindPrimvarInterpolation sceneDelegate Mesh.tokens_normals
       = Some HdInterpolationVertex ->
     Mesh.unindex indexed (ComputeTriangleIndices sceneDelegate) = Some normals
     /\ length normals = length points)
  /\ (forall indexed,
        IsEmpty (Mesh.texcoordName sceneDelegate) = false ->
        holds_Vec2fArray (Get sceneDelegate (Mesh.texcoordName sceneDelegate))
          = Some indexed ->
        Mesh.FindPrimvarInterpolation sceneDelegate (Mesh.texcoordName sceneDelegate)
          = Some HdInterpolationVertex ->
        Mesh.unindex indexed (ComputeTriangleIndices sceneDelegate) = Some texcoords
        /\ length texcoords = length points).
Proof.
  unfold Mesh.syncPoints. intros H Hcalls.
  apply bind_inv in H. destruct H as (indexedPoints & w2 & Hfound & H).
  apply lift_inv in Hfound. destruct Hfound as [Hfound ->].
  destruct (Z.eqb_spec (Z.of_nat (length indexedPoints)) 0) as [Hempty | Hnonempty].
  { apply bind_inv in H. destruct H as (? & ? & _ & H). discriminate. }
  apply bind_inv in H. destruct H as (points' & w3 & Hpoints & H).
  apply lift_inv in Hpoints. destruct Hpoints as [Hpoints ->].
  apply bind_inv in H. destruct H as (texcoords' & w4 & Htexcoords & H).
  assert (Hw4 : msne w4 = msne w).
  { destruct (negb (IsEmpty (Mesh.texcoordName sceneDelegate))).
    - exact (ComputePrimvar_msne _ _ _ _ _ _ _ Htexcoords).
    - unfold ret in Htexcoords. now injection Htexcoords as _ <-. }
  apply bind_inv in H. destruct H as (normals' & w5 & Hnormals & H).
  pose proof (ComputePrimvar_msne _ _ _ _ _ _ _ Hnormals) as Hw5.
  apply bind_inv in H. destruct H as (mesh' & w6 & Hmesh & H).
  unfold create in Hmesh. injection Hmesh as <- <-.
  unfold ret in H. injection H as _ _ <-.
  cbn [msne calls] in Hcalls. rewrite Hw5, Hw4 in Hcalls.
  apply app_inv_head in Hcalls. injection Hcalls as <- <- <- _ _.
  pose proof (unindex_length _ _ _ Hpoints) as Hlen.
  split.
  - intros indexed Hholds Hinterp.
    pose proof (ComputePrimvar_vertex _ _ _ _ _ _ _ _ Hholds Hinterp Hnormals) as Hun.
    split; [ exact Hun | ]. rewrite (unindex_length _ _ _ Hun). now rewrite Hlen.
  - intros indexed Hname Hholds Hinterp. rewrite Hname in Htexcoords. cbn [negb] in Htexcoords.
    pose proof (ComputePrimvar_vertex _ _ _ _ _ _ _ _ Hholds Hinterp Htexcoords) as Hun.
    split; [ exact Hun | ]. rewrite (unindex_length _ _ _ Hun). now rewrite Hlen.
Qed.

(** [ComputePrimvar] on an array whose interpolation is neither vertex nor
    face-varying. *)
Lemma ComputePrimvar_other {T : Type} (holds : VtValue -> option (list T))
    (sceneDelegate : HdSceneDelegate) (indices : list GfVec3i) (name : TfToken)
    (w : World) (indexedPrimvar : list T) (interpolation : HdInterpolation) :
  holds (Get sceneDelegate name) = Some indexedPrimvar ->
  Mesh.FindPrimvarInterpolation sceneDelegate name = Some interpolation ->
  interpolation <> HdInterpolationVertex ->
  interpolation <> HdInterpolationFaceVarying ->
  Mesh.ComputePrimvar holds sceneDelegate indices name w =
  Some ([], {| msne := msne w;
               diagnostics :=
                 diagnostics w ++ [UnknownPrimvarInterpolation name interpolation] |}).
Proof.
  unfold Mesh.ComputePrimvar. intros -> -> Hv Hf.
  destruct interpolation; try contradiction; reflexivity.
Qed.

(** Lines 174 and 95-97.  In a geometry step that is not abandoned, normals
    authored with constant, uniform, varying or instance interpolation are
    dropped: the mesh is created without normals, and the last diagnostic of
    the step names the primvar and its interpolation. *)
Theorem normals_with_another_interpolation_are_dropped
    (sceneDelegate : HdSceneDelegate) (self self1 : Mesh.HdMoonshineMesh)
    (dirtyBits d1 : HdDirtyBits) (w w1 : World)
    (points normals indexed : list GfVec3f) (texcoords : list GfVec2f) (count : Z)
    (mesh : MeshHandle) (interpolation : HdInterpolation) :
  Mesh.syncPoints B sceneDelegate self dirtyBits w = Some (Some (self1, d1), w1) ->
  calls (msne w1) = calls (msne w) ++ [CreateMesh points normals texcoords count mesh] ->
  holds_Vec3fArray (Get sceneDelegate Mesh.tokens_normals) = Some indexed ->
  Mesh.FindPrimvarInterpolation sceneDelegate Mesh.tokens_normals = Some interpolation ->
  interpolation <> HdInterpolationVertex ->
  interpolation <> HdInterpolationFaceVarying ->
  normals = []
  /\ exists earlier,
       diagnostics w1 =
       earlier ++ [UnknownPrimvarInterpolation Mesh.tokens_normals interpolation].
Proof.
  unfold Mesh.syncPoints. intros H Hcalls Hholds Hinterp Hv Hf.
  apply bind_inv in H. destruct H as (indexedPoints & w2 & Hfound & H).
  apply lift_inv in Hfound. destruct Hfound as [Hfound ->].
  destruct (Z.eqb_spec (Z.of_nat (length indexedPoints)) 0) as [Hempty | Hnonempty].
  { apply bind_inv in H. destruct H as (? & ? & _ & H). discriminate. }
  apply bind_inv in H. destruct H as (points' & w3 & Hpoints & H).
  apply lift_inv in Hpoints. destruct Hpoints as [Hpoints ->].
  apply bind_inv in H. destruct H as (texcoords' & w4 & Htexcoords & H).
  assert (Hw4 : msne w4 = msne w).
  { destruct (negb (IsEmpty (Mesh.texcoordName sceneDelegate))).
    - exact (ComputePrimvar_msne _ _ _ _ _ _ _ Htexcoords).
    - unfold ret in Htexcoords. now injection Htexcoords as _ <-. }
  apply bind_inv in H. destruct H as (normals' & w5 & Hnormals & H).
  rewrite (ComputePrimvar_other _ _ _ _ _ _ _ Hholds Hinterp Hv Hf) in Hnormals.
  injection Hnormals as <- <-.
  apply bind_inv in H. destruct H as (mesh' & w6 & Hmesh & H).
  unfold create in Hmesh. injection Hmesh as <- <-.
  unfold ret in H. injection H as _ _ <-.
  cbn [msne calls diagnostics] in *. rewrite Hw4 in Hcalls.
  apply app_inv_head in Hcalls. injection Hcalls as _ <- _ _ _.
  split; [ reflexivity | ]. now exists (diagnostics w4).
Qed.

(** Lines 103-275.  A sync call with none of the five bits it handles set
    leaves the entity, the dirty bits and the renderer as they were; it only
    reports the bits it was given when the change tracker does not count
    them as clean. *)
Theorem sync_without_handled_bits_changes_nothing
    (sceneDelegate : HdSceneDelegate) (renderParam : HdMoonshineRenderParam)
    (self : Mesh.HdMoonshineMesh) (dirtyBits : HdDirtyBits) (w : World) :
  HdChangeTracker.IsPrimvarDirty_points B dirtyBits = false ->
  HdChangeTracker.IsVisibilityDirty B dirtyBits = false ->
  bits_test dirtyBits (DirtyMaterialId B) = false ->
  HdChangeTracker.IsTransformDirty B dirtyBits = false ->
  HdChangeTracker.IsInstancerDirty B dirtyBits = false ->
  Mesh.Sync B sceneDelegate renderParam self dirtyBits w =
  Some ((self, dirtyBits),
        {| msne := msne w;
           diagnostics :=
             diagnostics w ++
             (if HdChangeTracker.IsClean B dirtyBits then []
              else [MeshDirtyBitsIgnored dirtyBits]) |}).
Proof.
  intros HP HV HM HTr HI.
  unfold Mesh.Sync. rewrite HP. unfold bind at 1, ret at 1.
  unfold Mesh.syncAfterPoints, Mesh.syncVisibility, Mesh.syncMaterialId, Mesh.syncTransform.
  rewrite HV, HM, HTr, HI. cbn [orb].
  unfold bind at 1, Mesh.syncInstancer. rewrite HI. unfold ret at 1.
  unfold bind at 1, Mesh.updateInstances, bind at 1, bind at 1.
  unfold Mesh.IsVisible. rewrite eqb_reflx. cbn [negb].
  unfold ret at 1, ret at 1, ret at 1.
  destruct (HdChangeTracker.IsClean B dirtyBits); cbn [negb];
    unfold bind, TF_CODING_ERROR, ret.
  - rewrite app_nil_r. now destruct w.
  - reflexivity.
Qed.

(** Lines 182-187 and 265-269.  When the visibility bit is the only one of
    the five bits that is set, the sync reads the visibility, clears the
    bit, and sends every held instance the new visibility if it differs
    from the old one and nothing at all if it does not; no instance is
    created or destroyed. *)
Theorem visibility_only_updates_in_place
    (sceneDelegate : HdSceneDelegate) (renderParam : HdMoonshineRenderParam)
    (self : Mesh.HdMoonshineMesh) (dirtyBits : HdDirtyBits) (w : World) :
  HdChangeTracker.IsPrimvarDirty_points B dirtyBits = false ->
  HdChangeTracker.IsVisibilityDirty B dirtyBits = true ->
  bits_test dirtyBits (DirtyMaterialId B) = false ->
  HdChangeTracker.IsTransformDirty B dirtyBits = false ->
  HdChangeTracker.IsInstancerDirty B dirtyBits = false ->
  exists w',
    Mesh.Sync B sceneDelegate renderParam self dirtyBits w =
      Some ((Mesh.set_visible self (GetVisible sceneDelegate),
             bits_and dirtyBits (bits_not (DirtyVisibility B))), w')
    /\ calls (msne w') =
       calls (msne w) ++
       (if Bool.eqb (Mesh._visible self) (GetVisible sceneDelegate) then []
        else map (fun instance => SetInstanceVisibility instance (GetVisible sceneDelegate))
                 (Mesh._instances self))
    /\ next_handle (msne w') = next_handle (msne w).
Proof.
  intros HP HV HM HTr HI.
  assert (HM' : bits_test (bits_and dirtyBits (bits_not (DirtyVisibility B)))
                  (DirtyMaterialId B) = false)
    by (apply bits_test_clear_false; exact HM).
  assert (HT' : HdChangeTracker.IsTransformDirty B
                  (bits_and dirtyBits (bits_not (DirtyVisibility B))) = false)
    by (apply bits_test_clear_false; exact HTr).
  assert (HI' : HdChangeTracker.IsInstancerDirty B
                  (bits_and dirtyBits (bits_not (DirtyVisibility B))) = false)
    by (apply bits_test_clear_false; exact HI).
  unfold Mesh.Sync. rewrite HP. unfold bind at 1, ret at 1.
  unfold Mesh.syncAfterPoints, Mesh.syncVisibility, Mesh.syncMaterialId, Mesh.syncTransform,
    Mesh._UpdateVisibility.
  rewrite HV, HM', HT', HI'. cbn [orb].
  unfold bind at 1, Mesh.syncInstancer. rewrite HI'. unfold ret at 1.
  unfold bind at 1, Mesh.updateInstances, bind at 1, bind at 1.
  unfold Mesh.IsVisible. unfold ret at 1.
  cbn [Mesh._visible Mesh.set_visible Mesh._instances].
  destruct (Bool.eqb (Mesh._visible self) (GetVisible sceneDelegate)); cbn [negb].
  - unfold ret at 1, ret at 1.
    destruct (negb (HdChangeTracker.IsClean B
                (bits_and dirtyBits (bits_not (DirtyVisibility B)))));
      eexists; unfold bind, TF_CODING_ERROR, ret; cbn; rewrite ?app_nil_r;
      repeat split; reflexivity.
  - rewrite forM_call. unfold ret at 1.
    destruct (negb (HdChangeTracker.IsClean B
                (bits_and dirtyBits (bits_not (DirtyVisibility B)))));
      eexists; unfold bind, TF_CODING_ERROR, ret; cbn;
      repeat split; reflexivity.
Qed.

(** The members and the bits after everything that follows the geometry. *)
Lemma syncAfterPoints_members (sceneDelegate : HdSceneDelegate)
    (renderParam : HdMoonshineRenderParam) (mesh_changed : bool)
    (self self' : Mesh.HdMoonshineMesh) (dirtyBits dirtyBits' : HdDirtyBits)
    (w w' : World) :
  Mesh.syncAfterPoints B sceneDelegate renderParam mesh_changed self dirtyBits w
    = Some ((self', dirtyBits'), w') ->
  let sv := Mesh.syncVisibility B sceneDelegate self dirtyBits in
  let sm := Mesh.syncMaterialId B sceneDelegate renderParam (fst sv) (snd sv) in
  let st := Mesh.syncTransform B sceneDelegate (fst sm) (snd sm) in
  Mesh._mesh self' = Mesh._mesh (fst st)
  /\ Mesh._visible self' = Mesh._visible (fst st)
  /\ Mesh._material self' = Mesh._material (fst st)
  /\ Mesh._transform self' = Mesh._transform (fst st)
  /\ (bits_test (snd st) (DirtyInstancer B) = false ->
      Mesh._instancesTransforms self' = Mesh._instancesTransforms (fst st))
  /\ dirtyBits' = (if bits_test (snd st) (DirtyInstancer B)
                   then bits_and (snd st) (bits_not (DirtyInstancer B)) else snd st).
Proof.
  intros H sv sm st. unfold Mesh.syncAfterPoints in H.
  fold sv in H. destruct sv as [s1 d1] eqn:Esv. cbn [fst snd] in *.
  fold sm in H. destruct sm as [s2 d2] eqn:Esm. cbn [fst snd] in *.
  fold st in H. destruct st as [s3 d3] eqn:Est. cbn [fst snd] in *.
  apply bind_inv in H. destruct H as ([s4 d4] & w1 & Hinst & H).
  rewrite syncInstancer_spec in Hinst.
  unfold HdChangeTracker.IsInstancerDirty in Hinst.
  apply bind_inv in H. destruct H as (s5 & w2 & Hupd & H).
  apply report_msne in H. destruct H as [E _]. injection E as <- <-.
  assert (Hs5 : self' = Mesh.set_instances s4 (Mesh._instances self')).
  { destruct (mesh_changed || false || bits_test d1 (DirtyMaterialId B)).
    - rewrite recreateInstances_spec in Hupd. now injection Hupd as <- _.
    - apply bind_inv in Hupd. destruct Hupd as (? & ? & _ & E).
      unfold ret in E. injection E as <- _. now destruct s4. }
  rewrite Hs5. cbn [Mesh.set_instances Mesh._mesh Mesh._visible Mesh._material
                    Mesh._transform Mesh._instancesTransforms].
  destruct (bits_test d3 (DirtyInstancer B)).
  - destruct (IsEmpty (GetInstancerId sceneDelegate)).
    + injection Hinst as <- <- _. repeat split. discriminate.
    + destruct (GetInstancer sceneDelegate (GetInstancerId sceneDelegate));
        [ | discriminate ].
      injection Hinst as <- <- _. repeat split. discriminate.
  - injection Hinst as <- <- _. repeat split.
Qed.

(** An abandoned geometry step found no point. *)
Lemma syncPoints_abandoned (sceneDelegate : HdSceneDelegate) (self : Mesh.HdMoonshineMesh)
    (dirtyBits : HdDirtyBits) (w w1 : World) :
  Mesh.syncPoints B sceneDelegate self dirtyBits w = Some (None, w1) ->
  Mesh.findIndexedPoints sceneDelegate = Some [].
Proof.
  unfold Mesh.syncPoints. intros H.
  apply bind_inv in H. destruct H as (indexedPoints & w2 & Hfound & H).
  apply lift_inv in Hfound. destruct Hfound as [Hfound ->].
  destruct (Z.eqb_spec (Z.of_nat (length indexedPoints)) 0) as [Hempty | Hnonempty].
  - destruct indexedPoints; [ exact Hfound | cbn in Hempty; lia ].
  - apply bind_inv in H. destruct H as (points & w3 & _ & H).
    apply bind_inv in H. destruct H as (texcoords & w4 & _ & H).
    apply bind_inv in H. destruct H as (normals & w5 & _ & H).
    apply bind_inv in H. destruct H as (mesh & w6 & _ & H).
    unfold ret in H. discriminate.
Qed.

(** Lines 103-275.  Every member of the entity is written under its own
    dirty bit only: without the points bit the geometry handle is kept,
    without the visibility bit the visibility, without the material-binding
    bit the material handle, without the transform bit the transform,
    without the instancer bit the stored instance transforms; and without
    the points and material-binding bits the instance handles are kept. *)
Theorem sync_writes_a_member_only_under_its_bit
    (sceneDelegate : HdSceneDelegate) (renderParam : HdMoonshineRenderParam)
    (self self' : Mesh.HdMoonshineMesh) (dirtyBits dirtyBits' : HdDirtyBits)
    (w w' : World) :
  Mesh.Sync B sceneDelegate renderParam self dirtyBits w = Some ((self', dirtyBits'), w') ->
  (HdChangeTracker.IsPrimvarDirty_points B dirtyBits = false ->
   Mesh._mesh self' = Mesh._mesh self)
  /\ (HdChangeTracker.IsVisibilityDirty B dirtyBits = false ->
      Mesh._visible self' = Mesh._visible self)
  /\ (bits_test dirtyBits (DirtyMaterialId B) = false ->
      Mesh._material self' = Mesh._material self)
  /\ (HdChangeTracker.IsTransformDirty B dirtyBits = false ->
      Mesh._transform self' = Mesh._transform self)
  /\ (HdChangeTracker.IsInstancerDirty B dirtyBits = false ->
      Mesh._instancesTransforms self' = Mesh._instancesTransforms self)
  /\ (HdChangeTracker.IsPrimvarDirty_points B dirtyBits = false ->
      bits_test dirtyBits (DirtyMaterialId B) = false ->
      Mesh._instances self' = Mesh._instances self).
Proof.
  intros H. unfold Mesh.Sync in H.
  unfold HdChangeTracker.IsVisibilityDirty, HdChangeTracker.IsTransformDirty,
    HdChangeTracker.IsInstancerDirty.
  apply bind_inv in H. destruct H as (geometry & w1 & Hgeo & H).
  destruct geometry as [[s1 d1] | ];
    [ | unfold ret in H; injection H as <- <- <-; now repeat split ].
  assert (Hgeometry :
            (HdChangeTracker.IsPrimvarDirty_points B dirtyBits = false -> s1 = self)
            /\ Mesh._visible s1 = Mesh._visible self
            /\ Mesh._material s1 = Mesh._material self
            /\ Mesh._transform s1 = Mesh._transform self
            /\ Mesh._instancesTransforms s1 = Mesh._instancesTransforms self
            /\ Mesh._instances s1 = Mesh._instances self
            /\ forall m, bits_test dirtyBits m = false -> bits_test d1 m = false).
  { destruct (HdChangeTracker.IsPrimvarDirty_points B dirtyBits).
    - apply syncPoints_completes in Hgeo. destruct Hgeo as [-> ->].
      repeat split; try discriminate.
      intros m Hm. now apply bits_test_clear_false.
    - unfold ret in Hgeo. injection Hgeo as <- <- _. now repeat split. }
  destruct Hgeometry as (Hsame & Gv & Gm & Gt & Gi & Gh & Gbits).
  pose proof (syncAfterPoints_members _ _ _ _ _ _ _ _ _ H) as Hmembers.
  pose proof (pure_steps_members B sceneDelegate renderParam s1 d1) as Hpure.
  pose proof (pure_steps_bits B sceneDelegate renderParam s1 d1) as Hbits.
  pose proof (syncAfterPoints_modes B _ _ _ _ _ _ _ _ _ H) as (cs & _ & _ & Hmode).
  cbv zeta in Hmembers, Hpure, Hbits.
  destruct Hmembers as (Mmesh & Mvis & Mmat & Mtr & Mit & _).
  destruct Hpure as (Pmesh & Pinst & Pit & Pvis & Pvis' & Pmat & Ptr).
  destruct Hbits as (Bv & Bm & Bt).
  assert (Hv : forall m, bits_test dirtyBits m = false ->
                         bits_test (snd (Mesh.syncVisibility B sceneDelegate s1 d1)) m = false).
  { intros m Hm. rewrite Bv. destruct (bits_test d1 (DirtyVisibility B)).
    - apply bits_test_clear_false. now apply Gbits.
    - now apply Gbits. }
  assert (Hm : forall m, bits_test dirtyBits m = false ->
                         bits_test (snd (Mesh.syncMaterialId B sceneDelegate renderParam
                                           (fst (Mesh.syncVisibility B sceneDelegate s1 d1))
                                           (snd (Mesh.syncVisibility B sceneDelegate s1 d1))))
                                   m = false).
  { intros m Hm. rewrite Bm.
    destruct (bits_test (snd (Mesh.syncVisibility B sceneDelegate s1 d1)) (DirtyMaterialId B)).
    - apply bits_test_clear_false. now apply Hv.
    - now apply Hv. }
  split; [ | split; [ | split; [ | split; [ | split ] ] ] ].
  - intros HP. rewrite Mmesh, Pmesh. now rewrite (Hsame HP).
  - intros HV. rewrite Mvis, Pvis, Pvis'. now rewrite (Gbits _ HV).
  - intros HM. rewrite Mmat, Pmat. now rewrite (Hv _ HM).
  - intros HTr. rewrite Mtr, Ptr. now rewrite (Hm _ HTr).
  - intros HI. rewrite Mit, Pit; [ exact Gi | ].
    rewrite Bt.
    match goal with |- context [if ?b then _ else _] => destruct b end.
    + apply bits_test_clear_false. now apply Hm.
    + now apply Hm.
  - intros HP HM. rewrite HP, (Hv _ HM) in Hmode. cbn [orb] in Hmode.
    destruct Hmode as (_ & _ & ->). exact Gh.
Qed.

(** Lines 179-232.  A sync call that is not abandoned at the empty-points
    check returns the dirty bits it was given with the five bits it handles
    removed and every other bit as it was. *)
Theorem completed_sync_clears_exactly_the_five_bits
    (sceneDelegate : HdSceneDelegate) (renderParam : HdMoonshineRenderParam)
    (self self' : Mesh.HdMoonshineMesh) (dirtyBits dirtyBits' : HdDirtyBits)
    (w w' : World) :
  rprim_bits_ok B = true ->
  0 <= dirtyBits <= UINT32_MAX ->
  HdChangeTracker.IsPrimvarDirty_points B dirtyBits = false
  \/ Mesh.findIndexedPoints sceneDelegate <> Some [] ->
  Mesh.Sync B sceneDelegate renderParam self dirtyBits w = Some ((self', dirtyBits'), w') ->
  dirtyBits' = bits_and dirtyBits (bits_not (Mesh.GetInitialDirtyBitsMask B)).
Proof.
  intros Hok Hrange Hcompleted H. destruct (rprim_bits_facts B Hok).
  unfold Mesh.Sync in H.
  apply bind_inv in H. destruct H as (geometry & w1 & Hgeo & H).
  assert (Hgeometry : exists s1,
             geometry = Some (s1, bits_and dirtyBits (bits_not (DirtyPoints B)))).
  { destruct (HdChangeTracker.IsPrimvarDirty_points B dirtyBits) eqn:HP.
    - destruct geometry as [[s1 d1] | ].
      + apply syncPoints_completes in Hgeo. destruct Hgeo as [_ ->]. now exists s1.
      + apply syncPoints_abandoned in Hgeo.
        destruct Hcompleted as [Hc | Hc]; [ discriminate | contradiction ].
    - unfold ret in Hgeo. injection Hgeo as <- _. exists self.
      now rewrite clear_unset. }
  destruct Hgeometry as (s1 & ->).
  pose proof (syncAfterPoints_members _ _ _ _ _ _ _ _ _ H) as Hmembers.
  pose proof (pure_steps_bits B sceneDelegate renderParam s1
                (bits_and dirtyBits (bits_not (DirtyPoints B)))) as Hbits.
  cbv zeta in Hmembers, Hbits.
  destruct Hmembers as (_ & _ & _ & _ & _ & ->).
  destruct Hbits as (Bv & Bm & Bt).
  rewrite clear_if_set in Bv by (apply bits_and_range; exact Hrange).
  rewrite clear_if_set in Bm by (rewrite Bv; do 2 apply bits_and_range; exact Hrange).
  rewrite clear_if_set in Bt by (rewrite Bm, Bv; do 3 apply bits_and_range; exact Hrange).
  rewrite clear_if_set by (rewrite Bt, Bm, Bv; do 4 apply bits_and_range; exact Hrange).
  rewrite Bt, Bm, Bv.
  unfold Mesh.GetInitialDirtyBitsMask. now apply clear_five.
Qed.

(** The log of a rebuild, in terms of the entity it leaves behind. *)
Lemma syncAfterPoints_rebuild_log (sceneDelegate : HdSceneDelegate)
    (renderParam : HdMoonshineRenderParam) (mesh_changed : bool)
    (self self' : Mesh.HdMoonshineMesh) (dirtyBits dirtyBits' : HdDirtyBits)
    (w w' : World) :
  Mesh.syncAfterPoints B sceneDelegate renderParam mesh_changed self dirtyBits w
    = Some ((self', dirtyBits'), w') ->
  mesh_changed
  || bits_test (snd (Mesh.syncVisibility B sceneDelegate self dirtyBits))
       (DirtyMaterialId B) = true ->
  calls (msne w') =
    calls (msne w)
    ++ map DestroyInstance (Mesh._instances self)
    ++ map (fun th : GfMatrix4f * InstanceHandle =>
              CreateInstance
                (Mesh.to_Mat3x4 (GfMatrix4f_mul (Mesh._transform self') (fst th)))
                (Mesh._mesh self') (Mesh._material self') (Mesh._visible self') (snd th))
           (combine (Mesh._instancesTransforms self') (Mesh._instances self'))
  /\ length (Mesh._instances self') = length (Mesh._instancesTransforms self').
Proof.
  intros H Hchanged.
  pose proof (syncAfterPoints_members _ _ _ _ _ _ _ _ _ H) as Hmembers.
  pose proof (pure_steps_members B sceneDelegate renderParam self dirtyBits) as Hpure.
  cbv zeta in Hmembers, Hpure.
  destruct Hmembers as (_ & Mvis & _ & _ & _ & _).
  destruct Hpure as (_ & Pinst & _ & Pvis & _ & _ & _).
  unfold Mesh.syncAfterPoints in H.
  revert H Hchanged Mvis Pinst Pvis.
  destruct (Mesh.syncVisibility B sceneDelegate self dirtyBits) as [s1 d1]. cbn [fst snd].
  destruct (Mesh.syncMaterialId B sceneDelegate renderParam s1 d1) as [s2 d2]. cbn [fst snd].
  destruct (Mesh.syncTransform B sceneDelegate s2 d2) as [s3 d3]. cbn [fst snd].
  intros H Hchanged Mvis Pinst Pvis.
  apply bind_inv in H. destruct H as ([s4 d4] & w1 & Hinst & H).
  apply syncInstancer_instances in Hinst. destruct Hinst as [-> I4].
  apply bind_inv in H. destruct H as (s5 & w2 & Hupd & H).
  apply report_msne in H. destruct H as [E Hw]. injection E as <- <-.
  rewrite Hw. clear Hw w'.
  rewrite orb_false_r, Hchanged in Hupd.
  rewrite recreateInstances_spec in Hupd. injection Hupd as <- <-.
  cbn [msne calls next_handle Mesh._instances Mesh._instancesTransforms Mesh._transform
       Mesh._mesh Mesh._material Mesh._visible Mesh.set_instances] in *.
  unfold Mesh.IsVisible. rewrite I4, Pinst, Mvis, Pvis.
  split; [ reflexivity | apply length_seq ].
Qed.

(** Lines 236-251.  A sync call that rebuilds, because the points bit is
    set and points were found or because the material-binding bit is set,
    sends the renderer, after the creation of the mesh if there is one, the
    destruction of every instance handle the entity held, in order, and then
    one instance creation per stored transform, each with the product of the
    entity's transform and that stored transform, the entity's geometry
    handle, material handle and visibility as the call leaves them.  The
    entity ends up holding the handles these creations returned: as many
    handles as stored transforms. *)
Theorem rebuild_destroys_and_recreates_every_instance
    (sceneDelegate : HdSceneDelegate) (renderParam : HdMoonshineRenderParam)
    (self self' : Mesh.HdMoonshineMesh) (dirtyBits dirtyBits' : HdDirtyBits)
    (w w' : World) :
  rprim_bits_ok B = true ->
  (HdChangeTracker.IsPrimvarDirty_points B dirtyBits = true
   /\ Mesh.findIndexedPoints sceneDelegate <> Some [])
  \/ (HdChangeTracker.IsPrimvarDirty_points B dirtyBits = false
      /\ bits_test dirtyBits (DirtyMaterialId B) = true) ->
  Mesh.Sync B sceneDelegate renderParam self dirtyBits w = Some ((self', dirtyBits'), w') ->
  exists geometry,
    calls (msne w') =
      calls (msne w) ++ geometry
      ++ map DestroyInstance (Mesh._instances self)
      ++ map (fun th : GfMatrix4f * InstanceHandle =>
                CreateInstance
                  (Mesh.to_Mat3x4 (GfMatrix4f_mul (Mesh._transform self') (fst th)))
                  (Mesh._mesh self') (Mesh._material self') (Mesh._visible self') (snd th))
             (combine (Mesh._instancesTransforms self') (Mesh._instances self'))
    /\ created_instances geometry = []
    /\ destroyed_instances geometry = []
    /\ length (Mesh._instances self') = length (Mesh._instancesTransforms self').
Proof.
  intros Hok Hrebuild H. destruct (rprim_bits_facts B Hok).
  unfold Mesh.Sync in H.
  apply bind_inv in H. destruct H as (geometry & w1 & Hgeo & H).
  destruct Hrebuild as [[HP Hfound] | [HP HM]]; rewrite HP in Hgeo, H.
  - destruct geometry as [[s1 d1] | ];
      [ | apply syncPoints_abandoned in Hgeo; contradiction ].
    destruct (syncPoints_quiet _ _ _ _ _ _ _ Hgeo) as (cs0 & L0 & _ & HP0).
    apply no_instance_calls in HP0. destruct HP0 as (C0 & D0 & _).
    apply syncPoints_completes in Hgeo. destruct Hgeo as [Hs1 _].
    destruct (syncAfterPoints_rebuild_log _ _ _ _ _ _ _ _ _ H eq_refl) as (L & Hlen).
    exists cs0. rewrite L, L0, <- app_assoc.
    rewrite Hs1. cbn [Mesh._instances Mesh.set_mesh]. now repeat split.
  - unfold ret in Hgeo. injection Hgeo as <- <-.
    assert (HM' : bits_test (snd (Mesh.syncVisibility B sceneDelegate self dirtyBits))
                    (DirtyMaterialId B) = true).
    { rewrite syncVisibility_spec.
      destruct (HdChangeTracker.IsVisibilityDirty B dirtyBits); cbn [snd]; [ | exact HM ].
      rewrite bits_test_clear_other; assumption. }
    destruct (syncAfterPoints_rebuild_log _ _ _ _ _ _ _ _ _ H HM') as (L & Hlen).
    exists []. rewrite L. now repeat split.
Qed.

(** Lines 218-262.  When the instancer bit is set, the points and
    material-binding bits are clear and the instancer answers with exactly
    as many transforms as the entity holds handles, the sync stores the new
    transforms, keeps the handles, and sends every handle its new transform
    in place. *)
Theorem instancer_update_with_same_count_is_in_place
    (sceneDelegate : HdSceneDelegate) (renderParam : HdMoonshineRenderParam)
    (self : Mesh.HdMoonshineMesh) (dirtyBits : HdDirtyBits) (w : World)
    (ts : list GfMatrix4d) :
  rprim_bits_ok B = true ->
  HdChangeTracker.IsPrimvarDirty_points B dirtyBits = false ->
  HdChangeTracker.IsVisibilityDirty B dirtyBits = false ->
  bits_test dirtyBits (DirtyMaterialId B) = false ->
  HdChangeTracker.IsInstancerDirty B dirtyBits = true ->
  IsEmpty (GetInstancerId sceneDelegate) = false ->
  GetInstancer sceneDelegate (GetInstancerId sceneDelegate) = Some ts ->
  length ts = length (Mesh._instances self) ->
  exists self' dirtyBits' w',
    Mesh.Sync B sceneDelegate renderParam self dirtyBits w = Some ((self', dirtyBits'), w')
    /\ Mesh._instances self' = Mesh._instances self
    /\ Mesh._instancesTransforms self' = map GfMatrix4f_narrow ts
    /\ length (Mesh._instances self') = length (Mesh._instancesTransforms self')
    /\ next_handle (msne w') = next_handle (msne w)
    /\ calls (msne w') =
       calls (msne w) ++
       map (fun ht : InstanceHandle * GfMatrix4f =>
              SetInstanceTransform (fst ht)
                (Mesh.to_Mat3x4 (GfMatrix4f_mul (Mesh._transform self') (snd ht))))
           (combine (Mesh._instances self) (map GfMatrix4f_narrow ts)).
Proof.
  intros Hok HP HV HM HI Hid Hts Hlen.
  destruct (instancer_sync_in_place B sceneDelegate renderParam self dirtyBits w ts
              Hok HP HM HI Hid Hts ltac:(lia)) as (dirtyBits' & w' & Hsync & Hnext & Hcalls).
  eexists _, dirtyBits', w'. split; [ exact Hsync | ].
  cbn [Mesh._instances Mesh._instancesTransforms Mesh._transform Mesh._visible] in *.
  rewrite HV in Hcalls. rewrite eqb_reflx, app_nil_r in Hcalls.
  rewrite length_map. repeat split; try assumption. now symmetry.
Qed.

(** The in-place loop with fewer handles than transforms indexes the
    handles past their end. *)
Lemma updateTransforms_overrun (self : Mesh.HdMoonshineMesh) (ts : list GfMatrix4f) :
  forall (i : nat) (w : World),
    (i <= length (Mesh._instances self))%nat ->
    (length (Mesh._instances self) < i + length ts)%nat ->
    Mesh.updateTransforms self i ts w = None.
Proof.
  induction ts as [ | t ts IH]; intros i w Hi Hlen.
  - cbn in Hlen. lia.
  - cbn [Mesh.updateTransforms]. unfold bind at 1.
    destruct (nth_error (Mesh._instances self) i) as [h | ] eqn:Hnth.
    + cbn [lift]. unfold ret at 1. unfold bind at 1, call at 1.
      assert (Hlt : (i < length (Mesh._instances self))%nat)
        by (apply nth_error_Some; congruence).
      apply IH; [ lia | cbn [length] in Hlen; lia ].
    + reflexivity.
Qed.

(** Lines 218-262.  When the instancer bit is set, the points and
    material-binding bits are clear and the instancer answers with more
    transforms than the entity holds handles, the in-place loop reads
    [_instances] past its end: the behaviour of the sync is undefined. *)
Theorem instancer_growth_is_undefined
    (sceneDelegate : HdSceneDelegate) (renderParam : HdMoonshineRenderParam)
    (self : Mesh.HdMoonshineMesh) (dirtyBits : HdDirtyBits) (w : World)
    (ts : list GfMatrix4d) :
  rprim_bits_ok B = true ->
  HdChangeTracker.IsPrimvarDirty_points B dirtyBits = false ->
  bits_test dirtyBits (DirtyMaterialId B) = false ->
  HdChangeTracker.IsInstancerDirty B dirtyBits = true ->
  IsEmpty (GetInstancerId sceneDelegate) = false ->
  GetInstancer sceneDelegate (GetInstancerId sceneDelegate) = Some ts ->
  (length (Mesh._instances self) < length ts)%nat ->
  Mesh.Sync B sceneDelegate renderParam self dirtyBits w = None.
Proof.
  intros Hok HP HM HI Hid Hts Hlen.
  destruct (rprim_bits_facts B Hok).
  unfold HdChangeTracker.IsInstancerDirty, HdChangeTracker.IsPrimvarDirty_points in *.
  assert (HM_V : bits_test (bits_and dirtyBits (bits_not (DirtyVisibility B)))
                   (DirtyMaterialId B) = false)
    by now apply bits_test_clear_false.
  assert (HI_V : bits_test (bits_and dirtyBits (bits_not (DirtyVisibility B)))
                   (DirtyInstancer B) = true)
    by (rewrite bits_test_clear_other; [ exact HI | assumption | now rewrite Z.land_comm ]).
  assert (HT_V : bits_test (bits_and dirtyBits (bits_not (DirtyVisibility B)))
                   (DirtyTransform B) = bits_test dirtyBits (DirtyTransform B))
    by (rewrite bits_test_clear_other; [ reflexivity | assumption | now rewrite Z.land_comm ]).
  assert (HI_T : forall d, bits_test d (DirtyInstancer B) = true ->
                 bits_test (bits_and d (bits_not (DirtyTransform B))) (DirtyInstancer B) = true)
    by (intros d Hd; rewrite bits_test_clear_other; assumption).
  unfold Mesh.Sync, Mesh.syncAfterPoints, Mesh.syncVisibility, Mesh.syncMaterialId,
    Mesh.syncTransform, Mesh.syncInstancer, Mesh._UpdateVisibility, Mesh.updateInstances,
    Mesh.IsVisible.
  unfold HdChangeTracker.IsInstancerDirty, HdChangeTracker.IsTransformDirty,
    HdChangeTracker.IsVisibilityDirty, HdChangeTracker.IsPrimvarDirty_points.
  rewrite HP.
  pose proof (HI_T _ HI) as HI_T1. pose proof (HI_T _ HI_V) as HI_T2.
  destruct (bits_test dirtyBits (DirtyVisibility B)) eqn:HV;
    destruct (bits_test dirtyBits (DirtyTransform B)) eqn:HTr;
    unfold bind, ret, lift, Mesh.set_instancesTransforms, Mesh.set_transform,
      Mesh.set_visible;
    repeat (progress (cbn [Mesh._instancesTransforms Mesh._instances Mesh._transform
                           Mesh._visible Mesh._mesh Mesh._material app fst snd orb negb];
                      cbv beta iota zeta; unfold ret;
                      rewrite ?HV, ?HM, ?HM_V, ?HTr, ?HT_V, ?HI, ?HI_V, ?HI_T1, ?HI_T2,
                              ?Hid, ?Hts));
    rewrite updateTransforms_overrun
      by (cbn [Mesh._instances]; rewrite ?length_map; lia);
    reflexivity.
Qed.
End BitByBit.

(** * What a material sync calls *)

Section MaterialCalls.
Context {HT : HostTypes}.
Variable B : DirtyBitValues.
Variable hio : HioApi.

Lemma makeTexture_material_calls (handle : MaterialHandle) (scene : MaterialScene)
    (value : VtValue) (swizzle : string) (colorSpace dst : TfToken) (debug_name : string) :
  emits (fun c => is_material_call handle c = true)
        (Material.makeTexture hio scene value swizzle colorSpace dst debug_name).
Proof.
  unfold Material.makeTexture, Material.makeTexture_asset.
  destruct value as [ | f | [[v0 v1] v2] | a | a | t | path | name ];
    repeat (emits_step; try reflexivity).
Qed.

Lemma SetTextureBasedOnValueAndName_material_calls (scene : MaterialScene)
    (handle : MaterialHandle) (name : TfToken) (value : VtValue) (swizzle : string)
    (colorSpace : TfToken) (debug_name : string) :
  emits (fun c => is_material_call handle c = true)
        (Material.SetTextureBasedOnValueAndName hio scene handle name value swizzle
           colorSpace debug_name).
Proof.
  unfold Material.SetTextureBasedOnValueAndName.
  repeat first [ apply makeTexture_material_calls
               | emits_step; try (cbn [is_material_call]; apply Nat.eqb_refl) ].
Qed.

Lemma syncInput_material_calls (scene : MaterialScene) (self : HdMoonshineMaterial)
    (network : HdMaterialNetwork2) (node : HdMaterialNode2) (sdrNode : SdrShaderNode)
    (inputName : TfToken) :
  emits (fun c => is_material_call (_handle self) c = true)
        (Material.syncInput hio scene self network node sdrNode inputName).
Proof.
  unfold Material.syncInput.
  repeat first [ apply SetTextureBasedOnValueAndName_material_calls
               | emits_step; try reflexivity ].
Qed.

Lemma material_Sync_material_calls (scene : MaterialScene)
    (renderParam : HdMoonshineRenderParam) (self : HdMoonshineMaterial)
    (dirtyBits : HdDirtyBits) :
  emits (fun c => is_material_call (_handle self) c = true)
        (Material.Sync B hio scene renderParam self dirtyBits).
Proof.
  unfold Material.Sync, Material.syncInputs, Material.reportIgnored.
  repeat first [ apply syncInput_material_calls | emits_step; try reflexivity ].
Qed.

(** Lines 182-255.  Whatever the network, the calls a material sync sends
    the renderer are texture creations and setters applied to the handle of
    the entity being synced: it never sets an input of another material,
    never creates a material, and never touches a mesh or an instance. *)
Theorem material_sync_touches_only_its_material
    (scene : MaterialScene) (renderParam : HdMoonshineRenderParam)
    (self : HdMoonshineMaterial) (dirtyBits dirtyBits' : HdDirtyBits) (w w' : World) :
  Material.Sync B hio scene renderParam self dirtyBits w = Some (dirtyBits', w') ->
  exists cs,
    calls (msne w') = calls (msne w) ++ cs
    /\ forallb (is_material_call (_handle self)) cs = true.
Proof.
  intros H.
  destruct (material_Sync_material_calls scene renderParam self dirtyBits _ _ _ H)
    as (cs & L & _ & HP).
  exists cs. split; [ exact L | ]. apply forallb_forall.
  rewrite Forall_forall in HP. exact HP.
Qed.

(** renderParam.hpp, lines 12-26, with material.cpp, lines 30-40.  A
    material entity constructed after the render parameter is created with
    the very textures and index of refraction of the default material, under
    a handle of its own. *)
Theorem material_entity_starts_as_the_default_material
    (w w1 w2 : World) (renderParam : HdMoonshineRenderParam)
    (material : HdMoonshineMaterial) :
  new_HdMoonshineRenderParam w = Some (renderParam, w1) ->
  Material.new_HdMoonshineMaterial renderParam w1 = Some (material, w2) ->
  exists look textures,
    calls (msne w1) = calls (msne w) ++ textures
                      ++ [CreateMaterial look (_defaultMaterial renderParam)]
    /\ calls (msne w2) = calls (msne w1) ++ [CreateMaterial look (_handle material)]
    /\ _handle material = S (_defaultMaterial renderParam)
    /\ Forall (fun c => creates_mesh_or_texture c = true) textures
    /\ map returned_handle textures =
       [ Some (_black3 renderParam); Some (_black1 renderParam);
         Some (_upNormal renderParam); Some (_grey3 renderParam);
         Some (_white1 renderParam) ]
    /\ look = {| normal := _upNormal renderParam; emissive := _black3 renderParam;
                 color := _grey3 renderParam; metalness := _black1 renderParam;
                 roughness := _white1 renderParam; ior := F32_one_and_half |}.
Proof.
  unfold new_HdMoonshineRenderParam, Material.new_HdMoonshineMaterial, bind, create, ret.
  cbn. intros E1 E2. injection E1 as <- <-. injection E2 as <- <-.
  cbn. rewrite <- !app_assoc. cbn [app].
  eexists _, [_; _; _; _; _].
  split; [ reflexivity | ].
  split; [ rewrite <- app_assoc; reflexivity | ].
  split; [ reflexivity | ].
  split; [ repeat constructor | ].
  split; reflexivity.
Qed.

Lemma token_eqb_neq (a b : TfToken) : a <> b -> token_eqb a b = false.
Proof. intros H. unfold token_eqb. now apply String.eqb_neq. Qed.

(** Lines 148-180.  For an input whose name is neither [ior] nor
    [useSpecularWorkflow] nor one of the five texture slots, a texture is
    still made from its value, and that is all: the call reports success
    and the renderer is left exactly as the creation of the texture left
    it, the new texture bound to nothing. *)
Theorem texture_of_an_unnamed_input_is_left_unbound
    (scene : MaterialScene) (handle : MaterialHandle) (name : TfToken) (value : VtValue)
    (swizzle : string) (colorSpace : TfToken) (debug_name : string)
    (texture : ImageHandle) (w w1 : World) :
  ~ In name [ Material.tokens_ior; Material.tokens_useSpecularWorkflow;
              Material.tokens_diffuseColor; Material.tokens_emissiveColor;
              Material.tokens_normal; Material.tokens_roughness;
              Material.tokens_metallic ] ->
  Material.makeTexture hio scene value swizzle colorSpace name
    (debug_name ++ " " ++ name)%string w = Some (Some texture, w1) ->
  Material.SetTextureBasedOnValueAndName hio scene handle name value swizzle colorSpace
    debug_name w = Some (true, w1).
Proof.
  intros Hname Hmake. unfold Material.SetTextureBasedOnValueAndName.
  cbn [In] in Hname.
  rewrite !token_eqb_neq by (intros ->; tauto).
  unfold bind at 1. rewrite Hmake.
  unfold bind, ret. reflexivity.
Qed.

(** Lines 219-235 and 77-79.  An input other than [ior] and
    [useSpecularWorkflow] that is connected to a texture node whose file
    the image library cannot open: the null image is dereferenced, so the
    behaviour of the loop body, and with it of the sync, is undefined. *)
Theorem unreadable_texture_file_is_undefined
    (scene : MaterialScene) (self : HdMoonshineMaterial) (network : HdMaterialNetwork2)
    (node upstream : HdMaterialNode2) (sdrNode upstreamSdr : SdrShaderNode)
    (inputName fileProperty : TfToken) (con : HdMaterialConnection2)
    (others : list HdMaterialConnection2) (otherProperties : list TfToken)
    (swizzle resolvedPath : string) (colorSpace : VtValue) (w : World) :
  inputConnections node inputName = Some (con :: others) ->
  nodes network (upstreamNode con) = Some upstream ->
  GetShaderNodeByIdentifier scene (nodeTypeId upstream) = Some upstreamSdr ->
  token_eqb (GetRole upstreamSdr) Material.SdrNodeRole_Texture = true ->
  GetShaderOutput upstreamSdr (upstreamOutputName con) = Some swizzle ->
  parameters upstream Material.tokens_sourceColorSpace = Some colorSpace ->
  GetAssetIdentifierInputNames upstreamSdr = fileProperty :: otherProperties ->
  parameters upstream fileProperty = Some (VtAssetPath resolvedPath) ->
  token_eqb inputName Material.tokens_ior = false ->
  token_eqb inputName Material.tokens_useSpecularWorkflow = false ->
  OpenForReading scene resolvedPath = None ->
  Material.syncInput hio scene self network node sdrNode inputName w = None.
Proof.
  intros Hcon Hup Hsdr Hrole Hout Hcs Hfile Hvalue Hior Hspec Hopen.
  unfold Material.syncInput. rewrite Hcon. cbn [hd_error lift].
  unfold bind at 1, ret at 1. rewrite Hup. cbn [lift].
  unfold bind at 1, ret at 1. rewrite Hsdr. cbn [lift].
  unfold bind at 1, ret at 1. rewrite Hrole, Hout. cbn [lift].
  unfold bind at 1, ret at 1. rewrite Hcs. cbn [lift].
  unfold bind at 1, ret at 1. rewrite Hfile. cbn [hd_error lift].
  unfold bind at 1, ret at 1. rewrite Hvalue. cbn [lift].
  unfold bind at 1, ret at 1.
  unfold Material.SetTextureBasedOnValueAndName. rewrite Hior, Hspec.
  unfold bind at 1. unfold Material.makeTexture, Material.makeTexture_asset.
  unfold bind at 1. rewrite Hopen. reflexivity.
Qed.
End MaterialCalls.

(** * The instances of a session *)

Section Balance.
Context {HT : HostTypes}.
Variable B : DirtyBitValues.
Variable hio : HioApi.

Lemma no_instance_in (cs : list Call) :
  Forall (fun c => creates_instance c = false /\ destroyed_handle c = None) cs ->
  created_instances cs = [] /\ destroyed_instances cs = [].
Proof.
  induction 1 as [ | c cs (Hc & Hd) _ (IH1 & IH2)]; [ now split | ].
  split; destruct c; try discriminate; assumption.
Qed.

Lemma material_call_is_no_instance_call (handle : MaterialHandle) (c : Call) :
  is_material_call handle c = true ->
  creates_instance c = false /\ destroyed_handle c = None.
Proof. destruct c; try discriminate; now split. Qed.

Lemma new_HdMoonshineRenderParam_no_instance :
  emits (fun c => creates_instance c = false /\ destroyed_handle c = None)
        new_HdMoonshineRenderParam.
Proof.
  unfold new_HdMoonshineRenderParam. repeat (emits_step; try (split; reflexivity)).
Qed.

Lemma new_HdMoonshineMaterial_no_instance (renderParam : HdMoonshineRenderParam) :
  emits (fun c => creates_instance c = false /\ destroyed_handle c = None)
        (Material.new_HdMoonshineMaterial renderParam).
Proof.
  unfold Material.new_HdMoonshineMaterial. repeat (emits_step; try (split; reflexivity)).
Qed.

Lemma balanced_quiet {A : Type} (m : M A) (w w' : World) (a : A)
    (held : list InstanceHandle) :
  emits (fun c => creates_instance c = false /\ destroyed_handle c = None) m ->
  m w = Some (a, w') ->
  balanced w held -> balanced w' held.
Proof.
  intros Hm E J. destruct (Hm _ _ _ E) as (cs & L & _ & HP).
  apply no_instance_in in HP. destruct HP as [Hc Hd].
  unfold balanced in *.
  now rewrite L, created_instances_app, destroyed_instances_app, Hc, Hd, !app_nil_r.
Qed.

Lemma balanced_mesh_Sync (sceneDelegate : HdSceneDelegate)
    (renderParam : HdMoonshineRenderParam)
    (self self' : Mesh.HdMoonshineMesh) (dirtyBits dirtyBits' : HdDirtyBits)
    (w w' : World) :
  Mesh.Sync B sceneDelegate renderParam self dirtyBits w = Some ((self', dirtyBits'), w') ->
  balanced w (Mesh._instances self) -> balanced w' (Mesh._instances self').
Proof.
  intros H J. destruct (mesh_Sync_modes B _ _ _ _ _ _ _ _ H) as (cs & L & _ & Hmode).
  unfold balanced in *.
  rewrite L, created_instances_app, destroyed_instances_app.
  destruct Hmode as [(Hd & Hc & _) | (Hd & Hc & Hheld)].
  - rewrite Hd, Hc. now apply Permutation_app_tail.
  - now rewrite Hd, Hc, Hheld, !app_nil_r.
Qed.

Lemma run_balanced (renderParam : HdMoonshineRenderParam)
    (material : HdMoonshineMaterial) (syncs : list Session.SyncCall)
    (mesh mesh' : Mesh.HdMoonshineMesh) (w w' : World) :
  balanced w (Mesh._instances mesh) ->
  Session.run B hio renderParam mesh material syncs w = Some (mesh', w') ->
  balanced w' (Mesh._instances mesh').
Proof.
  revert mesh w. induction syncs as [ | [sceneDelegate dirtyBits | scene dirtyBits] syncs IH];
    intros mesh w J H; cbn [Session.run] in H.
  - unfold ret in H. injection H as <- <-. exact J.
  - apply bind_inv in H. destruct H as ([mesh1 d1] & w1 & Hsync & H).
    apply (IH mesh1 w1); [ | exact H ].
    exact (balanced_mesh_Sync _ _ _ _ _ _ _ _ Hsync J).
  - apply bind_inv in H. destruct H as (d1 & w1 & Hsync & H).
    apply (IH mesh w1); [ | exact H ].
    refine (balanced_quiet _ w w1 d1 _ _ Hsync J).
    eapply emits_weaken; [ | apply material_Sync_material_calls ].
    apply material_call_is_no_instance_call.
Qed.

Lemma session_balanced
    (indeterminate_mesh : MeshHandle) (indeterminate_transform : GfMatrix4f)
    (syncs : list Session.SyncCall) (mesh : Mesh.HdMoonshineMesh) (w : World) :
  Session.session B hio indeterminate_mesh indeterminate_transform syncs
    Session.initial_world = Some (mesh, w) ->
  balanced w (Mesh._instances mesh).
Proof.
  intros H. unfold Session.session in H.
  apply bind_inv in H. destruct H as (renderParam & w1 & Hparam & H).
  apply bind_inv in H. destruct H as (material & w2 & Hmaterial & H).
  assert (J0 : balanced Session.initial_world []) by (unfold balanced; cbn; constructor).
  pose proof (balanced_quiet _ _ _ _ _ new_HdMoonshineRenderParam_no_instance
                Hparam J0) as J1.
  pose proof (balanced_quiet _ _ _ _ _
                (new_HdMoonshineMaterial_no_instance renderParam) Hmaterial J1) as J2.
  exact (run_balanced renderParam material syncs
           (Mesh.new_HdMoonshineMesh renderParam indeterminate_mesh indeterminate_transform)
           mesh w2 w J2 H).
Qed.

(** mesh.cpp, lines 236-251, over a session.  After any sequence of sync
    calls on the mesh entity and the material entity, the instance handles
    the mesh entity holds are exactly the instances that were created and
    not destroyed: as lists with repetitions, the handles returned by
    instance creations are the handles passed to instance destructions
    together with the handles held. *)
Theorem held_instances_are_the_live_instances
    (indeterminate_mesh : MeshHandle) (indeterminate_transform : GfMatrix4f)
    (syncs : list Session.SyncCall) (mesh : Mesh.HdMoonshineMesh) (w : World) :
  Session.session B hio indeterminate_mesh indeterminate_transform syncs
    Session.initial_world = Some (mesh, w) ->
  Permutation (created_instances (calls (msne w)))
              (destroyed_instances (calls (msne w)) ++ Mesh._instances mesh).
Proof. exact (session_balanced indeterminate_mesh indeterminate_transform syncs mesh w). Qed.

(** mesh.cpp, lines 277-281, over a session.  Once the mesh entity has
    been finalized, every instance that was created during the session has
    been destroyed, as many times as it was created. *)
Theorem finalized_entity_leaves_no_instance
    (indeterminate_mesh : MeshHandle) (indeterminate_transform : GfMatrix4f)
    (syncs : list Session.SyncCall) (w : World) :
  Session.lifetime B hio indeterminate_mesh indeterminate_transform syncs
    Session.initial_world = Some (tt, w) ->
  Permutation (created_instances (calls (msne w)))
              (destroyed_instances (calls (msne w))).
Proof.
  intros H. unfold Session.lifetime in H.
  apply bind_inv in H. destruct H as (mesh & w1 & Hsession & H).
  apply session_balanced in Hsession. unfold balanced in Hsession.
  unfold Mesh.Finalize in H. rewrite forM_call in H. injection H as <-.
  cbn [msne calls].
  rewrite created_instances_app, destroyed_instances_app,
    created_instances_destroy, destroyed_instances_destroy, app_nil_r.
  exact Hsession.
Qed.
End Balance.

(** * The theorems at concrete scenes *)

Section Witnesses.
Import Example.
#[local] Existing Instance exact_host.

Example hydra_bits_ok : rprim_bits_ok hydra_bits = true.
Proof. reflexivity. Qed.

(** The first sync of the instanced triangle, with every initial bit set,
    creates the geometry and three instances. *)
Example first_sync_three_instances :
  Mesh.Sync hydra_bits three_instances render_param fresh_mesh
    (Mesh.GetInitialDirtyBitsMask hydra_bits) world_after_setup
  = Some ((mesh_with_three_instances, 0), world_with_three_instances)
  /\ map (fun c => match c with CreateInstance _ _ _ _ h => Some h | _ => None end)
         (skipn 7 (calls (msne world_with_three_instances)))
     = [Some 7; Some 8; Some 9]%nat.
Proof. split; reflexivity. Qed.

(** The triangle without points, synced with every initial bit. *)
Lemma sync_abandoned_without_points_witness :
  Mesh.Sync hydra_bits without_points render_param fresh_mesh
    (Mesh.GetInitialDirtyBitsMask hydra_bits) world_after_setup
  = Some ((fresh_mesh, Mesh.GetInitialDirtyBitsMask hydra_bits),
          {| msne := msne world_after_setup;
             diagnostics := diagnostics world_after_setup ++ [EmptyMesh] |}).
Proof.
  apply (@sync_abandoned_without_points exact_host hydra_bits without_points render_param
           fresh_mesh (Mesh.GetInitialDirtyBitsMask hydra_bits) world_after_setup);
    reflexivity.
Defined.

(** The entity with three instances, synced with the transform bit only. *)
Lemma transform_only_updates_in_place_witness :
  exists w',
    Mesh.Sync hydra_bits three_instances render_param mesh_with_three_instances
      (DirtyTransform hydra_bits) world_with_three_instances
    = Some ((Mesh.set_transform mesh_with_three_instances (qm_translate 1 2 3), 0), w')
    /\ calls (msne w') =
       calls (msne world_with_three_instances) ++
       map (fun ht : InstanceHandle * QMatrix =>
              SetInstanceTransform (fst ht)
                (Mesh.to_Mat3x4 (qm_mul (qm_translate 1 2 3) (snd ht))))
           [ (7%nat, qm_translate 10 0 0); (8%nat, qm_translate 20 0 0);
             (9%nat, qm_translate 30 0 0) ]
    /\ next_handle (msne w') = next_handle (msne world_with_three_instances).
Proof.
  apply (@transform_only_updates_in_place exact_host hydra_bits three_instances render_param
           mesh_with_three_instances (DirtyTransform hydra_bits)
           world_with_three_instances);
    reflexivity.
Defined.

(** The entity with three instances, synced with the instancer bit only
    while the instancer now answers with two transforms. *)
Lemma instancer_count_change_is_not_rebuilt_witness :
  exists self' dirtyBits' w' cs,
    Mesh.Sync hydra_bits two_instances render_param mesh_with_three_instances
      (DirtyInstancer hydra_bits) world_with_three_instances
    = Some ((self', dirtyBits'), w')
    /\ calls (msne w') = calls (msne world_with_three_instances) ++ cs
    /\ Forall (fun c => match c with
                        | DestroyInstance _ => False
                        | CreateInstance _ _ _ _ _ => False
                        | _ => True
                        end) cs
    /\ Mesh._instances self' = [7; 8; 9]%nat
    /\ Mesh._instancesTransforms self' = [qm_translate 10 0 0; qm_translate 20 0 0].
Proof.
  apply (@instancer_count_change_is_not_rebuilt exact_host hydra_bits two_instances
           render_param mesh_with_three_instances (DirtyInstancer hydra_bits)
           world_with_three_instances [qm_translate 10 0 0; qm_translate 20 0 0]);
    try reflexivity.
  - cbn. lia.
  - cbn. lia.
Defined.

(** When the instancer answers with more transforms than the entity holds
    handles, the in-place loop reads [_instances] past its end. *)
Example instancer_growth_reads_past_the_handles :
  Mesh.Sync hydra_bits four_instances render_param mesh_with_three_instances
    (DirtyInstancer hydra_bits) world_with_three_instances = None.
Proof. reflexivity. Qed.

(** The same sync call: three handles and two stored transforms remain. *)
Lemma instance_count_invariant_is_broken_witness :
  exists self' dirtyBits' w',
    Mesh.Sync hydra_bits two_instances render_param mesh_with_three_instances
      (DirtyInstancer hydra_bits) world_with_three_instances
    = Some ((self', dirtyBits'), w')
    /\ length (Mesh._instances self') = 3%nat
    /\ length (Mesh._instancesTransforms self') = 2%nat
    /\ length (Mesh._instances self') <> length (Mesh._instancesTransforms self').
Proof.
  apply (@instance_count_invariant_is_broken exact_host hydra_bits two_instances
           render_param mesh_with_three_instances (DirtyInstancer hydra_bits)
           world_with_three_instances [qm_translate 10 0 0; qm_translate 20 0 0]);
    try reflexivity.
  cbn. lia.
Defined.

(** C2 as stated fails.  The freshly constructed entity of the triangle scene
    (no instancer, three authored points, no normals, no texture coordinates)
    is synced with exactly the points, transform, visibility and
    material-binding bits.  The call returns with no dirty bit left and with
    a geometry handle, but the list of stored transforms was never filled, so
    the entity ends with no instance handle at all. *)
Lemma first_sync_without_instancer_bit_builds_no_instance :
  let dirtyBits :=
    Z.lor (Z.lor (Z.lor (DirtyPoints hydra_bits) (DirtyTransform hydra_bits))
                 (DirtyVisibility hydra_bits)) (DirtyMaterialId hydra_bits) in
  IsEmpty (GetInstancerId triangle) = true
  /\ Get triangle Mesh.HdTokens_points
     = VtVec3fArray [point 0 0 0; point 1 0 0; point 0 1 0]
  /\ Mesh.FindPrimvarInterpolation triangle Mesh.tokens_normals = None
  /\ Mesh.FindPrimvarInterpolation triangle Mesh.tokens_st = None
  /\ Mesh.FindPrimvarInterpolation triangle Mesh.tokens_st0 = None
  /\ option_map
       (fun r : Mesh.HdMoonshineMesh * HdDirtyBits * World =>
          (snd (fst r), Mesh._mesh (fst (fst r)), Mesh._instances (fst (fst r))))
       (Mesh.Sync hydra_bits triangle render_param fresh_mesh dirtyBits world_after_setup)
     = Some (0, 6%nat, [])
  /\ length (@nil InstanceHandle) <> 1%nat.
Proof.
  cbv zeta. repeat (split; [ reflexivity | ]). discriminate.
Qed.

(** The freshly constructed entity synced with the initial mask, once on the
    triangle with authored points and once on the triangle whose points are
    computed. *)
Lemma first_sync_builds_one_instance_witness :
  (exists self' w',
     Mesh.Sync hydra_bits triangle render_param fresh_mesh
       (Mesh.GetInitialDirtyBitsMask hydra_bits) world_after_setup
       = Some ((self', 0), w')
     /\ Mesh._mesh self' = 6%nat
     /\ Mesh._instances self' = [7%nat]
     /\ calls (msne w') =
        calls (msne world_after_setup) ++
        [ CreateMesh [point 0 0 0; point 1 0 0; point 0 1 0] [] [] 3 6%nat;
          CreateInstance
            (Mesh.to_Mat3x4 (qm_mul (qm_translate 1 2 3) (qm_scale 1)))
            6%nat (Mesh._material self') true 7%nat ]
     /\ diagnostics w' = diagnostics world_after_setup)
  /\ (exists self' w',
        Mesh.Sync hydra_bits computed_triangle render_param fresh_mesh
          (Mesh.GetInitialDirtyBitsMask hydra_bits) world_after_setup
          = Some ((self', 0), w')
        /\ Mesh._mesh self' = 6%nat
        /\ Mesh._instances self' = [7%nat]
        /\ calls (msne w') =
           calls (msne world_after_setup) ++
           [ CreateMesh [point 0 0 2; point 1 0 2; point 0 1 2] [] [] 3 6%nat;
             CreateInstance
               (Mesh.to_Mat3x4 (qm_mul (qm_translate 1 2 3) (qm_scale 1)))
               6%nat (Mesh._material self') true 7%nat ]
        /\ diagnostics w' = diagnostics world_after_setup).
Proof.
  split.
  - apply (@first_sync_builds_one_instance exact_host hydra_bits triangle render_param
             0%nat (qm_scale 1) world_after_setup
             [point 0 0 0; point 1 0 0; point 0 1 0]
             [point 0 0 0; point 1 0 0; point 0 1 0]);
      try reflexivity.
    + right. split; reflexivity.
    + discriminate.
  - apply (@first_sync_builds_one_instance exact_host hydra_bits computed_triangle
             render_param 0%nat (qm_scale 1) world_after_setup
             [point 0 0 2; point 1 0 2; point 0 1 2]
             [point 0 0 2; point 1 0 2; point 0 1 2]);
      try reflexivity.
    + left. reflexivity.
    + discriminate.
Defined.

(** The pad on two pixels: the loop runs for pixel 0 only, which is already
    in place, so the buffer comes back as it was; the slot of pixel 1 holds
    the bytes 5, 6, 0 where the source pixel was 4, 5, 6. *)
Example rgbToRgba_two_pixels :
  let data := [Byte.x01; Byte.x02; Byte.x03; Byte.x04; Byte.x05; Byte.x06;
               Byte.x00; Byte.x00] in
  Material.allocatedSize 6 = 8
  /\ rgbToRgba data 2 3 4 = Some data
  /\ firstn 3 (skipn 3 data) = [Byte.x04; Byte.x05; Byte.x06]
  /\ firstn 3 (skipn 4 data) = [Byte.x05; Byte.x06; Byte.x00].
Proof. cbv zeta. repeat split. Qed.

(** The pad on five pixels: pixels 1 and 2 are overwritten while they are
    read, pixel 4 is not moved. *)
Example rgbToRgba_five_pixels :
  rgbToRgba
    [ Byte.x01; Byte.x02; Byte.x03; Byte.x04; Byte.x05; Byte.x06; Byte.x07; Byte.x08;
      Byte.x09; Byte.x0a; Byte.x0b; Byte.x0c; Byte.x0d; Byte.x0e; Byte.x0f;
      Byte.x00; Byte.x00; Byte.x00; Byte.x00; Byte.x00 ] 5 3 4
  = Some
    [ Byte.x01; Byte.x02; Byte.x03; Byte.x04;
      Byte.x04; Byte.x04; Byte.x04; Byte.x08;
      Byte.x07; Byte.x08; Byte.x07; Byte.x0c;
      Byte.x0a; Byte.x0b; Byte.x0c; Byte.x00;
      Byte.x00; Byte.x00; Byte.x00; Byte.x00 ].
Proof. reflexivity. Qed.

(** The pad on the buffer of two pixels. *)
Lemma rgbToRgba_never_moves_last_pixel_witness :
  let data := [Byte.x01; Byte.x02; Byte.x03; Byte.x04; Byte.x05; Byte.x06;
               Byte.x00; Byte.x00] in
  exists out,
    rgbToRgba data 2 3 4 = Some out
    /\ length out = length data
    /\ forall idx, 4 * (2 - 1) <= idx -> buf_get out idx = buf_get data idx.
Proof.
  cbv zeta.
  apply (rgbToRgba_never_moves_last_pixel
           [Byte.x01; Byte.x02; Byte.x03; Byte.x04; Byte.x05; Byte.x06;
            Byte.x00; Byte.x00] 2 3 4).
  - lia.
  - lia.
  - cbn. lia.
  - cbn. unfold size_t_modulus. lia.
Defined.

(** The first sync under a realized binding stores the handle of the
    material entity. *)
Example first_sync_bound_to_realized :
  Mesh.Sync hydra_bits bound_to_realized render_param fresh_mesh
    (Mesh.GetInitialDirtyBitsMask hydra_bits) world_with_material
  = Some ((mesh_bound, 0), world_with_bound_mesh).
Proof. reflexivity. Qed.

(** C5 as stated fails.  The entity of [mesh_bound] holds the handle 6 of a
    realized material.  It is synced with the material-binding bit set while
    its binding now names a material entity the render index does not know.
    The bound handle stays 6; it does not become the context default 5. *)
Lemma unrealized_binding_keeps_previous_handle :
  bits_test (DirtyMaterialId hydra_bits) (DirtyMaterialId hydra_bits) = true
  /\ IsEmpty (GetMaterialId bound_to_unrealized) = false
  /\ GetSprim bound_to_unrealized (GetMaterialId bound_to_unrealized) = None
  /\ _defaultMaterial render_param = 5%nat
  /\ option_map
       (fun r : Mesh.HdMoonshineMesh * HdDirtyBits * World =>
          (snd (fst r), Mesh._material (fst (fst r))))
       (Mesh.Sync hydra_bits bound_to_unrealized render_param mesh_bound
          (DirtyMaterialId hydra_bits) world_with_bound_mesh)
     = Some (0, 6%nat)
  /\ 6%nat <> _defaultMaterial render_param.
Proof.
  repeat (split; [ reflexivity | ]). discriminate.
Qed.

(** The bound entity, synced with the material-binding bit while its binding
    names an entity that is not realized. *)
Lemma material_binding_is_resolved_witness :
  exists self' dirtyBits' w',
    Mesh.Sync hydra_bits bound_to_unrealized render_param mesh_bound
      (DirtyMaterialId hydra_bits) world_with_bound_mesh
      = Some ((self', dirtyBits'), w')
    /\ bits_test dirtyBits' (DirtyMaterialId hydra_bits) = false
    /\ Mesh._material self' = 6%nat.
Proof.
  apply (@material_binding_is_resolved exact_host hydra_bits bound_to_unrealized
           render_param mesh_bound mesh_bound (DirtyMaterialId hydra_bits)
           (DirtyMaterialId hydra_bits) world_with_bound_mesh world_with_bound_mesh).
  - reflexivity.
  - reflexivity.
  - reflexivity.
  - left. reflexivity.
Defined.

(** The example material: three of its five declared inputs fail, each in
    its own way, and the two after them are still set. *)
Example material_sync_with_failing_inputs :
  option_map
    (fun r : HdDirtyBits * World =>
       (fst r, skipn 7 (calls (msne (snd r))), diagnostics (snd r)))
    (Material.Sync hydra_bits hio (material_scene (ResourceNetworkMap network))
       render_param material_entity (DirtyParams hydra_bits) world_with_material)
  = Some (0,
          [ CreateRawTexture
              [Byte.x01; Byte.x02; Byte.x03; Byte.x04; Byte.x05; Byte.x06;
               Byte.x00; Byte.x00]
              {| width := 2; height := 1 |} u8x4_srgb
              "/mat emissiveColor texture"%string 7%nat;
            SetMaterialEmissive 6%nat 7%nat;
            SetMaterialIOR 6%nat (4 # 3)%Q ],
          [ UnknownConnection "diffuseColor"%string "math"%string;
            UnknownValueType (VtOther "bool"%string);
            CouldNotParseTexture "/mat parameter roughness"%string;
            UnknownFormat;
            CouldNotParseTexture "/mat metallic"%string ]).
Proof. reflexivity. Qed.



(** The example material when its resource is no network map. *)
Lemma material_sync_returns_early_witness :
  exists e,
    Material.Sync hydra_bits hio (material_scene ResourceOther) render_param
      material_entity (DirtyParams hydra_bits) world_with_material
    = Some (DirtyParams hydra_bits,
            {| msne := msne world_with_material;
               diagnostics := diagnostics world_with_material ++ [e] |})
    /\ bits_test (DirtyParams hydra_bits) (DirtyParams hydra_bits) = true
    /\ (forall bits, e <> MaterialDirtyBitsIgnored bits).
Proof.
  apply (@material_sync_returns_early exact_host hydra_bits hio
           (material_scene ResourceOther) render_param material_entity
           (DirtyParams hydra_bits) world_with_material).
  - reflexivity.
  - left. reflexivity.
Defined.

(** The example session: the geometry handle 8 is overwritten by 12 and the
    instances 9, 10 and 11 are destroyed; nothing else is. *)
Example example_session_log :
  option_map
    (fun r : Mesh.HdMoonshineMesh * World =>
       (Mesh._mesh (fst r), Mesh._instances (fst r),
        map (fun c => (returned_handle c, destroyed_handle c, creates_mesh_or_texture c))
            (skipn 10 (calls (msne (snd r))))))
    (Session.session hydra_bits hio 0%nat (qm_scale 1) example_syncs Session.initial_world)
  = Some (12%nat, [13%nat],
          [ (Some 8%nat, None, true); (Some 9%nat, None, false);
            (Some 10%nat, None, false); (Some 11%nat, None, false);
            (None, None, false); (None, None, false);
            (Some 12%nat, None, true); (None, Some 9%nat, false);
            (None, Some 10%nat, false); (None, Some 11%nat, false);
            (Some 13%nat, None, false) ]).
Proof. vm_compute. reflexivity. Qed.

(** An option that is not [None] is [Some] of what it holds. *)
Lemma some_of_defined {A : Type} (o : option A) (d : A) :
  (match o with Some _ => true | None => false end) = true ->
  o = Some (match o with Some r => r | None => d end).
Proof. destruct o; [ reflexivity | discriminate ]. Qed.

(** In the example session the handle 9, destroyed by the call at index 17,
    was returned by the call at index 11, an instance creation. *)
Lemma only_instance_handles_are_destroyed_witness :
  let log := calls (msne (snd session_result)) in
  let c := nth 11 log (DestroyInstance 0%nat) in
  (11 < length log)%nat
  /\ returned_handle c = Some 9%nat
  /\ nth_error log 17 = Some (DestroyInstance 9%nat)
  /\ creates_instance c = true
  /\ creates_mesh_or_texture c = false.
Proof.
  cbv zeta.
  assert (Hsession : Session.session hydra_bits hio 0%nat (qm_scale 1) example_syncs
                       Session.initial_world = Some session_result).
  { apply (some_of_defined _ (fresh_mesh, Session.initial_world)). reflexivity. }
  assert (Hlen : (11 < length (calls (msne (snd session_result))))%nat)
    by (apply Nat.ltb_lt; reflexivity).
  assert (Hret : returned_handle
                   (nth 11 (calls (msne (snd session_result))) (DestroyInstance 0%nat))
                 = Some 9%nat)
    by reflexivity.
  assert (Hdestroyed : nth_error (calls (msne (snd session_result))) 17
                       = Some (DestroyInstance 9%nat))
    by reflexivity.
  split; [ exact Hlen | ]. split; [ exact Hret | ]. split; [ exact Hdestroyed | ].
  apply (@only_instance_handles_are_destroyed exact_host hydra_bits hio 0%nat (qm_scale 1)
           example_syncs (fst session_result) (snd session_result)
           (eq_trans Hsession (f_equal Some (surjective_pairing session_result)))
           (nth 11 (calls (msne (snd session_result))) (DestroyInstance 0%nat)) 9%nat).
  - exact (nth_In _ _ Hlen).
  - exact Hret.
  - exact (nth_error_In _ 17 Hdestroyed).
Defined.

(** The session with the shrinking instancer leaves the entity with the
    handles 10, 11 and 12 and two stored transforms.  The sync call with the
    transform bit alone that follows updates the handles 10 and 11; the
    handle 12 receives nothing. *)
Lemma transform_update_skips_handles_beyond_the_transforms_witness :
  let self := fst shrunk_session_result in
  let w := snd shrunk_session_result in
  Session.session hydra_bits hio 0%nat (qm_scale 1) shrinking_syncs Session.initial_world
    = Some (self, w)
  /\ Mesh._instances self = [10; 11; 12]%nat
  /\ Mesh._instancesTransforms self = [qm_translate 10 0 0; qm_translate 20 0 0]
  /\ exists w',
       Mesh.Sync hydra_bits two_instances render_param self (DirtyTransform hydra_bits) w
         = Some ((Mesh.set_transform self (qm_translate 1 2 3), 0), w')
       /\ Mesh._instances self = [10; 11]%nat ++ [12]%nat
       /\ [12]%nat <> []
       /\ calls (msne w') =
          calls (msne w) ++
          [ SetInstanceTransform 10%nat
              (Mesh.to_Mat3x4 (qm_mul (qm_translate 1 2 3) (qm_translate 10 0 0)));
            SetInstanceTransform 11%nat
              (Mesh.to_Mat3x4 (qm_mul (qm_translate 1 2 3) (qm_translate 20 0 0))) ]
       /\ next_handle (msne w') = next_handle (msne w).
Proof.
  cbv zeta.
  assert (Hsession : Session.session hydra_bits hio 0%nat (qm_scale 1) shrinking_syncs
                       Session.initial_world = Some shrunk_session_result).
  { apply (some_of_defined _ (fresh_mesh, Session.initial_world)). reflexivity. }
  assert (Hinstances : Mesh._instances (fst shrunk_session_result) = [10; 11; 12]%nat)
    by reflexivity.
  assert (Htransforms : Mesh._instancesTransforms (fst shrunk_session_result)
                        = [qm_translate 10 0 0; qm_translate 20 0 0])
    by reflexivity.
  split; [ exact (eq_trans Hsession (f_equal Some (surjective_pairing _))) | ].
  split; [ exact Hinstances | ]. split; [ exact Htransforms | ].
  pose proof (@transform_update_skips_handles_beyond_the_transforms exact_host hydra_bits
                two_instances render_param (fst shrunk_session_result)
                (DirtyTransform hydra_bits) (snd shrunk_session_result)
                eq_refl eq_refl eq_refl eq_refl eq_refl) as Hsync.
  rewrite Htransforms, Hinstances in Hsync.
  apply Hsync. cbn. lia.
Defined.
End Witnesses.

(** * Further theorems at concrete inputs *)

Section MoreWitnesses.
Import Example.
#[local] Existing Instance exact_host.

(** The green channel of two RGB pixels. *)
Lemma extractChannel_packs_the_channel_witness :
  exists out,
    Material.extractChannel hio
      [Byte.x01; Byte.x02; Byte.x03; Byte.x04; Byte.x05; Byte.x06; Byte.x00; Byte.x00]
      "g" 2 rgb_image 2
    = Some (out, 0)
    /\ length out = 8%nat
    /\ forall i k, 0 <= i < 2 -> 0 <= k < 1 ->
                   buf_get out (i * 1 + k)
                   = buf_get [Byte.x01; Byte.x02; Byte.x03; Byte.x04; Byte.x05; Byte.x06;
                              Byte.x00; Byte.x00] (i * 3 + 1 * 1 + k).
Proof.
  apply (extractChannel_packs_the_channel hio
           [Byte.x01; Byte.x02; Byte.x03; Byte.x04; Byte.x05; Byte.x06; Byte.x00; Byte.x00]
           "g" 2 rgb_image 2).
  - lia.
  - reflexivity.
  - cbn. lia.
  - cbn. lia.
  - cbn. unfold size_t_modulus. lia.
Defined.

(** The first two components of two RGB pixels. *)
Lemma toTwoComponentNormal_packs_two_components_witness :
  exists out,
    Material.toTwoComponentNormal hio
      [Byte.x01; Byte.x02; Byte.x03; Byte.x04; Byte.x05; Byte.x06; Byte.x00; Byte.x00]
      2 rgb_image 2
    = Some (out, 1)
    /\ length out = 8%nat
    /\ forall i k, 0 <= i < 2 -> 0 <= k < 2 ->
                   buf_get out (i * 1 * 2 + k)
                   = buf_get [Byte.x01; Byte.x02; Byte.x03; Byte.x04; Byte.x05; Byte.x06;
                              Byte.x00; Byte.x00] (i * 3 + k).
Proof.
  apply (toTwoComponentNormal_packs_two_components hio
           [Byte.x01; Byte.x02; Byte.x03; Byte.x04; Byte.x05; Byte.x06; Byte.x00; Byte.x00]
           2 rgb_image 2).
  - lia.
  - reflexivity.
  - cbn. lia.
  - cbn. lia.
  - cbn. lia.
  - cbn. unfold size_t_modulus. lia.
Defined.

(** Five RGB pixels in a buffer of twenty bytes. *)
Lemma rgbToRgba_moves_distant_pixels_witness :
  exists out,
    rgbToRgba
      [Byte.x01; Byte.x02; Byte.x03; Byte.x04; Byte.x05; Byte.x06; Byte.x07; Byte.x08;
       Byte.x09; Byte.x0a; Byte.x0b; Byte.x0c; Byte.x0d; Byte.x0e; Byte.x0f; Byte.x00;
       Byte.x00; Byte.x00; Byte.x00; Byte.x00] 5 3 4 = Some out
    /\ forall i j, 0 <= i < 5 - 1 ->
                   (4 - 3) * i = 0 \/ 3 <= (4 - 3) * i ->
                   0 <= j < 3 ->
                   buf_get out (4 * i + j)
                   = buf_get
                       [Byte.x01; Byte.x02; Byte.x03; Byte.x04; Byte.x05; Byte.x06;
                        Byte.x07; Byte.x08; Byte.x09; Byte.x0a; Byte.x0b; Byte.x0c;
                        Byte.x0d; Byte.x0e; Byte.x0f; Byte.x00; Byte.x00; Byte.x00;
                        Byte.x00; Byte.x00] (3 * i + j).
Proof.
  apply (rgbToRgba_moves_distant_pixels
           [Byte.x01; Byte.x02; Byte.x03; Byte.x04; Byte.x05; Byte.x06; Byte.x07; Byte.x08;
            Byte.x09; Byte.x0a; Byte.x0b; Byte.x0c; Byte.x0d; Byte.x0e; Byte.x0f; Byte.x00;
            Byte.x00; Byte.x00; Byte.x00; Byte.x00] 5 3 4).
  - lia.
  - lia.
  - cbn. lia.
  - cbn. unfold size_t_modulus. lia.
Defined.

(** The same five pixels: pixel 1 comes out as (4, 4, 4) and pixel 2 as
    (7, 8, 7). *)
Lemma rgbToRgba_smears_pixels_one_and_two_witness :
  exists out,
    rgbToRgba
      [Byte.x01; Byte.x02; Byte.x03; Byte.x04; Byte.x05; Byte.x06; Byte.x07; Byte.x08;
       Byte.x09; Byte.x0a; Byte.x0b; Byte.x0c; Byte.x0d; Byte.x0e; Byte.x0f; Byte.x00;
       Byte.x00; Byte.x00; Byte.x00; Byte.x00] 5 3 4 = Some out
    /\ buf_get out 4 = Some Byte.x04
    /\ buf_get out 5 = Some Byte.x04
    /\ buf_get out 6 = Some Byte.x04
    /\ (4 <= 5 ->
        buf_get out 8 = Some Byte.x07
        /\ buf_get out 9 = Some Byte.x08
        /\ buf_get out 10 = Some Byte.x07).
Proof.
  apply (rgbToRgba_smears_pixels_one_and_two
           [Byte.x01; Byte.x02; Byte.x03; Byte.x04; Byte.x05; Byte.x06; Byte.x07; Byte.x08;
            Byte.x09; Byte.x0a; Byte.x0b; Byte.x0c; Byte.x0d; Byte.x0e; Byte.x0f; Byte.x00;
            Byte.x00; Byte.x00; Byte.x00; Byte.x00] 5).
  - lia.
  - cbn. lia.
  - cbn. unfold size_t_modulus. lia.
Defined.

(** The pad of three bytes to four on an image without pixels. *)
Lemma rgbToRgba_without_pixels_is_undefined_witness : rgbToRgba [] 0 3 4 = None.
Proof. apply (rgbToRgba_without_pixels_is_undefined 3 4). lia. Defined.

(** The two RGB pixels of [rgb_image] in the eight bytes allocated for
    them. *)
Lemma pad_stays_inside_the_allocation_witness :
  exists out,
    Material.normalizeComponents hio
      [Byte.x01; Byte.x02; Byte.x03; Byte.x04; Byte.x05; Byte.x06; Byte.x00; Byte.x00]
      "rgb" Material.tokens_diffuseColor 2 rgb_image 2
    = Some (out, 2)
    /\ length out = 8%nat.
Proof.
  apply (pad_stays_inside_the_allocation hio
           [Byte.x01; Byte.x02; Byte.x03; Byte.x04; Byte.x05; Byte.x06; Byte.x00; Byte.x00]
           "rgb" Material.tokens_diffuseColor 2 1 rgb_image 2).
  - reflexivity.
  - reflexivity.
  - reflexivity.
  - reflexivity.
  - reflexivity.
  - reflexivity.
  - lia.
  - lia.
  - unfold size_t_modulus. lia.
  - reflexivity.
Defined.

(** Two triangles over three values. *)
Lemma unindex_pushes_the_three_corners_witness :
  length [10; 20; 30; 30; 20; 10] = (3 * length [(0, 1, 2); (2, 1, 0)])%nat
  /\ forall (k : nat) (i0 i1 i2 : Z),
       nth_error [(0, 1, 2); (2, 1, 0)] k = Some (i0, i1, i2) ->
       nth_error [10; 20; 30; 30; 20; 10] (3 * k) = Mesh.array_at [10; 20; 30] i0
       /\ nth_error [10; 20; 30; 30; 20; 10] (3 * k + 1) = Mesh.array_at [10; 20; 30] i1
       /\ nth_error [10; 20; 30; 30; 20; 10] (3 * k + 2) = Mesh.array_at [10; 20; 30] i2
       /\ Mesh.array_at [10; 20; 30] i0 <> None
       /\ Mesh.array_at [10; 20; 30] i1 <> None
       /\ Mesh.array_at [10; 20; 30] i2 <> None.
Proof.
  apply (@unindex_pushes_the_three_corners Z [10; 20; 30] [(0, 1, 2); (2, 1, 0)]
           [10; 20; 30; 30; 20; 10]).
  reflexivity.
Defined.

(** The geometry step of the first sync of the triangle. *)
Lemma geometry_step_creates_one_mesh_witness :
  exists indexedPoints points normals texcoords,
    Mesh.findIndexedPoints triangle = Some indexedPoints
    /\ indexedPoints <> []
    /\ Mesh.unindex indexedPoints (ComputeTriangleIndices triangle) = Some points
    /\ length points = (3 * length (ComputeTriangleIndices triangle))%nat
    /\ calls (msne {| msne := {| next_handle := 7;
                                 calls := calls (msne world_after_setup) ++
                                          [ CreateMesh
                                              [point 0 0 0; point 1 0 0; point 0 1 0] [] [] 3
                                              6%nat ] |};
                      diagnostics := [] |}) =
       calls (msne world_after_setup) ++
       [ CreateMesh points normals texcoords (Z.of_nat (length points))
           (next_handle (msne world_after_setup)) ]
    /\ 7%nat = S (next_handle (msne world_after_setup))
    /\ Mesh.set_mesh fresh_mesh 6%nat
       = Mesh.set_mesh fresh_mesh (next_handle (msne world_after_setup))
    /\ bits_and (Mesh.GetInitialDirtyBitsMask hydra_bits) (bits_not (DirtyPoints hydra_bits))
       = bits_and (Mesh.GetInitialDirtyBitsMask hydra_bits)
           (bits_not (DirtyPoints hydra_bits)).
Proof.
  apply (@geometry_step_creates_one_mesh exact_host hydra_bits triangle fresh_mesh
           (Mesh.set_mesh fresh_mesh 6%nat)
           (Mesh.GetInitialDirtyBitsMask hydra_bits)
           (bits_and (Mesh.GetInitialDirtyBitsMask hydra_bits)
              (bits_not (DirtyPoints hydra_bits)))
           world_after_setup
           {| msne := {| next_handle := 7;
                         calls := calls (msne world_after_setup) ++
                                  [ CreateMesh
                                      [point 0 0 0; point 1 0 0; point 0 1 0] [] [] 3
                                      6%nat ] |};
              diagnostics := [] |}).
  reflexivity.
Defined.

(** The geometry step of the first sync of the shaded triangle: three
    positions, three normals, three texture coordinates. *)
Lemma vertex_primvars_match_the_points_witness :
  (forall indexed,
     holds_Vec3fArray (Get shaded_triangle Mesh.tokens_normals) = Some indexed ->
     Mesh.FindPrimvarInterpolation shaded_triangle Mesh.tokens_normals
       = Some HdInterpolationVertex ->
     Mesh.unindex indexed (ComputeTriangleIndices shaded_triangle)
       = Some [point 0 0 1; point 0 0 1; point 0 0 1]
     /\ length [point 0 0 1; point 0 0 1; point 0 0 1]
        = length [point 0 0 0; point 1 0 0; point 0 1 0])
  /\ (forall indexed,
        IsEmpty (Mesh.texcoordName shaded_triangle) = false ->
        holds_Vec2fArray (Get shaded_triangle (Mesh.texcoordName shaded_triangle))
          = Some indexed ->
        Mesh.FindPrimvarInterpolation shaded_triangle (Mesh.texcoordName shaded_triangle)
          = Some HdInterpolationVertex ->
        Mesh.unindex indexed (ComputeTriangleIndices shaded_triangle)
          = Some [(0, 0); (1, 0); (0, 1)]%Q
        /\ length [(0, 0); (1, 0); (0, 1)]%Q
           = length [point 0 0 0; point 1 0 0; point 0 1 0]).
Proof.
  apply (@vertex_primvars_match_the_points exact_host hydra_bits shaded_triangle fresh_mesh
           (Mesh.set_mesh fresh_mesh 6%nat)
           (Mesh.GetInitialDirtyBitsMask hydra_bits)
           (bits_and (Mesh.GetInitialDirtyBitsMask hydra_bits)
              (bits_not (DirtyPoints hydra_bits)))
           world_after_setup
           {| msne := {| next_handle := 7;
                         calls := calls (msne world_after_setup) ++
                                  [ CreateMesh
                                      [point 0 0 0; point 1 0 0; point 0 1 0]
                                      [point 0 0 1; point 0 0 1; point 0 0 1]
                                      [(0, 0); (1, 0); (0, 1)]%Q 3 6%nat ] |};
              diagnostics := [] |}
           [point 0 0 0; point 1 0 0; point 0 1 0]
           [point 0 0 1; point 0 0 1; point 0 0 1]
           [(0, 0); (1, 0); (0, 1)]%Q 3 6%nat).
  - reflexivity.
  - reflexivity.
Defined.
(** The geometry step of the first sync of the flat-shaded triangle: its
    one normal per face is not passed on. *)
Lemma normals_with_another_interpolation_are_dropped_witness :
  @nil (@GfVec3f exact_host) = []
  /\ exists earlier,
       [@UnknownPrimvarInterpolation exact_host Mesh.tokens_normals HdInterpolationUniform]
       = earlier ++ [UnknownPrimvarInterpolation Mesh.tokens_normals HdInterpolationUniform].
Proof.
  apply (@normals_with_another_interpolation_are_dropped exact_host hydra_bits
           flat_shaded_triangle fresh_mesh (Mesh.set_mesh fresh_mesh 6%nat)
           (Mesh.GetInitialDirtyBitsMask hydra_bits)
           (bits_and (Mesh.GetInitialDirtyBitsMask hydra_bits)
              (bits_not (DirtyPoints hydra_bits)))
           world_after_setup
           {| msne := {| next_handle := 7;
                         calls := calls (msne world_after_setup) ++
                                  [ CreateMesh
                                      [point 0 0 0; point 1 0 0; point 0 1 0] [] [] 3
                                      6%nat ] |};
              diagnostics :=
                [UnknownPrimvarInterpolation Mesh.tokens_normals HdInterpolationUniform] |}
           [point 0 0 0; point 1 0 0; point 0 1 0] [] [point 0 0 1] [] 3 6%nat
           HdInterpolationUniform).
  - reflexivity.
  - reflexivity.
  - reflexivity.
  - reflexivity.
  - discriminate.
  - discriminate.
Defined.

(** The entity with three instances, synced with a bit the sync does not
    handle. *)
Lemma sync_without_handled_bits_changes_nothing_witness :
  Mesh.Sync hydra_bits three_instances render_param mesh_with_three_instances 8
    world_with_three_instances
  = Some ((mesh_with_three_instances, 8),
          {| msne := msne world_with_three_instances;
             diagnostics :=
               diagnostics world_with_three_instances ++ [MeshDirtyBitsIgnored 8] |}).
Proof.
  apply (@sync_without_handled_bits_changes_nothing exact_host hydra_bits three_instances
           render_param mesh_with_three_instances 8 world_with_three_instances);
    reflexivity.
Defined.

(** The entity with three instances, hidden. *)
Lemma visibility_only_updates_in_place_witness :
  exists w',
    Mesh.Sync hydra_bits hidden_three_instances render_param mesh_with_three_instances
      (DirtyVisibility hydra_bits) world_with_three_instances
    = Some ((Mesh.set_visible mesh_with_three_instances false, 0), w')
    /\ calls (msne w') =
       calls (msne world_with_three_instances) ++
       [ SetInstanceVisibility 7%nat false; SetInstanceVisibility 8%nat false;
         SetInstanceVisibility 9%nat false ]
    /\ next_handle (msne w') = next_handle (msne world_with_three_instances).
Proof.
  apply (@visibility_only_updates_in_place exact_host hydra_bits hidden_three_instances
           render_param mesh_with_three_instances (DirtyVisibility hydra_bits)
           world_with_three_instances);
    reflexivity.
Defined.

(** The same sync: only the visibility is written. *)
Lemma sync_writes_a_member_only_under_its_bit_witness :
  (HdChangeTracker.IsPrimvarDirty_points hydra_bits (DirtyVisibility hydra_bits) = false ->
   Mesh._mesh (Mesh.set_visible mesh_with_three_instances false)
   = Mesh._mesh mesh_with_three_instances)
  /\ (HdChangeTracker.IsVisibilityDirty hydra_bits (DirtyVisibility hydra_bits) = false ->
      Mesh._visible (Mesh.set_visible mesh_with_three_instances false)
      = Mesh._visible mesh_with_three_instances)
  /\ (bits_test (DirtyVisibility hydra_bits) (DirtyMaterialId hydra_bits) = false ->
      Mesh._material (Mesh.set_visible mesh_with_three_instances false)
      = Mesh._material mesh_with_three_instances)
  /\ (HdChangeTracker.IsTransformDirty hydra_bits (DirtyVisibility hydra_bits) = false ->
      Mesh._transform (Mesh.set_visible mesh_with_three_instances false)
      = Mesh._transform mesh_with_three_instances)
  /\ (HdChangeTracker.IsInstancerDirty hydra_bits (DirtyVisibility hydra_bits) = false ->
      Mesh._instancesTransforms (Mesh.set_visible mesh_with_three_instances false)
      = Mesh._instancesTransforms mesh_with_three_instances)
  /\ (HdChangeTracker.IsPrimvarDirty_points hydra_bits (DirtyVisibility hydra_bits) = false ->
      bits_test (DirtyVisibility hydra_bits) (DirtyMaterialId hydra_bits) = false ->
      Mesh._instances (Mesh.set_visible mesh_with_three_instances false)
      = Mesh._instances mesh_with_three_instances).
Proof.
  apply (@sync_writes_a_member_only_under_its_bit exact_host hydra_bits
           hidden_three_instances render_param mesh_with_three_instances
           (Mesh.set_visible mesh_with_three_instances false)
           (DirtyVisibility hydra_bits) 0 world_with_three_instances
           {| msne :=
                {| next_handle := next_handle (msne world_with_three_instances);
                   calls :=
                     calls (msne world_with_three_instances) ++
                     [ SetInstanceVisibility 7%nat false; SetInstanceVisibility 8%nat false;
                       SetInstanceVisibility 9%nat false ] |};
              diagnostics := diagnostics world_with_three_instances |}).
  reflexivity.
Defined.

(** The same sync with one more bit, which the sync does not handle: that
    bit is all that is left. *)
Lemma completed_sync_clears_exactly_the_five_bits_witness :
  8 = bits_and (Z.lor (DirtyVisibility hydra_bits) 8)
        (bits_not (Mesh.GetInitialDirtyBitsMask hydra_bits)).
Proof.
  apply (@completed_sync_clears_exactly_the_five_bits exact_host hydra_bits
           hidden_three_instances render_param mesh_with_three_instances
           (Mesh.set_visible mesh_with_three_instances false)
           (Z.lor (DirtyVisibility hydra_bits) 8) 8 world_with_three_instances
           {| msne :=
                {| next_handle := next_handle (msne world_with_three_instances);
                   calls :=
                     calls (msne world_with_three_instances) ++
                     [ SetInstanceVisibility 7%nat false; SetInstanceVisibility 8%nat false;
                       SetInstanceVisibility 9%nat false ] |};
              diagnostics :=
                diagnostics world_with_three_instances ++ [MeshDirtyBitsIgnored 8] |}).
  - reflexivity.
  - cbn. unfold UINT32_MAX. lia.
  - left. reflexivity.
  - reflexivity.
Defined.

(** The first sync of the instanced triangle: the mesh, nothing to destroy,
    three instances created and held. *)
Lemma rebuild_destroys_and_recreates_every_instance_witness :
  exists geometry,
    calls (msne world_with_three_instances) =
      calls (msne world_after_setup) ++ geometry
      ++ map DestroyInstance []
      ++ map (fun th : QMatrix * InstanceHandle =>
                CreateInstance
                  (Mesh.to_Mat3x4 (qm_mul (qm_translate 1 2 3) (fst th)))
                  6%nat 5%nat true (snd th))
             [ (qm_translate 10 0 0, 7%nat); (qm_translate 20 0 0, 8%nat);
               (qm_translate 30 0 0, 9%nat) ]
    /\ created_instances geometry = []
    /\ destroyed_instances geometry = []
    /\ length [7; 8; 9]%nat = length [qm_translate 10 0 0; qm_translate 20 0 0;
                                      qm_translate 30 0 0].
Proof.
  apply (@rebuild_destroys_and_recreates_every_instance exact_host hydra_bits
           three_instances render_param fresh_mesh mesh_with_three_instances
           (Mesh.GetInitialDirtyBitsMask hydra_bits) 0 world_after_setup
           world_with_three_instances).
  - reflexivity.
  - left. split; [ reflexivity | discriminate ].
  - reflexivity.
Defined.

(** The entity with three instances under an instancer that still answers
    with three transforms. *)
Lemma instancer_update_with_same_count_is_in_place_witness :
  exists self' dirtyBits' w',
    Mesh.Sync hydra_bits three_instances render_param mesh_with_three_instances
      (DirtyInstancer hydra_bits) world_with_three_instances
    = Some ((self', dirtyBits'), w')
    /\ Mesh._instances self' = [7; 8; 9]%nat
    /\ Mesh._instancesTransforms self'
       = [qm_translate 10 0 0; qm_translate 20 0 0; qm_translate 30 0 0]
    /\ length (Mesh._instances self') = length (Mesh._instancesTransforms self')
    /\ next_handle (msne w') = next_handle (msne world_with_three_instances)
    /\ calls (msne w') =
       calls (msne world_with_three_instances) ++
       map (fun ht : InstanceHandle * QMatrix =>
              SetInstanceTransform (fst ht)
                (Mesh.to_Mat3x4 (qm_mul (Mesh._transform self') (snd ht))))
           [ (7%nat, qm_translate 10 0 0); (8%nat, qm_translate 20 0 0);
             (9%nat, qm_translate 30 0 0) ].
Proof.
  apply (@instancer_update_with_same_count_is_in_place exact_host hydra_bits three_instances
           render_param mesh_with_three_instances (DirtyInstancer hydra_bits)
           world_with_three_instances
           [qm_translate 10 0 0; qm_translate 20 0 0; qm_translate 30 0 0]);
    reflexivity.
Defined.

(** The entity with three instances under an instancer that answers with
    four transforms. *)
Lemma instancer_growth_is_undefined_witness :
  Mesh.Sync hydra_bits four_instances render_param mesh_with_three_instances
    (DirtyInstancer hydra_bits) world_with_three_instances = None.
Proof.
  apply (@instancer_growth_is_undefined exact_host hydra_bits four_instances render_param
           mesh_with_three_instances (DirtyInstancer hydra_bits) world_with_three_instances
           [qm_translate 10 0 0; qm_translate 20 0 0; qm_translate 30 0 0;
            qm_translate 40 0 0]);
    try reflexivity.
  cbn. lia.
Defined.

(** The first sync of the instanced triangle calls the renderer for one
    mesh and three instances. *)
Lemma mesh_sync_calls_only_mesh_functions_witness :
  exists cs,
    calls (msne world_with_three_instances) = calls (msne world_after_setup) ++ cs
    /\ forallb is_mesh_call cs = true.
Proof.
  apply (@mesh_sync_calls_only_mesh_functions exact_host hydra_bits three_instances
           render_param fresh_mesh mesh_with_three_instances
           (Mesh.GetInitialDirtyBitsMask hydra_bits) 0 world_after_setup
           world_with_three_instances).
  reflexivity.
Defined.

(** The material sync of the example. *)
Lemma material_sync_touches_only_its_material_witness :
  exists cs,
    calls (msne (snd material_sync_result)) = calls (msne world_with_material) ++ cs
    /\ forallb (is_material_call 6%nat) cs = true.
Proof.
  assert (Hsync : Material.Sync hydra_bits hio
                    (material_scene (ResourceNetworkMap network)) render_param
                    material_entity (DirtyParams hydra_bits) world_with_material
                  = Some material_sync_result).
  { apply (some_of_defined _ (0, world_with_material)). reflexivity. }
  apply (@material_sync_touches_only_its_material exact_host hydra_bits hio
           (material_scene (ResourceNetworkMap network)) render_param material_entity
           (DirtyParams hydra_bits) (fst material_sync_result) world_with_material
           (snd material_sync_result)
           (eq_trans Hsync (f_equal Some (surjective_pairing material_sync_result)))).
Defined.

(** The render parameter and the material entity of the examples. *)
Lemma material_entity_starts_as_the_default_material_witness :
  exists look textures,
    calls (msne world_after_setup) =
      calls (msne Session.initial_world) ++ textures ++ [CreateMaterial look 5%nat]
    /\ calls (msne world_with_material) =
       calls (msne world_after_setup) ++ [CreateMaterial look 6%nat]
    /\ 6%nat = 6%nat
    /\ Forall (fun c => creates_mesh_or_texture c = true) textures
    /\ map returned_handle textures = [Some 0; Some 1; Some 2; Some 3; Some 4]%nat
    /\ look = {| normal := 2%nat; emissive := 0%nat; color := 3%nat; metalness := 1%nat;
                 roughness := 4%nat; ior := (3 # 2)%Q |}.
Proof.
  apply (@material_entity_starts_as_the_default_material exact_host Session.initial_world
           world_after_setup world_with_material render_param material_entity);
    reflexivity.
Defined.

(** An inline value for [opacity], an input of the preview surface the
    delegate has no slot for. *)
Lemma texture_of_an_unnamed_input_is_left_unbound_witness :
  Material.SetTextureBasedOnValueAndName hio (material_scene (ResourceNetworkMap network))
    6%nat "opacity"%string (VtFloat 1%Q) EmptyString Material.tokens_raw
    "/mat parameter"%string world_with_material
  = Some (true,
          {| msne :=
               {| next_handle := 8;
                  calls := calls (msne world_with_material) ++
                           [@CreateSolidTexture1 exact_host 1%Q "/mat parameter opacity float"%string
                              7%nat] |};
             diagnostics := [] |}).
Proof.
  apply (@texture_of_an_unnamed_input_is_left_unbound exact_host hio
           (material_scene (ResourceNetworkMap network)) 6%nat "opacity"%string
           (@VtFloat exact_host 1%Q) EmptyString Material.tokens_raw
           "/mat parameter"%string 7%nat
           world_with_material).
  - cbn. intuition discriminate.
  - reflexivity.
Defined.

(** The diffuse colour connected to a texture whose file is missing. *)
Lemma unreadable_texture_file_is_undefined_witness :
  Material.syncInput hio (material_scene (ResourceNetworkMap network_of_missing_file))
    material_entity network_of_missing_file surface_node_of_missing_file
    preview_surface_sdr Material.tokens_diffuseColor world_with_material = None.
Proof.
  apply (@unreadable_texture_file_is_undefined exact_host hio
           (material_scene (ResourceNetworkMap network_of_missing_file))
           material_entity network_of_missing_file surface_node_of_missing_file
           (texture_node "missing.png") preview_surface_sdr texture_sdr
           Material.tokens_diffuseColor "file"%string
           {| upstreamNode := "/mat/missing"%string; upstreamOutputName := "rgb"%string |}
           [] [] "rgb" "missing.png" (VtToken "sRGB"%string) world_with_material);
    reflexivity.
Defined.

(** The example session: the instances 9, 10, 11 and 13 were created, the
    first three were destroyed, the entity holds the last. *)
Lemma held_instances_are_the_live_instances_witness :
  Permutation (created_instances (calls (msne (snd session_result))))
              (destroyed_instances (calls (msne (snd session_result)))
               ++ Mesh._instances (fst session_result)).
Proof.
  assert (Hsession : Session.session hydra_bits hio 0%nat (qm_scale 1) example_syncs
                       Session.initial_world = Some session_result).
  { apply (some_of_defined _ (fresh_mesh, Session.initial_world)). reflexivity. }
  apply (@held_instances_are_the_live_instances exact_host hydra_bits hio 0%nat (qm_scale 1)
           example_syncs (fst session_result) (snd session_result)
           (eq_trans Hsession (f_equal Some (surjective_pairing session_result)))).
Defined.

Lemma unit_pairing {A : Type} (r : unit * A) : r = (tt, snd r).
Proof. now destruct r as [[] a]. Qed.

(** The example session followed by the finalization of the mesh entity. *)
Lemma finalized_entity_leaves_no_instance_witness :
  Permutation (created_instances (calls (msne (snd lifetime_result))))
              (destroyed_instances (calls (msne (snd lifetime_result)))).
Proof.
  assert (Hlifetime : Session.lifetime hydra_bits hio 0%nat (qm_scale 1) example_syncs
                        Session.initial_world = Some lifetime_result).
  { apply (some_of_defined _ (tt, Session.initial_world)). reflexivity. }
  apply (@finalized_entity_leaves_no_instance exact_host hydra_bits hio 0%nat (qm_scale 1)
           example_syncs (snd lifetime_result)
           (eq_trans Hlifetime (f_equal Some (unit_pairing lifetime_result)))).
Defined.
End MoreWitnesses.
